(** * The intent execution lifecycle engine of the mock server

    A shallow embedding of [packages/mock-server/src/state.ts] (class
    [MockState]) and of the HTTP handlers that expose it
    ([handlers/intents.ts], [handlers/execution.ts]).

    Conventions of the embedding.
    - [Date.now()] and [Math.random()] are inputs: every synchronous run of
      the engine receives the instant [now] it reads from the clock (the
      reads made within one run are taken at one instant) and, for a driver
      wake-up, the draw [rnd], an IEEE binary64 number as in JavaScript.
    - [crypto.randomUUID()] is the input [fresh] of [createIntent].
    - A JavaScript [Map] iterates in insertion order and [Map.set] on a
      present key keeps its position: maps are association lists with such
      a [set].  A [Set] of callbacks is a list without repetition, in
      insertion order; a callback is identified by a key, as a function
      object is by its identity.
    - The engine mutates the stored objects in place; every mutation goes
      through the same synchronous run that fetched the object from the
      map, so it is a replacement of the value under the same key.
    - An [async] function is cut at its [await]s: [simulateExecution]
      gives the continuation it is suspended with, and [resume] runs one
      wake-up of it.  The scheduler is the list of [Op]s handed to [run].
    - A callback may throw.  The computations live in [Eng], a state monad
      over [World] with an abrupt completion [Throw].
    - [World] carries, besides the [MockState], a history [trace] of what
      the run did (state writes, callback invocations, SSE writes).  The
      engine never reads it.
    - A callback only writes to streams and returns or throws; it does not
      call back into the engine.  A handler runs as one synchronous run:
      the [await]s of [stream.writeSSE] are taken to resolve before the
      engine runs again, so what a callback writes is written at the call.

    The last part of the file goes beyond the claims: the agents, the mock
    controls with the gate [createServer] puts in front of the API
    ([server.ts]), and the client side in the SDK ([IntentService.list],
    [RestTransport.stream]).

    Left out: the submit, simulate and validate handlers, which test
    arbitrary JSON for truthiness; the quotes, whose amounts are floating
    point; the market and system handlers, whose answers are constants;
    the [config] and the counters of an agent. *)

From Stdlib Require Import List String Ascii ZArith Bool Arith Lia PrimFloat.
From Stdlib Require Import DecimalString Sorted.
Import ListNotations.
(* 0.05 below is the binary64 number nearest to it, as the literal is in
   JavaScript. *)
Set Warnings "-inexact-float".
Local Open Scope string_scope.
Local Open Scope Z_scope.
Local Open Scope list_scope.

(* ------------------------------------------------------------------ *)
(** ** JavaScript values the engine computes with *)

Definition UUID := string.
Definition Timestamp := Z.

(** A [number] as far as [listIntents] needs it: an integer or [NaN]
    (what [parseInt] gives on a string without digits).  Fractions and
    infinities are not represented. *)
Inductive JsNum := NaN | Int (z : Z).

Definition num_add (a b : JsNum) : JsNum :=
  match a, b with
  | Int x, Int y => Int (x + y)
  | _, _ => NaN
  end.

(** [a < n] for an integer [n]: false when [a] is [NaN]. *)
Definition num_ltb (a : JsNum) (n : Z) : bool :=
  match a with
  | Int x => x <? n
  | NaN => false
  end.

(** ToIntegerOrInfinity: [NaN] becomes 0. *)
Definition to_integer (a : JsNum) : Z :=
  match a with
  | Int x => x
  | NaN => 0
  end.

(** The value of a character as a digit in the given radix (10 or 16). *)
Definition digit_of (radix : Z) (c : ascii) : option Z :=
  let n := Z.of_nat (nat_of_ascii c) in
  if (48 <=? n) && (n <=? 57) then Some (n - 48)
  else if (radix =? 16) && (97 <=? n) && (n <=? 102) then Some (n - 87)
  else if (radix =? 16) && (65 <=? n) && (n <=? 70) then Some (n - 55)
  else None.

(** The longest prefix of digits, [None] when there is none. *)
Fixpoint parse_digits (radix : Z) (s : string) (acc : option Z) : option Z :=
  match s with
  | EmptyString => acc
  | String c s' =>
      match digit_of radix c with
      | Some d =>
          parse_digits radix s'
            (Some (radix * (match acc with Some a => a | None => 0 end) + d))
      | None => acc
      end
  end.

(** TAB, LF, VT, FF, CR and the space. *)
Definition is_space (c : ascii) : bool :=
  let n := Z.of_nat (nat_of_ascii c) in
  ((9 <=? n) && (n <=? 13)) || (n =? 32).

Fixpoint skip_space (s : string) : string :=
  match s with
  | String c s' => if is_space c then skip_space s' else s
  | EmptyString => s
  end.

(** [parseInt(s)] without a radix: leading white space, an optional sign,
    an optional [0x] or [0X] that selects radix 16, then digits; anything
    after the digits is ignored, and no digit gives [NaN].  White space
    outside ASCII is not skipped, and a number too large for a binary64
    is not rounded. *)
Definition parseInt (s : string) : JsNum :=
  let '(neg, body) :=
    match skip_space s with
    | String "-"%char s' => (true, s')
    | String "+"%char s' => (false, s')
    | s' => (false, s')
    end in
  let digits :=
    match body with
    | String "0"%char (String "x"%char s') => parse_digits 16 s' None
    | String "0"%char (String "X"%char s') => parse_digits 16 s' None
    | _ => parse_digits 10 body None
    end in
  match digits with
  | Some n => Int (if neg then - n else n)
  | None => NaN
  end.

(** [String(n)]. *)
Definition num_to_string (a : JsNum) : string :=
  match a with
  | Int z => NilZero.string_of_int (Z.to_int z)
  | NaN => "NaN"
  end.

Definition clamp_index (len i : Z) : Z :=
  if i <? 0 then Z.max (len + i) 0 else Z.min i len.

(** [Array.prototype.slice(start, stop)]: negative indices count from the
    end, both are clamped to the array, an empty range gives []. *)
Definition js_slice {A : Type} (l : list A) (start stop : JsNum) : list A :=
  let len := Z.of_nat (List.length l) in
  let k := clamp_index len (to_integer start) in
  let final := clamp_index len (to_integer stop) in
  firstn (Z.to_nat (final - k)) (skipn (Z.to_nat k) l).

(** [s.split(',')]. *)
Fixpoint split_comma_aux (s : string) (cur : string) : list string :=
  match s with
  | EmptyString => [cur]
  | String c s' =>
      if Ascii.eqb c ","%char then cur :: split_comma_aux s' EmptyString
      else split_comma_aux s' (String.append cur (String c EmptyString))
  end.

Definition split_comma (s : string) : list string := split_comma_aux s EmptyString.

(** A [Map] with string keys, in insertion order. *)
Module JsMap.

Definition t (V : Type) := list (string * V).

Fixpoint get {V : Type} (k : string) (m : t V) : option V :=
  match m with
  | [] => None
  | (k', v) :: m' => if String.eqb k k' then Some v else get k m'
  end.

Fixpoint set {V : Type} (k : string) (v : V) (m : t V) : t V :=
  match m with
  | [] => [(k, v)]
  | (k', v') :: m' =>
      if String.eqb k k' then (k, v) :: m' else (k', v') :: set k v m'
  end.

Definition has {V : Type} (k : string) (m : t V) : bool :=
  match get k m with
  | Some _ => true
  | None => false
  end.

Definition values {V : Type} (m : t V) : list V := map snd m.

End JsMap.

(* ------------------------------------------------------------------ *)
(** ** Types ([@nexwave/types] and the interfaces of [state.ts]) *)

Inductive ExecutionState :=
| PENDING | VALIDATING | PLANNING | SIMULATING | SUBMITTING | CONFIRMING
| VERIFYING | COMPLETED | FAILED | CANCELLED | RETRYING.

(** An [ExecutionState] is its name at run time. *)
Definition state_name (s : ExecutionState) : string :=
  match s with
  | PENDING => "PENDING"
  | VALIDATING => "VALIDATING"
  | PLANNING => "PLANNING"
  | SIMULATING => "SIMULATING"
  | SUBMITTING => "SUBMITTING"
  | CONFIRMING => "CONFIRMING"
  | VERIFYING => "VERIFYING"
  | COMPLETED => "COMPLETED"
  | FAILED => "FAILED"
  | CANCELLED => "CANCELLED"
  | RETRYING => "RETRYING"
  end.

Definition state_eqb (a b : ExecutionState) : bool :=
  match a, b with
  | PENDING, PENDING | VALIDATING, VALIDATING | PLANNING, PLANNING
  | SIMULATING, SIMULATING | SUBMITTING, SUBMITTING
  | CONFIRMING, CONFIRMING | VERIFYING, VERIFYING | COMPLETED, COMPLETED
  | FAILED, FAILED | CANCELLED, CANCELLED | RETRYING, RETRYING => true
  | _, _ => false
  end.

(** [states.includes(s)]. *)
Definition includes (states : list ExecutionState) (s : ExecutionState) : bool :=
  existsb (state_eqb s) states.

Record Asset := { symbol : string; decimals : Z }.

Record AssetAmount := { asset : Asset; amount : string }.

(** The payload.  The engine reads [id] and [output]; the list handler reads
    [action.type] and [inputs[0]].  The remaining fields of the schema
    (constraints, urgency, deadline, metadata) are never read by the code
    modelled here and are left out. *)
Record Intent := {
  opt_id : option UUID;
  action : string;
  inputs : list AssetAmount;
  output : Asset
}.

(** [{ ...intent, id }]. *)
Definition with_id (intent : Intent) (id : UUID) : Intent :=
  {| opt_id := Some id; action := action intent;
     inputs := inputs intent; output := output intent |}.

Record Event := {
  stage : string;
  type : string;
  message : string;
  timestamp : Timestamp
}.

Record Outcome := {
  success : bool;
  actualOutput : option AssetAmount;
  actualFees : string;
  actualSlippageBps : Z;
  transactionId : option string
}.

Record StoredIntent := {
  id : UUID;
  intent : Intent;
  state : ExecutionState;
  events : list Event;
  createdAt : Timestamp;
  completedAt : option Timestamp;
  outcome : option Outcome
}.

Inductive AgentStatus :=
| A_CREATED | A_STARTING | A_RUNNING | A_STOPPING | A_STOPPED | A_FAILED.

(** [config] and the execution counters of an agent are left out: no code
    modelled here reads them. *)
Record StoredAgent := {
  agent_id : string;
  agent_name : string;
  status : AgentStatus;
  agent_createdAt : Timestamp;
  startedAt : option Timestamp;
  stoppedAt : option Timestamp
}.

Record MockFailure := {
  failure_code : string;
  failure_message : string;
  failure_status : Z
}.

(** What [notifyWatchers] hands to a callback. *)
Record WatchEvent := {
  intentId : UUID;
  ev_state : ExecutionState;
  event : option Event;
  ev_timestamp : Timestamp
}.

(** One [stream.writeSSE]: an event as JSON, or the marker ['[DONE]']. *)
Inductive SseMsg :=
| Data (e : WatchEvent)
| Done.

(** A watcher: its identity, and what a call does with an event, namely the
    SSE messages it writes (connection, message) and whether it throws. *)
Record Callback := {
  cb_key : nat;
  cb_run : WatchEvent -> list (nat * SseMsg) * bool
}.

Record MockState := {
  intents : JsMap.t StoredIntent;
  agents : JsMap.t StoredAgent;
  intentWatchers : JsMap.t (list Callback);
  nextFailure : option MockFailure;
  latencyMs : Z;
  paused : bool
}.

(** [new MockState()]. *)
Definition new_MockState : MockState :=
  {| intents := []; agents := []; intentWatchers := [];
     nextFailure := None; latencyMs := 0; paused := false |}.

(** What a run did, in program order. *)
Inductive Action :=
| StateWrite (id : UUID) (s : ExecutionState)
| Invoke (key : nat) (ev : WatchEvent)
| SseWrite (conn : nat) (msg : SseMsg).

Record World := { ms : MockState; trace : list Action }.

Definition init : World := {| ms := new_MockState; trace := [] |}.

(* ------------------------------------------------------------------ *)
(** ** The monad of engine computations *)

Inductive Completion (A : Type) :=
| Normal (a : A)
| Throw.
Arguments Normal {A} a.
Arguments Throw {A}.

Definition Eng (A : Type) := World -> Completion A * World.

Definition ret {A : Type} (a : A) : Eng A := fun w => (Normal a, w).

Definition bind {A B : Type} (m : Eng A) (k : A -> Eng B) : Eng B :=
  fun w =>
    match m w with
    | (Normal a, w') => k a w'
    | (Throw, w') => (Throw, w')
    end.

Notation "x <- m ;; k" := (bind m (fun x => k))
  (at level 61, m at next level, right associativity).
Notation "m ;;; k" := (bind m (fun _ => k))
  (at level 61, right associativity).

Definition gets {A : Type} (f : MockState -> A) : Eng A :=
  fun w => (Normal (f (ms w)), w).

Definition modify (f : MockState -> MockState) : Eng unit :=
  fun w => (Normal tt, {| ms := f (ms w); trace := trace w |}).

Definition emit (acts : list Action) : Eng unit :=
  fun w => (Normal tt, {| ms := ms w; trace := trace w ++ acts |}).

Definition throw {A : Type} : Eng A := fun w => (Throw, w).

(** The world a computation leaves, whatever its completion. *)
Definition exec {A : Type} (m : Eng A) (w : World) : World := snd (m w).

(** Field updates of [MockState]. *)
Definition set_intents (f : JsMap.t StoredIntent -> JsMap.t StoredIntent)
  (s : MockState) : MockState :=
  {| intents := f (intents s); agents := agents s;
     intentWatchers := intentWatchers s; nextFailure := nextFailure s;
     latencyMs := latencyMs s; paused := paused s |}.

Definition set_agents (f : JsMap.t StoredAgent -> JsMap.t StoredAgent)
  (s : MockState) : MockState :=
  {| intents := intents s; agents := f (agents s);
     intentWatchers := intentWatchers s; nextFailure := nextFailure s;
     latencyMs := latencyMs s; paused := paused s |}.

Definition set_watchers
  (f : JsMap.t (list Callback) -> JsMap.t (list Callback))
  (s : MockState) : MockState :=
  {| intents := intents s; agents := agents s;
     intentWatchers := f (intentWatchers s); nextFailure := nextFailure s;
     latencyMs := latencyMs s; paused := paused s |}.

Definition set_paused (b : bool) (s : MockState) : MockState :=
  {| intents := intents s; agents := agents s;
     intentWatchers := intentWatchers s; nextFailure := nextFailure s;
     latencyMs := latencyMs s; paused := b |}.

(* ------------------------------------------------------------------ *)
(** ** Intents ([MockState], section Intents) *)

(** [events[events.length - 1]]. *)
Definition last_event (es : list Event) : option Event := hd_error (rev es).

(** A mutation of the stored object under [id]. *)
Definition mutate (id : UUID) (f : StoredIntent -> StoredIntent) : Eng unit :=
  modify (set_intents (fun m =>
    match JsMap.get id m with
    | Some i => JsMap.set id (f i) m
    | None => m
    end)).

Definition getIntent (id : UUID) : Eng (option StoredIntent) :=
  gets (fun s => JsMap.get id (intents s)).

(** ** Watchers *)

Definition cb_eqb (a b : Callback) : bool := Nat.eqb (cb_key a) (cb_key b).

(** [Set.add]: a callback already in the set keeps its place. *)
Fixpoint set_add (cb : Callback) (s : list Callback) : list Callback :=
  match s with
  | [] => [cb]
  | c :: s' => if cb_eqb cb c then c :: s' else c :: set_add cb s'
  end.

(** [Set.delete]. *)
Definition set_delete (cb : Callback) (s : list Callback) : list Callback :=
  filter (fun c => negb (cb_eqb cb c)) s.

Definition watchIntent (id : UUID) (callback : Callback) : Eng unit :=
  present <- gets (fun s => JsMap.has id (intentWatchers s)) ;;
  (if present then ret tt
   else modify (set_watchers (JsMap.set id []))) ;;;
  modify (set_watchers (fun m =>
    match JsMap.get id m with
    | Some s => JsMap.set id (set_add callback s) m
    | None => m
    end)).

(** The function [watchIntent] returns. *)
Definition unsubscribe (id : UUID) (callback : Callback) : Eng unit :=
  modify (set_watchers (fun m =>
    match JsMap.get id m with
    | Some s => JsMap.set id (set_delete callback s) m
    | None => m
    end)).

(** [cb(event)]: the call is recorded, what the callback wrote is recorded,
    and a throw leaves the run. *)
Definition call (cb : Callback) (ev : WatchEvent) : Eng unit :=
  let '(out, threw) := cb_run cb ev in
  emit (Invoke (cb_key cb) ev :: map (fun o => SseWrite (fst o) (snd o)) out) ;;;
  if threw then throw else ret tt.

(** [set.forEach((cb) => cb(event))]. *)
Fixpoint forEach (cbs : list Callback) (ev : WatchEvent) : Eng unit :=
  match cbs with
  | [] => ret tt
  | cb :: rest => call cb ev ;;; forEach rest ev
  end.

Definition notifyWatchers (id : UUID) (ev : WatchEvent) : Eng unit :=
  ws <- gets (fun s => JsMap.get id (intentWatchers s)) ;;
  match ws with
  | Some cbs => forEach cbs ev
  | None => ret tt
  end.

(** ** The lifecycle driver *)

Record Stage := {
  stage_state : ExecutionState;
  stage_message : string;
  delay : Z
}.

Definition stages : list Stage :=
  [ {| stage_state := VALIDATING; stage_message := "Validating intent"; delay := 200 |};
    {| stage_state := PLANNING; stage_message := "Building execution plan"; delay := 300 |};
    {| stage_state := SIMULATING; stage_message := "Simulating transaction"; delay := 500 |};
    {| stage_state := SUBMITTING; stage_message := "Submitting to chain"; delay := 400 |};
    {| stage_state := CONFIRMING; stage_message := "Waiting for confirmation"; delay := 1000 |};
    {| stage_state := VERIFYING; stage_message := "Verifying outcome"; delay := 300 |} ].

(** [Math.random() < 0.05], on binary64 numbers. *)
Definition draw_fails (rnd : float) : bool := PrimFloat.ltb rnd 0.05%float.

(** [Math.random() < 0.05 && stage.state !== 'VALIDATING']. *)
Definition injected (stage : Stage) (rnd : float) : bool :=
  draw_fails rnd && negb (state_eqb (stage_state stage) VALIDATING).

Definition push_event (e : Event) (i : StoredIntent) : StoredIntent :=
  {| id := id i; intent := intent i; state := state i;
     events := events i ++ [e]; createdAt := createdAt i;
     completedAt := completedAt i; outcome := outcome i |}.

Definition with_state (s : ExecutionState) (i : StoredIntent) : StoredIntent :=
  {| id := id i; intent := intent i; state := s;
     events := events i; createdAt := createdAt i;
     completedAt := completedAt i; outcome := outcome i |}.

Definition with_completedAt (t : Timestamp) (i : StoredIntent) : StoredIntent :=
  {| id := id i; intent := intent i; state := state i;
     events := events i; createdAt := createdAt i;
     completedAt := Some t; outcome := outcome i |}.

Definition with_outcome (o : Outcome) (i : StoredIntent) : StoredIntent :=
  {| id := id i; intent := intent i; state := state i;
     events := events i; createdAt := createdAt i;
     completedAt := completedAt i; outcome := Some o |}.

(** The notification sent after a transition of the stored intent [id]:
    [{ intentId: id, state, event: events[events.length - 1], timestamp }]. *)
Definition notify_last (id : UUID) (s : ExecutionState) (now : Timestamp) : Eng unit :=
  cur <- getIntent id ;;
  notifyWatchers id
    {| intentId := id; ev_state := s;
       event := match cur with Some i => last_event (events i) | None => None end;
       ev_timestamp := now |}.

(** The body of the [for] loop of [simulateExecution] after its [await]:
    [true] when the loop goes on, [false] when the function returned. *)
Definition stage_body (id : UUID) (stage : Stage) (rnd : float) (now : Timestamp)
  : Eng bool :=
  current <- getIntent id ;;
  match current with
  | None => ret false
  | Some cur =>
      if state_eqb (state cur) CANCELLED then ret false
      else if injected stage rnd then
        mutate id (with_state FAILED) ;;;
        emit [StateWrite id FAILED] ;;;
        mutate id (with_completedAt now) ;;;
        mutate id (push_event
          {| stage := state_name (stage_state stage); type := "FAILED";
             message := String.append "Simulated failure at "
                          (state_name (stage_state stage));
             timestamp := now |}) ;;;
        notify_last id FAILED now ;;;
        ret false
      else
        mutate id (with_state (stage_state stage)) ;;;
        emit [StateWrite id (stage_state stage)] ;;;
        mutate id (push_event
          {| stage := state_name (stage_state stage); type := "STATE_CHANGE";
             message := stage_message stage; timestamp := now |}) ;;;
        notify_last id (stage_state stage) now ;;;
        ret true
  end.

(** The end of [simulateExecution], after the loop. *)
Definition complete (id : UUID) (now : Timestamp) : Eng unit :=
  final <- getIntent id ;;
  match final with
  | None => ret tt
  | Some fin =>
      if state_eqb (state fin) CANCELLED then ret tt
      else
        mutate id (with_state COMPLETED) ;;;
        emit [StateWrite id COMPLETED] ;;;
        mutate id (with_completedAt now) ;;;
        mutate id (with_outcome
          {| success := true;
             actualOutput :=
               Some {| asset := output (intent fin); amount := "526180000000" |};
             actualFees := "5000";
             actualSlippageBps := 25;
             transactionId :=
               Some (String.append "mock-tx-" (String.substring 0 8 id)) |}) ;;;
        mutate id (push_event
          {| stage := "VERIFICATION"; type := "COMPLETED";
             message := "Execution completed successfully"; timestamp := now |}) ;;;
        notify_last id COMPLETED now
  end.

(** The loop from the stage it is suspended before: run the body of that
    stage; when it was the last, go on to [complete] in the same run;
    otherwise the driver is suspended again, with the stages left. *)
Definition resume (id : UUID) (k : list Stage) (rnd : float) (now : Timestamp)
  : Eng (option (list Stage)) :=
  match k with
  | [] => ret None
  | stage :: rest =>
      go_on <- stage_body id stage rnd now ;;
      if go_on then
        match rest with
        | [] => complete id now ;;; ret None
        | _ :: _ => ret (Some rest)
        end
      else ret None
  end.

(** The call [this.simulateExecution(id)]: it runs up to the first [await]
    and leaves the driver suspended before the first stage. *)
Definition simulateExecution (id : UUID) : Eng (option (list Stage)) :=
  i <- getIntent id ;;
  match i with
  | None => ret None
  | Some _ => ret (Some stages)
  end.

(** [intent.id ?? crypto.randomUUID()]. *)
Definition intent_key (intent : Intent) (fresh : UUID) : UUID :=
  match opt_id intent with
  | Some i => i
  | None => fresh
  end.

Definition createIntent (intent : Intent) (fresh : UUID) (now : Timestamp)
  : Eng (StoredIntent * option (list Stage)) :=
  let id := intent_key intent fresh in
  let stored :=
    {| id := id; intent := with_id intent id; state := PENDING;
       events := [ {| stage := "SUBMISSION"; type := "STARTED";
                      message := "Intent received"; timestamp := now |} ];
       createdAt := now; completedAt := None; outcome := None |} in
  modify (set_intents (JsMap.set id stored)) ;;;
  emit [StateWrite id PENDING] ;;;
  k <- simulateExecution id ;;
  ret (stored, k).

Definition cancelIntent (id : UUID) (now : Timestamp) : Eng (option StoredIntent) :=
  found <- getIntent id ;;
  match found with
  | None => ret None
  | Some i =>
      if state_eqb (state i) COMPLETED || state_eqb (state i) FAILED then
        ret (Some i)
      else
        mutate id (with_state CANCELLED) ;;;
        emit [StateWrite id CANCELLED] ;;;
        mutate id (with_completedAt now) ;;;
        mutate id (push_event
          {| stage := "SUBMISSION"; type := "CANCELLED";
             message := "Intent cancelled by user"; timestamp := now |}) ;;;
        notify_last id CANCELLED now ;;;
        getIntent id
  end.

(** ** Queries *)

(** [results.sort((a, b) => b.createdAt - a.createdAt)]: the sort is stable,
    so an intent goes before the first one that is not newer than it. *)
Fixpoint insert_desc (x : StoredIntent) (l : list StoredIntent) : list StoredIntent :=
  match l with
  | [] => [x]
  | y :: l' =>
      if createdAt x <? createdAt y then y :: insert_desc x l' else x :: y :: l'
  end.

Definition sort_desc (l : list StoredIntent) : list StoredIntent :=
  fold_right insert_desc [] l.

Record ListFilters := {
  f_states : option (list string);
  f_limit : option JsNum;
  f_cursor : option string
}.

Record ListResult := {
  r_intents : list StoredIntent;
  r_nextCursor : option string
}.

(** The list as filtered and sorted, before the page is cut. *)
Definition matching (filters : ListFilters) (s : MockState) : list StoredIntent :=
  let results := JsMap.values (intents s) in
  let results :=
    match f_states filters with
    | Some (st :: sts) =>
        filter (fun i => existsb (String.eqb (state_name (state i))) (st :: sts))
          results
    | _ => results
    end in
  sort_desc results.

(** [filters?.limit ?? 20]. *)
Definition list_limit (limit : option JsNum) : JsNum :=
  match limit with
  | Some l => l
  | None => Int 20
  end.

(** [filters?.cursor ? parseInt(filters.cursor) : 0]: the empty string is
    falsy. *)
Definition list_start (cursor : option string) : JsNum :=
  match cursor with
  | Some (String c s) => parseInt (String c s)
  | _ => Int 0
  end.

Definition listIntents (filters : ListFilters) (s : MockState) : ListResult :=
  let results := matching filters s in
  let limit := list_limit (f_limit filters) in
  let startIndex := list_start (f_cursor filters) in
  let slice := js_slice results startIndex (num_add startIndex limit) in
  {| r_intents := slice;
     r_nextCursor :=
       if num_ltb (num_add startIndex limit) (Z.of_nat (List.length results))
       then Some (num_to_string (num_add startIndex limit))
       else None |}.

(** ** Execution control *)


Definition pause : Eng unit := modify (set_paused true).

Definition resume_execution : Eng unit := modify (set_paused false).

Definition terminal (s : ExecutionState) : bool :=
  includes [COMPLETED; FAILED; CANCELLED] s.

(** The first loop of [kill], over [this.intents.values()]: the entries as
    it leaves them, the state writes it made, and the counter. *)
Fixpoint kill_intents (now : Timestamp) (m : JsMap.t StoredIntent)
  (executionsKilled : nat) : JsMap.t StoredIntent * list Action * nat :=
  match m with
  | [] => ([], [], executionsKilled)
  | (k, i) :: m' =>
      if negb (terminal (state i)) then
        let '(m'', acts, n) := kill_intents now m' (S executionsKilled) in
        ((k, with_completedAt now (with_state CANCELLED i)) :: m'',
         StateWrite k CANCELLED :: acts, n)
      else
        let '(m'', acts, n) := kill_intents now m' executionsKilled in
        ((k, i) :: m'', acts, n)
  end.

Definition agent_running (a : StoredAgent) : bool :=
  match status a with
  | A_RUNNING => true
  | _ => false
  end.

Definition stop_agent (now : Timestamp) (a : StoredAgent) : StoredAgent :=
  {| agent_id := agent_id a; agent_name := agent_name a; status := A_STOPPED;
     agent_createdAt := agent_createdAt a; startedAt := startedAt a;
     stoppedAt := Some now |}.

(** The second loop of [kill], over [this.agents.values()]. *)
Fixpoint kill_agents (now : Timestamp) (m : JsMap.t StoredAgent)
  (agentsStopped : nat) : JsMap.t StoredAgent * nat :=
  match m with
  | [] => ([], agentsStopped)
  | (k, a) :: m' =>
      if agent_running a then
        let '(m'', n) := kill_agents now m' (S agentsStopped) in
        ((k, stop_agent now a) :: m'', n)
      else
        let '(m'', n) := kill_agents now m' agentsStopped in
        ((k, a) :: m'', n)
  end.

Record KillResult := { executionsKilled : nat; agentsStopped : nat }.

Definition kill (now : Timestamp) : Eng KillResult :=
  stored <- gets intents ;;
  let '(stored', acts, killed) := kill_intents now stored 0%nat in
  modify (set_intents (fun _ => stored')) ;;;
  emit acts ;;;
  ags <- gets agents ;;
  let '(ags', stopped) := kill_agents now ags 0%nat in
  modify (set_agents (fun _ => ags')) ;;;
  ret {| executionsKilled := killed; agentsStopped := stopped |}.

Record QueueStatus := {
  pendingIntents : nat;
  executingIntents : nat;
  runningAgents : nat;
  q_paused : bool
}.

Definition is_executing (s : ExecutionState) : bool :=
  includes [VALIDATING; PLANNING; SIMULATING; SUBMITTING; CONFIRMING; VERIFYING] s.

Definition getQueueStatus (s : MockState) : QueueStatus :=
  {| pendingIntents :=
       List.length (filter (fun i => state_eqb (state i) PENDING)
                      (JsMap.values (intents s)));
     executingIntents :=
       List.length (filter (fun i => is_executing (state i))
                      (JsMap.values (intents s)));
     runningAgents :=
       List.length (filter agent_running (JsMap.values (agents s)));
     q_paused := paused s |}.

(* ------------------------------------------------------------------ *)
(** ** The handlers *)

Record IntentSummary := {
  s_id : UUID;
  s_action : string;
  s_state : ExecutionState;
  s_createdAt : Timestamp;
  s_input : option AssetAmount;
  s_output : option AssetAmount
}.

Record ListResponse := {
  resp_intents : list IntentSummary;
  resp_nextCursor : option string;
  totalCount : nat
}.

Definition summary (i : StoredIntent) : IntentSummary :=
  {| s_id := id i; s_action := action (intent i); s_state := state i;
     s_createdAt := createdAt i; s_input := hd_error (inputs (intent i));
     s_output :=
       match outcome i with
       | Some o => actualOutput o
       | None => None
       end |}.

(** GET /api/v1/intents, from its query parameters. *)
Definition list_handler (q_limit q_cursor q_states : option string)
  (s : MockState) : ListResponse :=
  let limit := parseInt (match q_limit with Some l => l | None => "20" end) in
  let states :=
    match q_states with
    | Some p => Some (split_comma p)
    | None => None
    end in
  let result :=
    listIntents
      {| f_states := states; f_limit := Some limit; f_cursor := q_cursor |} s in
  {| resp_intents := map summary (r_intents result);
     resp_nextCursor := r_nextCursor result;
     totalCount := List.length (r_intents result) |}.

(** The callback the watch handler registers for connection [conn]: it
    writes the event, and the marker after an event of a terminal state.
    It is an [async] function, so it never throws into [forEach]. *)
Definition sse_callback (conn : nat) : Callback :=
  {| cb_key := conn;
     cb_run := fun ev =>
       ((conn, Data ev) ::
        (if terminal (ev_state ev) then [(conn, Done)] else []),
        false) |}.

(** GET /api/v1/intents/:id/watch on connection [conn]: [false] is the 404
    answer.  The handler keeps the object it fetched and reads its state and
    events from it; here they are read from the record found under [id] at
    the start of the run. *)
Definition watch_handler (conn : nat) (id : UUID) (now : Timestamp) : Eng bool :=
  found <- getIntent id ;;
  match found with
  | None => ret false
  | Some i =>
      emit [SseWrite conn
              (Data {| intentId := id; ev_state := state i;
                       event := last_event (events i); ev_timestamp := now |})] ;;;
      if terminal (state i) then
        emit [SseWrite conn Done] ;;; ret true
      else
        watchIntent id (sse_callback conn) ;;; ret true
  end.

(** The [onAbort] of the stream of connection [conn]. *)
Definition watch_abort (conn : nat) (id : UUID) : Eng unit :=
  unsubscribe id (sse_callback conn).

Record CancelResponse := { cancelled : bool; finalState : ExecutionState }.

(** POST /api/v1/intents/:id/cancel: [None] is the 404 answer. *)
Definition cancel_handler (id : UUID) (now : Timestamp) : Eng (option CancelResponse) :=
  r <- cancelIntent id now ;;
  match r with
  | None => ret None
  | Some i =>
      ret (Some {| cancelled := state_eqb (state i) CANCELLED;
                   finalState := state i |})
  end.

(* ------------------------------------------------------------------ *)
(** ** The scheduler *)

(** What can happen to the engine, one synchronous run each. *)
Inductive Op :=
| OpCreate (intent : Intent) (fresh : UUID) (now : Timestamp)
| OpResume (id : UUID) (k : list Stage) (rnd : float) (now : Timestamp)
| OpCancel (id : UUID) (now : Timestamp)
| OpKill (now : Timestamp)
| OpPause
| OpUnpause
| OpWatch (id : UUID) (cb : Callback)
| OpUnwatch (id : UUID) (cb : Callback)
| OpConnect (conn : nat) (id : UUID) (now : Timestamp)
| OpAbort (conn : nat) (id : UUID).

Definition step (o : Op) (w : World) : World :=
  match o with
  | OpCreate intent fresh now => exec (createIntent intent fresh now) w
  | OpResume id k rnd now => exec (resume id k rnd now) w
  | OpCancel id now => exec (cancelIntent id now) w
  | OpKill now => exec (kill now) w
  | OpPause => exec pause w
  | OpUnpause => exec resume_execution w
  | OpWatch id cb => exec (watchIntent id cb) w
  | OpUnwatch id cb => exec (unsubscribe id cb) w
  | OpConnect conn id now => exec (watch_handler conn id now) w
  | OpAbort conn id => exec (watch_abort conn id) w
  end.

Definition run (ops : list Op) (w : World) : World :=
  fold_left (fun w o => step o w) ops w.

(** ** Reading a world *)

Definition lookup (id : UUID) (w : World) : option StoredIntent :=
  JsMap.get id (intents (ms w)).

Definition state_of (id : UUID) (w : World) : option ExecutionState :=
  option_map state (lookup id w).

Definition watchers_of (id : UUID) (w : World) : list Callback :=
  match JsMap.get id (intentWatchers (ms w)) with
  | Some cbs => cbs
  | None => []
  end.

(** The states the record [id] was written, in order. *)
Fixpoint state_writes (id : UUID) (tr : list Action) : list ExecutionState :=
  match tr with
  | [] => []
  | StateWrite id' s :: tr' =>
      if String.eqb id id' then s :: state_writes id tr' else state_writes id tr'
  | _ :: tr' => state_writes id tr'
  end.

(** The events the callback [key] was called with, in order. *)
Fixpoint invocations (key : nat) (tr : list Action) : list WatchEvent :=
  match tr with
  | [] => []
  | Invoke k ev :: tr' =>
      if Nat.eqb key k then ev :: invocations key tr' else invocations key tr'
  | _ :: tr' => invocations key tr'
  end.

(** All the calls of callbacks, with the callback's key. *)
Fixpoint calls (tr : list Action) : list (nat * WatchEvent) :=
  match tr with
  | [] => []
  | Invoke k ev :: tr' => (k, ev) :: calls tr'
  | _ :: tr' => calls tr'
  end.

(** What was written on the stream of connection [conn], in order. *)
Fixpoint stream (conn : nat) (tr : list Action) : list SseMsg :=
  match tr with
  | [] => []
  | SseWrite c m :: tr' =>
      if Nat.eqb conn c then m :: stream conn tr' else stream conn tr'
  | _ :: tr' => stream conn tr'
  end.

(* ------------------------------------------------------------------ *)
(** ** Notions the statements are written with *)

(** A callback that returns normally on every event. *)
Definition never_throws (cb : Callback) : Prop :=
  forall ev, snd (cb_run cb ev) = false.

(** What [forEach] does on a list of callbacks, as a value: the actions, and
    whether a callback threw. *)
Fixpoint deliver (cbs : list Callback) (ev : WatchEvent) : list Action * bool :=
  match cbs with
  | [] => ([], false)
  | cb :: rest =>
      let acts :=
        Invoke (cb_key cb) ev
          :: map (fun o => SseWrite (fst o) (snd o)) (fst (cb_run cb ev)) in
      if snd (cb_run cb ev) then (acts, true)
      else (acts ++ fst (deliver rest ev), snd (deliver rest ev))
  end.

(** The callbacks [forEach] reaches: those up to the first that throws on
    [ev], that one included. *)
Fixpoint reached (cbs : list Callback) (ev : WatchEvent) : list Callback :=
  match cbs with
  | [] => []
  | cb :: rest => if snd (cb_run cb ev) then [cb] else cb :: reached rest ev
  end.

Definition add_trace (acts : list Action) (w : World) : World :=
  {| ms := ms w; trace := trace w ++ acts |}.

(** The world with [r] stored under [id]. *)
Definition upd (id : UUID) (r : StoredIntent) (w : World) : World :=
  {| ms := set_intents (JsMap.set id r) (ms w); trace := trace w |}.

(** The notification of a transition to [s] of the record [r]. *)
Definition notice (id : UUID) (r : StoredIntent) (s : ExecutionState)
  (now : Timestamp) : WatchEvent :=
  {| intentId := id; ev_state := s; event := last_event (events r);
     ev_timestamp := now |}.

(** The world after a transition of the record under [id] to [r], a state
    write of [s] and the notification of the watchers. *)
Definition transition (id : UUID) (r : StoredIntent) (s : ExecutionState)
  (now : Timestamp) (w : World) : World :=
  add_trace (StateWrite id s :: fst (deliver (watchers_of id w) (notice id r s now)))
    (upd id r w).

Definition transition_throws (id : UUID) (r : StoredIntent) (s : ExecutionState)
  (now : Timestamp) (w : World) : bool :=
  snd (deliver (watchers_of id w) (notice id r s now)).

(** The records the four transitions leave. *)
Definition advanced (stage : Stage) (now : Timestamp) (r : StoredIntent) : StoredIntent :=
  push_event
    {| stage := state_name (stage_state stage); type := "STATE_CHANGE";
       message := stage_message stage; timestamp := now |}
    (with_state (stage_state stage) r).

Definition failed (stage : Stage) (now : Timestamp) (r : StoredIntent) : StoredIntent :=
  push_event
    {| stage := state_name (stage_state stage); type := "FAILED";
       message := String.append "Simulated failure at "
                    (state_name (stage_state stage));
       timestamp := now |}
    (with_completedAt now (with_state FAILED r)).

Definition completed (id : UUID) (now : Timestamp) (r : StoredIntent) : StoredIntent :=
  push_event
    {| stage := "VERIFICATION"; type := "COMPLETED";
       message := "Execution completed successfully"; timestamp := now |}
    (with_outcome
       {| success := true;
          actualOutput :=
            Some {| asset := output (intent r); amount := "526180000000" |};
          actualFees := "5000";
          actualSlippageBps := 25;
          transactionId :=
            Some (String.append "mock-tx-" (String.substring 0 8 id)) |}
       (with_completedAt now (with_state COMPLETED r))).

Definition cancelled_record (now : Timestamp) (r : StoredIntent) : StoredIntent :=
  push_event
    {| stage := "SUBMISSION"; type := "CANCELLED";
       message := "Intent cancelled by user"; timestamp := now |}
    (with_completedAt now (with_state CANCELLED r)).

(** The continuation a wake-up leaves: none after a return or a throw. *)
Definition continuation (c : Completion (option (list Stage))) : option (list Stage) :=
  match c with
  | Normal k => k
  | Throw => None
  end.

(** The driver of [id] woken up once per entry of [sched], each time with
    the continuation the previous wake-up left; before each wake-up the
    operations of the entry run. *)
Fixpoint drive (id : UUID) (k : option (list Stage))
  (sched : list (list Op * float * Timestamp)) (w : World) : World :=
  match k, sched with
  | Some k', (gap, rnd, now) :: sched' =>
      let r := resume id k' rnd now (run gap w) in
      drive id (continuation (fst r)) sched' (snd r)
  | _, _ => w
  end.


(** An operation that is neither a cancel of [id], nor a kill, nor a second
    creation under [id], nor a wake-up of a driver of [id], and that gives
    [id] no watcher that throws. *)
Definition foreign (id : UUID) (o : Op) : Prop :=
  match o with
  | OpCreate intent fresh _ => intent_key intent fresh <> id
  | OpResume id' _ _ _ => id' <> id
  | OpCancel id' _ => id' <> id
  | OpKill _ => False
  | OpWatch id' cb => id' <> id \/ never_throws cb
  | _ => True
  end.

(** The state an event of the log stands for: the creation event for
    PENDING, a state change for the state named by its stage, and the three
    terminal events for their states. *)
Definition state_of_name (n : string) : option ExecutionState :=
  find (fun s => String.eqb (state_name s) n)
    [PENDING; VALIDATING; PLANNING; SIMULATING; SUBMITTING; CONFIRMING;
     VERIFYING; COMPLETED; FAILED; CANCELLED; RETRYING].

Definition event_state (e : Event) : option ExecutionState :=
  if String.eqb (type e) "STARTED" then Some PENDING
  else if String.eqb (type e) "STATE_CHANGE" then state_of_name (stage e)
  else if String.eqb (type e) "FAILED" then Some FAILED
  else if String.eqb (type e) "CANCELLED" then Some CANCELLED
  else if String.eqb (type e) "COMPLETED" then Some COMPLETED
  else None.

(** [state] is consistent with the last entry of the event log. *)
Definition consistent (r : StoredIntent) : bool :=
  match last_event (events r) with
  | Some e =>
      match event_state e with
      | Some s => state_eqb s (state r)
      | None => false
      end
  | None => false
  end.

(** Newest first. *)
Definition newer_or_equal (a b : StoredIntent) : Prop := createdAt b <= createdAt a.

(** From [w] to [w'] the record under [id] and its history did not change,
    and its watchers are still callbacks that never throw if they were. *)
Record undisturbed (id : UUID) (w w' : World) : Prop := {
  und_lookup : lookup id w' = lookup id w;
  und_writes : state_writes id (trace w') = state_writes id (trace w);
  und_quiet :
    Forall never_throws (watchers_of id w) ->
    Forall never_throws (watchers_of id w')
}.

(** A computation that leaves the intent [id] alone, from any world. *)
Definition leaves_alone {A : Type} (id : UUID) (m : Eng A) : Prop :=
  forall w, undisturbed id w (snd (m w)).




(** What [kill] leaves of a record. *)
Definition killed_record (now : Timestamp) (i : StoredIntent) : StoredIntent :=
  if terminal (state i) then i
  else with_completedAt now (with_state CANCELLED i).

Definition live (i : StoredIntent) : bool := negb (terminal (state i)).

(** An intent passes the state filter: there is none, or it is empty, or it
    names the state of the intent. *)
Definition passes (filters : ListFilters) (i : StoredIntent) : bool :=
  match f_states filters with
  | Some (st :: sts) => existsb (String.eqb (state_name (state i))) (st :: sts)
  | _ => true
  end.

(** From [w] to [w'] the record under [id], if there is one, had events
    appended to its log, one for each state it was written and standing
    for that state, and is left in the last state written. *)
Definition logged (id : UUID) (w w' : World) : Prop :=
  forall r,
    lookup id w = Some r ->
    exists r' new writes,
      lookup id w' = Some r'
      /\ events r' = events r ++ new
      /\ state_writes id (trace w') = state_writes id (trace w) ++ writes
      /\ map event_state new = map Some writes
      /\ state r' = last writes (state r).

(** ** Sample inputs *)

Definition sample_intent : Intent :=
  {| opt_id := None; action := "EXCHANGE";
     inputs := [ {| asset := {| symbol := "USDC"; decimals := 6 |};
                    amount := "50000000" |} ];
     output := {| symbol := "SOL"; decimals := 9 |} |}.

Definition sample_id : UUID := "3f2b8c1e-0d4a-4e6b-9a57-c1d2e3f4a5b6".

Definition other_id : UUID := "9c0d7e55-1b2a-4c3d-8e4f-5a6b7c8d9e0f".

(** The record [createIntent sample_intent sample_id 1000] stores. *)
Definition sample_stored : StoredIntent :=
  {| id := sample_id; intent := with_id sample_intent sample_id;
     state := PENDING;
     events := [ {| stage := "SUBMISSION"; type := "STARTED";
                    message := "Intent received"; timestamp := 1000 |} ];
     createdAt := 1000; completedAt := None; outcome := None |}.

(** A world with one pending intent. *)
Definition sample_world : World :=
  exec (createIntent sample_intent sample_id 1000) init.


(** A world with two pending intents. *)
Definition two_world : World :=
  run [OpCreate sample_intent sample_id 1000; OpCreate sample_intent other_id 1001]
    init.

(** A watcher that throws on every event, and one that never does. *)
Definition thrower (key : nat) : Callback :=
  {| cb_key := key; cb_run := fun _ => ([], true) |}.

Definition listener (key : nat) : Callback :=
  {| cb_key := key; cb_run := fun _ => ([], false) |}.


(** No operation of the schedule before a wake-up touches [id]. *)
Definition untouched (id : UUID) (e : list Op * float * Timestamp) : Prop :=
  Forall (foreign id) (fst (fst e)).

(** An operation that is not a creation under [id]. *)
Definition not_create (id : UUID) (o : Op) : Prop :=
  match o with
  | OpCreate intent fresh _ => intent_key intent fresh <> id
  | _ => True
  end.

Definition not_kill (o : Op) : Prop :=
  match o with
  | OpKill _ => False
  | _ => True
  end.

(** [reset()]: the maps are cleared and the controls are set back. *)
Definition reset : Eng unit :=
  modify (fun _ =>
    {| intents := []; agents := []; intentWatchers := [];
       nextFailure := None; latencyMs := 0; paused := false |}).

(** The ids of the stored intents, in the order of the map. *)
Definition stored_ids (w : World) : list UUID := map fst (intents (ms w)).

(** A computation that neither adds nor removes a stored intent. *)
Definition keeps_ids {A : Type} (m : Eng A) : Prop :=
  forall w, stored_ids (snd (m w)) = stored_ids w.

Definition not_any_create (o : Op) : Prop :=
  match o with
  | OpCreate _ _ _ => False
  | _ => True
  end.

(** The number of stored intents in RETRYING. *)
Definition retrying_count (s : MockState) : nat :=
  List.length (filter (fun i => state_eqb (state i) RETRYING)
                 (JsMap.values (intents s))).

From Stdlib Require Import DecimalZ.

(** The same query at another cursor. *)
Definition with_cursor (filters : ListFilters) (cursor : option string)
  : ListFilters :=
  {| f_states := f_states filters; f_limit := f_limit filters;
     f_cursor := cursor |}.

(** A client that lists from [cursor] and goes on with each [nextCursor] it
    is handed, for at most [fuel] pages: the items it has seen. *)
Fixpoint follow_pages (fuel : nat) (filters : ListFilters)
  (cursor : option string) (s : MockState) : list StoredIntent :=
  match fuel with
  | O => []
  | S fuel' =>
      let r := listIntents (with_cursor filters cursor) s in
      r_intents r ++
      match r_nextCursor r with
      | Some c => follow_pages fuel' filters (Some c) s
      | None => []
      end
  end.

(** ** Agents *)

(** [Map.delete]: the entry is taken out, so a later [set] of the key
    appends it again. *)
Fixpoint map_delete {V : Type} (k : string) (m : JsMap.t V) : JsMap.t V :=
  match m with
  | [] => []
  | (k', v) :: m' =>
      if String.eqb k k' then m' else (k', v) :: map_delete k m'
  end.

(** [`agt_${crypto.randomUUID().slice(0, 8)}`]. *)
Definition agent_key (fresh : UUID) : string :=
  String.append "agt_" (substring 0 8 fresh).

Definition createAgent (name : string) (fresh : UUID) (now : Timestamp)
  : Eng StoredAgent :=
  let id := agent_key fresh in
  let agent :=
    {| agent_id := id; agent_name := name; status := A_CREATED;
       agent_createdAt := now; startedAt := None; stoppedAt := None |} in
  modify (set_agents (JsMap.set id agent)) ;;;
  ret agent.

Definition getAgent (id : string) : Eng (option StoredAgent) :=
  gets (fun s => JsMap.get id (agents s)).

Definition listAgents : Eng (list StoredAgent) :=
  gets (fun s => JsMap.values (agents s)).

Definition start_agent (now : Timestamp) (a : StoredAgent) : StoredAgent :=
  {| agent_id := agent_id a; agent_name := agent_name a; status := A_RUNNING;
     agent_createdAt := agent_createdAt a; startedAt := Some now;
     stoppedAt := stoppedAt a |}.

Definition startAgent (id : string) (now : Timestamp)
  : Eng (option StoredAgent) :=
  found <- getAgent id ;;
  match found with
  | None => ret None
  | Some agent =>
      modify (set_agents (JsMap.set id (start_agent now agent))) ;;;
      ret (Some (start_agent now agent))
  end.

Definition stopAgent (id : string) (now : Timestamp)
  : Eng (option StoredAgent) :=
  found <- getAgent id ;;
  match found with
  | None => ret None
  | Some agent =>
      modify (set_agents (JsMap.set id (stop_agent now agent))) ;;;
      ret (Some (stop_agent now agent))
  end.

Definition deleteAgent (id : string) : Eng bool :=
  present <- gets (fun s => JsMap.has id (agents s)) ;;
  modify (set_agents (map_delete id)) ;;;
  ret present.

(** What can happen to the agents, one synchronous run each. *)
Inductive AgentOp :=
| AgCreate (name : string) (fresh : UUID) (now : Timestamp)
| AgStart (id : string) (now : Timestamp)
| AgStop (id : string) (now : Timestamp)
| AgDelete (id : string)
| AgKill (now : Timestamp).

Definition agent_step (o : AgentOp) (w : World) : World :=
  match o with
  | AgCreate name fresh now => exec (createAgent name fresh now) w
  | AgStart id now => exec (startAgent id now) w
  | AgStop id now => exec (stopAgent id now) w
  | AgDelete id => exec (deleteAgent id) w
  | AgKill now => exec (kill now) w
  end.

Definition agent_run (ops : list AgentOp) (w : World) : World :=
  fold_left (fun w o => agent_step o w) ops w.

(** An agent as the engine keeps it: stored under its own id, in one of the
    three states the engine assigns, with the instants those states have
    set. *)
Definition agent_ok (key : string) (a : StoredAgent) : Prop :=
  agent_id a = key /\
  match status a with
  | A_CREATED => startedAt a = None /\ stoppedAt a = None
  | A_RUNNING => startedAt a <> None
  | A_STOPPED => stoppedAt a <> None
  | _ => False
  end.

Definition agents_ok (w : World) : Prop :=
  NoDup (map fst (agents (ms w))) /\
  Forall (fun e => agent_ok (fst e) (snd e)) (agents (ms w)).

(** ** The mock controls and the gate in front of the API *)

Definition set_nextFailure (f : option MockFailure) (s : MockState) : MockState :=
  {| intents := intents s; agents := agents s;
     intentWatchers := intentWatchers s; nextFailure := f;
     latencyMs := latencyMs s; paused := paused s |}.

Definition set_latencyMs (l : Z) (s : MockState) : MockState :=
  {| intents := intents s; agents := agents s;
     intentWatchers := intentWatchers s; nextFailure := nextFailure s;
     latencyMs := l; paused := paused s |}.

Definition setNextFailure (failure : MockFailure) : Eng unit :=
  modify (set_nextFailure (Some failure)).

Definition shouldFailNext : Eng bool :=
  gets (fun s => match nextFailure s with Some _ => true | None => false end).

(** [consumeFailure]: what [nextFailure] holds, [null] when nothing is
    configured. *)
Definition consumeFailure : Eng (option MockFailure) :=
  failure <- gets nextFailure ;;
  modify (set_nextFailure None) ;;;
  ret failure.

Definition setLatency (l : Z) : Eng unit := modify (set_latencyMs l).

Definition getLatency : Eng Z := gets latencyMs.

(** POST /_mock/fail-next: a field the body does not have takes its
    default. *)
Definition fail_next_handler (code message : option string) (status : option Z)
  : Eng MockFailure :=
  let failure :=
    {| failure_code := match code with Some c => c | None => "INTERNAL" end;
       failure_message :=
         match message with Some m => m | None => "Simulated failure" end;
       failure_status := match status with Some s => s | None => 500 end |} in
  setNextFailure failure ;;;
  ret failure.

(** What the gate reads of a request. *)
Record Request := { req_path : string; req_auth : option string }.

(** What the gate does with it: it calls [next], after a delay when a
    latency is configured, or it answers itself. *)
Inductive Verdict :=
| Next (delay : option Z)
| Reply (http_status : Z) (code : string) (message : string).

(** [auth?.startsWith('Bearer nxw_')]. *)
Definition authorised (auth : option string) : bool :=
  match auth with
  | Some a => String.prefix "Bearer nxw_" a
  | None => false
  end.

Definition is_health (r : Request) : bool :=
  String.eqb (req_path r) "/api/v1/health".

(** The middleware on [/api/v1/*]. *)
Definition auth_middleware (r : Request) : Eng Verdict :=
  if is_health r then ret (Next None)
  else if negb (authorised (req_auth r)) then
    ret (Reply 401 "UNAUTHENTICATED" "Missing or invalid API key")
  else
    failing <- shouldFailNext ;;
    if failing then
      failure <- consumeFailure ;;
      match failure with
      | Some f =>
          ret (Reply (failure_status f) (failure_code f) (failure_message f))
      | None => throw
      end
    else
      latency <- getLatency ;;
      ret (Next (if latency >? 0 then Some latency else None)).

(** What arrives at the server: a request under [/api/v1], with what its
    handler does to the engine once the gate has let it through, or a run
    of the engine of its own (the wake-up of a driver). *)
Inductive Arrival :=
| Req (r : Request) (handler : list Op)
| Engine (o : Op).

Definition arrive (a : Arrival) (w : World) : option (Completion Verdict) * World :=
  match a with
  | Engine o => (None, step o w)
  | Req r handler =>
      match auth_middleware r w with
      | (Normal (Next d), w') => (Some (Normal (Next d)), run handler w')
      | (v, w') => (Some v, w')
      end
  end.

(** The answers of the gate to the requests, in order, and the world left. *)
Fixpoint serve (l : list Arrival) (w : World)
  : list (Completion Verdict) * World :=
  match l with
  | [] => ([], w)
  | a :: l' =>
      let '(v, w') := arrive a w in
      let '(vs, w'') := serve l' w' in
      (match v with Some v => v :: vs | None => vs end, w'')
  end.

(** The configured failure and latency. *)
Definition controls (w : World) : option MockFailure * Z :=
  (nextFailure (ms w), latencyMs (ms w)).

Definition keeps_controls {A : Type} (m : Eng A) : Prop :=
  forall w, controls (snd (m w)) = controls w.

(** The answer of the gate when no failure is configured. *)
Definition plain (latency : Z) (r : Request) : Verdict :=
  if is_health r then Next None
  else if negb (authorised (req_auth r)) then
    Reply 401 "UNAUTHENTICATED" "Missing or invalid API key"
  else Next (if latency >? 0 then Some latency else None).

(** A request the gate answers without looking at the controls. *)
Definition exempt (a : Arrival) : Prop :=
  match a with
  | Req r _ => is_health r = true \/ authorised (req_auth r) = false
  | Engine _ => True
  end.

Fixpoint requests (l : list Arrival) : list Request :=
  match l with
  | [] => []
  | Req r _ :: l' => r :: requests l'
  | Engine _ :: l' => requests l'
  end.

Definition clear_failure (w : World) : World :=
  {| ms := set_nextFailure None (ms w); trace := trace w |}.

(** ** The client side of a stream *)

(** [RestTransport.stream] of the SDK reads the body of a watch request by
    chunks.  [JSON.parse] is the parameter [parse]: [None] is a throw. *)

Definition newline : ascii := "010"%char.

(** [s.split('\n')]. *)
Fixpoint split_lines (s : string) : list string :=
  match s with
  | EmptyString => [EmptyString]
  | String c s' =>
      if Ascii.eqb c newline then EmptyString :: split_lines s'
      else
        match split_lines s' with
        | l :: ls => String c l :: ls
        | [] => [String c EmptyString]
        end
  end.

(** [s.slice(n)]. *)
Fixpoint drop (n : nat) (s : string) : string :=
  match n, s with
  | S n', String _ s' => drop n' s'
  | _, _ => s
  end.

(** How the generator ends: at the marker, at the end of the body, or by
    the throw of [JSON.parse]. *)
Inductive Ending := AtMarker | AtEnd | ParseThrew.

Section Stream.
Context {T : Type} (parse : string -> option T).

(** The [for] loop over the lines: what it yields, and the ending when the
    generator ends in it. *)
Fixpoint read_lines (lines : list string) : list T * option Ending :=
  match lines with
  | [] => ([], None)
  | line :: rest =>
      if String.prefix "data: " line then
        let data := drop 6 line in
        if String.eqb data "[DONE]" then ([], Some AtMarker)
        else
          match parse data with
          | Some v => let '(ys, e) := read_lines rest in (v :: ys, e)
          | None => ([], Some ParseThrew)
          end
      else read_lines rest
  end.

(** The [while] loop, one chunk for each [reader.read()] that is not
    [done]. *)
Fixpoint stream_loop (chunks : list string) (buffer : string)
  : list T * Ending :=
  match chunks with
  | [] => ([], AtEnd)
  | value :: chunks' =>
      let buffer := String.append buffer value in
      let lines := split_lines buffer in
      let buffer := last lines EmptyString in
      let lines := removelast lines in
      match read_lines lines with
      | (ys, Some e) => (ys, e)
      | (ys, None) =>
          let '(zs, e) := stream_loop chunks' buffer in (ys ++ zs, e)
      end
  end.

(** The generator on the complete lines of a text read at once. *)
Definition read_text (s : string) : list T * Ending :=
  match read_lines (removelast (split_lines s)) with
  | (ys, Some e) => (ys, e)
  | (ys, None) => (ys, AtEnd)
  end.

(** What the generator gives for the payloads of a sequence of frames. *)
Fixpoint decode (payloads : list string) : list T * Ending :=
  match payloads with
  | [] => ([], AtEnd)
  | d :: rest =>
      if String.eqb d "[DONE]" then ([], AtMarker)
      else
        match parse d with
        | Some v => let '(ys, e) := decode rest in (v :: ys, e)
        | None => ([], ParseThrew)
        end
  end.

End Stream.

(** The body that was sent. *)
Definition text_of (chunks : list string) : string :=
  fold_right String.append EmptyString chunks.

Fixpoint no_newline (s : string) : bool :=
  match s with
  | EmptyString => true
  | String c s' => negb (Ascii.eqb c newline) && no_newline s'
  end.

(** A server-sent event with the payload [d]. *)
Definition sse_frame (d : string) : string :=
  String.append "data: "
    (String.append d (String newline (String newline EmptyString))).

(** ** The list request of the SDK *)

(** The filters [IntentService.list] of the SDK takes, as far as the
    server reads them: [after], [before], [agentId] and [label] are sent
    and ignored by the handler. *)
Record SdkListFilters := {
  sdk_limit : option JsNum;
  sdk_cursor : option string;
  sdk_states : option (list ExecutionState)
}.

(** A number that is [NaN] or an integer a binary64 holds exactly, which
    [toString] writes with all its digits. *)
Definition safe_integer (a : JsNum) : Prop :=
  match a with
  | Int z => Z.abs z <= 2 ^ 53
  | NaN => True
  end.

(** A number in a condition: 0 and [NaN] are falsy. *)
Definition num_truthy (a : JsNum) : bool :=
  match a with
  | Int z => negb (z =? 0)
  | NaN => false
  end.

(** The query parameters [limit], [cursor] and [states] the SDK sets.  What
    [URLSearchParams] encodes the server decodes. *)
Definition list_params (filters : SdkListFilters)
  : option string * option string * option string :=
  (match sdk_limit filters with
   | Some l => if num_truthy l then Some (num_to_string l) else None
   | None => None
   end,
   match sdk_cursor filters with
   | Some (String c s) => Some (String c s)
   | _ => None
   end,
   match sdk_states filters with
   | Some (st :: sts) => Some (String.concat "," (map state_name (st :: sts)))
   | _ => None
   end).

(** [IntentService.list] against the mock server. *)
Definition sdk_list (filters : SdkListFilters) (s : MockState) : ListResponse :=
  let '(q_limit, q_cursor, q_states) := list_params filters in
  list_handler q_limit q_cursor q_states s.

(** The body the list handler makes of a page. *)
Definition to_response (r : ListResult) : ListResponse :=
  {| resp_intents := map summary (r_intents r);
     resp_nextCursor := r_nextCursor r;
     totalCount := List.length (r_intents r) |}.

Fixpoint no_comma (s : string) : bool :=
  match s with
  | EmptyString => true
  | String c s' => negb (Ascii.eqb c ","%char) && no_comma s'
  end.

(** ** The states the engine assigns *)

(** No stored intent is in RETRYING. *)
Definition none_retrying (w : World) : Prop :=
  Forall (fun kv => state (snd kv) <> RETRYING) (intents (ms w)).

Definition keeps_off_retrying {A : Type} (m : Eng A) : Prop :=
  forall w, none_retrying w -> none_retrying (snd (m w)).

(** A wake-up of a driver is suspended before stages of the list [stages]. *)
Definition real_stages (o : Op) : Prop :=
  match o with
  | OpResume _ k _ _ => incl k stages
  | _ => True
  end.

(* ================================================================== *)
(** * Facts *)

(** ** Maps and sets *)

Section MapFacts.
Context {V : Type}.
Implicit Types (m : JsMap.t V) (k : string) (v : V).

Lemma get_set_same k v m : JsMap.get k (JsMap.set k v m) = Some v.
Proof.
  induction m as [|[k' v'] m IH]; simpl.
  - now rewrite String.eqb_refl.
  - destruct (String.eqb k k') eqn:E; simpl.
    + now rewrite String.eqb_refl.
    + now rewrite E.
Qed.

Lemma get_set_other k k' v m :
  k' <> k -> JsMap.get k' (JsMap.set k v m) = JsMap.get k' m.
Proof.
  intros Hne. induction m as [|[k0 v0] m IH]; simpl.
  - apply String.eqb_neq in Hne. now rewrite Hne.
  - destruct (String.eqb k k0) eqn:E; simpl.
    + apply String.eqb_eq in E. subst k0.
      apply String.eqb_neq in Hne. now rewrite Hne.
    + now rewrite IH.
Qed.

End MapFacts.

Lemma state_eqb_eq a b : state_eqb a b = true <-> a = b.
Proof. destruct a, b; simpl; split; congruence. Qed.

Lemma state_eqb_refl a : state_eqb a a = true.
Proof. now apply state_eqb_eq. Qed.

Lemma state_eqb_neq a b : state_eqb a b = false <-> a <> b.
Proof.
  split.
  - intros H E. apply state_eqb_eq in E. congruence.
  - intros H. destruct (state_eqb a b) eqn:E; [|reflexivity].
    apply state_eqb_eq in E. contradiction.
Qed.

Lemma state_of_name_name s : state_of_name (state_name s) = Some s.
Proof. destruct s; reflexivity. Qed.

Lemma last_event_push es e : last_event (es ++ [e]) = Some e.
Proof. unfold last_event. now rewrite rev_app_distr. Qed.

(** ** The history *)

Lemma state_writes_app id tr1 tr2 :
  state_writes id (tr1 ++ tr2) = state_writes id tr1 ++ state_writes id tr2.
Proof.
  induction tr1 as [|a tr1 IH]; simpl; [reflexivity|].
  destruct a; simpl; auto.
  destruct (String.eqb id id0); simpl; now rewrite IH.
Qed.

Lemma calls_app tr1 tr2 : calls (tr1 ++ tr2) = calls tr1 ++ calls tr2.
Proof.
  induction tr1 as [|a tr1 IH]; simpl; [reflexivity|].
  destruct a; simpl; now rewrite ?IH.
Qed.

Lemma stream_app conn tr1 tr2 :
  stream conn (tr1 ++ tr2) = stream conn tr1 ++ stream conn tr2.
Proof.
  induction tr1 as [|a tr1 IH]; simpl; [reflexivity|].
  destruct a; simpl; auto.
  destruct (Nat.eqb conn conn0); simpl; now rewrite IH.
Qed.

Lemma state_writes_sse id (out : list (nat * SseMsg)) :
  state_writes id (map (fun o => SseWrite (fst o) (snd o)) out) = [].
Proof. induction out; simpl; auto. Qed.

Lemma calls_sse (out : list (nat * SseMsg)) :
  calls (map (fun o => SseWrite (fst o) (snd o)) out) = [].
Proof. induction out; simpl; auto. Qed.

(** Callbacks write no state. *)
Lemma state_writes_deliver id cbs ev : state_writes id (fst (deliver cbs ev)) = [].
Proof.
  induction cbs as [|cb cbs IH]; simpl; [reflexivity|].
  destruct (snd (cb_run cb ev)); simpl.
  - apply state_writes_sse.
  - now rewrite state_writes_app, state_writes_sse, IH.
Qed.

(** The calls made are those of the callbacks reached, in their order. *)
Lemma calls_deliver cbs ev :
  calls (fst (deliver cbs ev)) = map (fun cb => (cb_key cb, ev)) (reached cbs ev).
Proof.
  induction cbs as [|cb cbs IH]; simpl; [reflexivity|].
  destruct (snd (cb_run cb ev)); simpl.
  - now rewrite calls_sse.
  - now rewrite calls_app, calls_sse, IH.
Qed.

Lemma deliver_quiet cbs ev :
  Forall never_throws cbs -> snd (deliver cbs ev) = false /\ reached cbs ev = cbs.
Proof.
  induction 1 as [|cb cbs Hcb _ IH]; simpl; [auto|].
  rewrite (Hcb ev). simpl. destruct IH as [-> ->]. auto.
Qed.

(** ** The primitives of the monad *)

Lemma forEach_deliver cbs ev w :
  forEach cbs ev w =
    (if snd (deliver cbs ev) then Throw else Normal tt,
     add_trace (fst (deliver cbs ev)) w).
Proof.
  revert w. induction cbs as [|cb cbs IH]; intros [s tr]; simpl.
  - unfold ret, add_trace. simpl. now rewrite app_nil_r.
  - unfold bind, call. destruct (cb_run cb ev) as [out threw]. simpl.
    unfold bind, emit. simpl. destruct threw; simpl.
    + reflexivity.
    + rewrite IH. unfold add_trace. simpl. now rewrite <- app_assoc.
Qed.

Lemma notifyWatchers_deliver id ev w :
  notifyWatchers id ev w =
    (if snd (deliver (watchers_of id w) ev) then Throw else Normal tt,
     add_trace (fst (deliver (watchers_of id w) ev)) w).
Proof.
  unfold notifyWatchers, bind, gets, watchers_of.
  destruct (JsMap.get id (intentWatchers (ms w))) as [cbs|].
  - apply forEach_deliver.
  - destruct w as [s tr]. unfold ret, add_trace. simpl. now rewrite app_nil_r.
Qed.

Lemma bind_apply {A B : Type} (m : Eng A) (k : A -> Eng B) w :
  bind m k w =
    match m w with
    | (Normal a, w') => k a w'
    | (Throw, w') => (Throw, w')
    end.
Proof. reflexivity. Qed.

Lemma ret_apply {A : Type} (a : A) w : ret a w = (Normal a, w).
Proof. reflexivity. Qed.

Lemma getIntent_apply id w : getIntent id w = (Normal (lookup id w), w).
Proof. reflexivity. Qed.

Lemma emit_apply acts w : emit acts w = (Normal tt, add_trace acts w).
Proof. reflexivity. Qed.

Lemma mutate_present id f r w :
  lookup id w = Some r -> mutate id f w = (Normal tt, upd id (f r) w).
Proof.
  unfold lookup, mutate, modify, upd, set_intents. intros H.
  now rewrite H.
Qed.

Lemma lookup_upd_same id r w : lookup id (upd id r w) = Some r.
Proof. unfold lookup, upd. simpl. apply get_set_same. Qed.

Lemma lookup_upd_other id id' r w :
  id' <> id -> lookup id' (upd id r w) = lookup id' w.
Proof. unfold lookup, upd. simpl. apply get_set_other. Qed.

Lemma set_set {V : Type} k (v v' : V) m :
  JsMap.set k v' (JsMap.set k v m) = JsMap.set k v' m.
Proof.
  induction m as [|[k0 v0] m IH]; simpl.
  - now rewrite String.eqb_refl.
  - destruct (String.eqb k k0) eqn:E; simpl.
    + now rewrite String.eqb_refl.
    + now rewrite E, IH.
Qed.

Lemma upd_upd id r r' w : upd id r' (upd id r w) = upd id r' w.
Proof. unfold upd, set_intents. simpl. now rewrite set_set. Qed.

Lemma upd_add_trace id r acts w :
  upd id r (add_trace acts w) = add_trace acts (upd id r w).
Proof. reflexivity. Qed.

Lemma add_trace_add_trace a b w :
  add_trace b (add_trace a w) = add_trace (a ++ b) w.
Proof. unfold add_trace. simpl. now rewrite app_assoc. Qed.

Lemma lookup_add_trace id acts w : lookup id (add_trace acts w) = lookup id w.
Proof. reflexivity. Qed.

Lemma watchers_upd id id' r w : watchers_of id' (upd id r w) = watchers_of id' w.
Proof. reflexivity. Qed.

Lemma watchers_add_trace id acts w :
  watchers_of id (add_trace acts w) = watchers_of id w.
Proof. reflexivity. Qed.

Lemma notify_last_apply id s now r w :
  lookup id w = Some r ->
  notify_last id s now w =
    (if snd (deliver (watchers_of id w) (notice id r s now)) then Throw
     else Normal tt,
     add_trace (fst (deliver (watchers_of id w) (notice id r s now))) w).
Proof.
  intros H. unfold notify_last.
  rewrite bind_apply, getIntent_apply. cbv beta iota.
  rewrite H. apply notifyWatchers_deliver.
Qed.

(** One mutation after another of the same stored record. *)
Ltac mutate_next :=
  rewrite bind_apply;
  erewrite mutate_present
    by (rewrite ?upd_add_trace, ?lookup_add_trace; first [eassumption | apply lookup_upd_same]);
  cbv beta iota; rewrite ?upd_add_trace, ?upd_upd.

Ltac emit_next := rewrite bind_apply, emit_apply; cbv beta iota.

(** The tail of a transition: the notification, then the value returned. *)
Lemma notify_then {A : Type} (a : A) id r s now w :
  (notify_last id s now ;;; ret a) (add_trace [StateWrite id s] (upd id r w)) =
    (if transition_throws id r s now w then Throw else Normal a,
     transition id r s now w).
Proof.
  rewrite bind_apply.
  rewrite (notify_last_apply id s now r)
    by (rewrite lookup_add_trace; apply lookup_upd_same).
  rewrite watchers_add_trace, watchers_upd, add_trace_add_trace.
  unfold transition_throws, transition. simpl.
  destruct (snd (deliver (watchers_of id w) (notice id r s now))); reflexivity.
Qed.

Lemma stage_body_advance id stage rnd now r w :
  lookup id w = Some r ->
  state r <> CANCELLED ->
  injected stage rnd = false ->
  stage_body id stage rnd now w =
    (if transition_throws id (advanced stage now r) (stage_state stage) now w
     then Throw else Normal true,
     transition id (advanced stage now r) (stage_state stage) now w).
Proof.
  intros H Hc Hi. unfold stage_body.
  rewrite bind_apply, getIntent_apply. cbv beta iota. rewrite H.
  apply state_eqb_neq in Hc. rewrite Hc, Hi.
  mutate_next. emit_next. mutate_next.
  apply notify_then.
Qed.

Lemma stage_body_fail id stage rnd now r w :
  lookup id w = Some r ->
  state r <> CANCELLED ->
  injected stage rnd = true ->
  stage_body id stage rnd now w =
    (if transition_throws id (failed stage now r) FAILED now w
     then Throw else Normal false,
     transition id (failed stage now r) FAILED now w).
Proof.
  intros H Hc Hi. unfold stage_body.
  rewrite bind_apply, getIntent_apply. cbv beta iota. rewrite H.
  apply state_eqb_neq in Hc. rewrite Hc, Hi.
  mutate_next. emit_next. mutate_next. mutate_next.
  apply notify_then.
Qed.

Lemma stage_body_cancelled id stage rnd now r w :
  lookup id w = Some r ->
  state r = CANCELLED ->
  stage_body id stage rnd now w = (Normal false, w).
Proof.
  intros H Hc. unfold stage_body.
  rewrite bind_apply, getIntent_apply. cbv beta iota. rewrite H, Hc.
  reflexivity.
Qed.

Lemma stage_body_absent id stage rnd now w :
  lookup id w = None -> stage_body id stage rnd now w = (Normal false, w).
Proof.
  intros H. unfold stage_body.
  rewrite bind_apply, getIntent_apply. cbv beta iota. now rewrite H.
Qed.

Lemma complete_live id now r w :
  lookup id w = Some r ->
  state r <> CANCELLED ->
  complete id now w =
    (if transition_throws id (completed id now r) COMPLETED now w
     then Throw else Normal tt,
     transition id (completed id now r) COMPLETED now w).
Proof.
  intros H Hc. unfold complete.
  rewrite bind_apply, getIntent_apply. cbv beta iota. rewrite H.
  apply state_eqb_neq in Hc. rewrite Hc.
  mutate_next. emit_next. mutate_next. mutate_next. mutate_next.
  rewrite (notify_last_apply id COMPLETED now (completed id now r))
    by (rewrite lookup_add_trace; apply lookup_upd_same).
  rewrite watchers_add_trace, watchers_upd, add_trace_add_trace.
  reflexivity.
Qed.

Lemma cancelIntent_live id now r w :
  lookup id w = Some r ->
  state r <> COMPLETED ->
  state r <> FAILED ->
  cancelIntent id now w =
    (if transition_throws id (cancelled_record now r) CANCELLED now w
     then Throw else Normal (Some (cancelled_record now r)),
     transition id (cancelled_record now r) CANCELLED now w).
Proof.
  intros H Hc Hf. unfold cancelIntent.
  rewrite bind_apply, getIntent_apply. cbv beta iota. rewrite H.
  apply state_eqb_neq in Hc, Hf. rewrite Hc, Hf.
  change (false || false) with false. cbv beta iota.
  mutate_next. emit_next. mutate_next. mutate_next.
  rewrite bind_apply.
  rewrite (notify_last_apply id CANCELLED now (cancelled_record now r))
    by (rewrite lookup_add_trace; apply lookup_upd_same).
  rewrite watchers_add_trace, watchers_upd, add_trace_add_trace.
  unfold transition_throws.
  destruct (snd (deliver (watchers_of id w) (notice id (cancelled_record now r) CANCELLED now))).
  - reflexivity.
  - cbv beta iota. rewrite getIntent_apply.
    unfold transition. rewrite lookup_add_trace, lookup_upd_same. reflexivity.
Qed.

Lemma cancelIntent_done id now r w :
  lookup id w = Some r ->
  state r = COMPLETED \/ state r = FAILED ->
  cancelIntent id now w = (Normal (Some r), w).
Proof.
  intros H Hs. unfold cancelIntent.
  rewrite bind_apply, getIntent_apply. cbv beta iota. rewrite H.
  destruct Hs as [-> | ->]; reflexivity.
Qed.

Lemma cancelIntent_absent id now w :
  lookup id w = None -> cancelIntent id now w = (Normal None, w).
Proof.
  intros H. unfold cancelIntent.
  rewrite bind_apply, getIntent_apply. cbv beta iota. now rewrite H.
Qed.

(** ** What a transition leaves *)

Lemma lookup_transition_same id r s now w :
  lookup id (transition id r s now w) = Some r.
Proof. unfold transition. rewrite lookup_add_trace. apply lookup_upd_same. Qed.

Lemma lookup_transition_other id id' r s now w :
  id' <> id -> lookup id' (transition id r s now w) = lookup id' w.
Proof.
  intros H. unfold transition. rewrite lookup_add_trace.
  now apply lookup_upd_other.
Qed.

Lemma watchers_transition id id' r s now w :
  watchers_of id' (transition id r s now w) = watchers_of id' w.
Proof. reflexivity. Qed.

Lemma writes_transition_same id r s now w :
  state_writes id (trace (transition id r s now w)) =
    state_writes id (trace w) ++ [s].
Proof.
  unfold transition, add_trace. simpl.
  rewrite state_writes_app. simpl. rewrite String.eqb_refl.
  now rewrite state_writes_deliver.
Qed.

Lemma writes_transition_other id id' r s now w :
  id' <> id ->
  state_writes id' (trace (transition id r s now w)) = state_writes id' (trace w).
Proof.
  intros H. unfold transition, add_trace. simpl.
  rewrite state_writes_app. simpl.
  apply String.eqb_neq in H. rewrite H.
  now rewrite state_writes_deliver, app_nil_r.
Qed.


(** ** Creation and the wake-ups of a driver *)

Lemma createIntent_apply intent fresh now w :
  createIntent intent fresh now w =
    (Normal
       ({| id := intent_key intent fresh;
           intent := with_id intent (intent_key intent fresh);
           state := PENDING;
           events := [ {| stage := "SUBMISSION"; type := "STARTED";
                          message := "Intent received"; timestamp := now |} ];
           createdAt := now; completedAt := None; outcome := None |},
        Some stages),
     add_trace [StateWrite (intent_key intent fresh) PENDING]
       (upd (intent_key intent fresh)
          {| id := intent_key intent fresh;
             intent := with_id intent (intent_key intent fresh);
             state := PENDING;
             events := [ {| stage := "SUBMISSION"; type := "STARTED";
                            message := "Intent received"; timestamp := now |} ];
             createdAt := now; completedAt := None; outcome := None |} w)).
Proof.
  unfold createIntent. cbv zeta.
  rewrite bind_apply. unfold modify at 1. cbv beta iota.
  emit_next.
  rewrite bind_apply. unfold simulateExecution.
  rewrite bind_apply, getIntent_apply. cbv beta iota.
  match goal with
  | |- context [lookup ?k ?w'] =>
      replace (lookup k w') with
        (lookup k (upd k
          {| id := intent_key intent fresh;
             intent := with_id intent (intent_key intent fresh);
             state := PENDING;
             events := [ {| stage := "SUBMISSION"; type := "STARTED";
                            message := "Intent received"; timestamp := now |} ];
             createdAt := now; completedAt := None; outcome := None |} w))
        by reflexivity
  end.
  rewrite lookup_upd_same. reflexivity.
Qed.



Lemma resume_fails id stage rest rnd now r w :
  lookup id w = Some r ->
  state r <> CANCELLED ->
  injected stage rnd = true ->
  resume id (stage :: rest) rnd now w =
    (if transition_throws id (failed stage now r) FAILED now w
     then Throw else Normal None,
     transition id (failed stage now r) FAILED now w).
Proof.
  intros H Hc Hi. unfold resume.
  rewrite bind_apply, (stage_body_fail _ _ _ _ r) by assumption.
  destruct (transition_throws _ _ _ _ _); reflexivity.
Qed.

Lemma resume_absent id k rnd now w :
  lookup id w = None -> resume id k rnd now w = (Normal None, w).
Proof.
  intros H. destruct k as [|stage rest]; [reflexivity|].
  unfold resume. now rewrite bind_apply, stage_body_absent by assumption.
Qed.

(** ** Operations that leave an intent alone *)

Lemma undisturbed_refl id w : undisturbed id w w.
Proof. split; auto. Qed.

Lemma undisturbed_trans id w1 w2 w3 :
  undisturbed id w1 w2 -> undisturbed id w2 w3 -> undisturbed id w1 w3.
Proof.
  intros [L1 W1 Q1] [L2 W2 Q2]. split.
  - now rewrite L2.
  - now rewrite W2.
  - auto.
Qed.

Lemma undisturbed_transition id id' r s now w :
  id' <> id -> undisturbed id w (transition id' r s now w).
Proof.
  intros H. split.
  - apply lookup_transition_other. congruence.
  - apply writes_transition_other. congruence.
  - now rewrite watchers_transition.
Qed.

Lemma leaves_alone_ret {A : Type} id (a : A) : leaves_alone id (ret a).
Proof. intros w. apply undisturbed_refl. Qed.

Lemma leaves_alone_bind {A B : Type} id (m : Eng A) (k : A -> Eng B) :
  leaves_alone id m -> (forall a, leaves_alone id (k a)) ->
  leaves_alone id (bind m k).
Proof.
  intros Hm Hk w. unfold bind. specialize (Hm w).
  destruct (m w) as [[a|] w']; simpl in *.
  - eapply undisturbed_trans; [exact Hm | apply Hk].
  - exact Hm.
Qed.

Lemma leaves_alone_stage_body id id' stage rnd now :
  id' <> id -> leaves_alone id (stage_body id' stage rnd now).
Proof.
  intros Hne w.
  destruct (lookup id' w) as [r|] eqn:L.
  - destruct (state_eqb (state r) CANCELLED) eqn:C.
    + apply state_eqb_eq in C.
      rewrite (stage_body_cancelled _ _ _ _ r) by assumption.
      apply undisturbed_refl.
    + apply state_eqb_neq in C. destruct (injected stage rnd) eqn:I.
      * rewrite (stage_body_fail _ _ _ _ r) by assumption.
        now apply undisturbed_transition.
      * rewrite (stage_body_advance _ _ _ _ r) by assumption.
        now apply undisturbed_transition.
  - rewrite stage_body_absent by assumption. apply undisturbed_refl.
Qed.

Lemma leaves_alone_complete id id' now :
  id' <> id -> leaves_alone id (complete id' now).
Proof.
  intros Hne w.
  destruct (lookup id' w) as [r|] eqn:L.
  - destruct (state_eqb (state r) CANCELLED) eqn:C.
    + unfold complete. rewrite bind_apply, getIntent_apply. cbv beta iota.
      rewrite L, C. apply undisturbed_refl.
    + apply state_eqb_neq in C.
      rewrite (complete_live _ _ r) by assumption.
      now apply undisturbed_transition.
  - unfold complete. rewrite bind_apply, getIntent_apply. cbv beta iota.
    rewrite L. apply undisturbed_refl.
Qed.

Lemma leaves_alone_resume id id' k rnd now :
  id' <> id -> leaves_alone id (resume id' k rnd now).
Proof.
  intros Hne. destruct k as [|stage rest]; [apply leaves_alone_ret|].
  unfold resume. apply leaves_alone_bind.
  - now apply leaves_alone_stage_body.
  - intros [|]; [|apply leaves_alone_ret].
    destruct rest; [|apply leaves_alone_ret].
    apply leaves_alone_bind; [now apply leaves_alone_complete|].
    intros _. apply leaves_alone_ret.
Qed.

Lemma leaves_alone_cancelIntent id id' now :
  id' <> id -> leaves_alone id (cancelIntent id' now).
Proof.
  intros Hne w.
  destruct (lookup id' w) as [r|] eqn:L.
  - destruct (state_eqb (state r) COMPLETED) eqn:C.
    + apply state_eqb_eq in C.
      rewrite (cancelIntent_done _ _ r) by auto. apply undisturbed_refl.
    + destruct (state_eqb (state r) FAILED) eqn:F.
      * apply state_eqb_eq in F.
        rewrite (cancelIntent_done _ _ r) by auto. apply undisturbed_refl.
      * apply state_eqb_neq in C, F.
        rewrite (cancelIntent_live _ _ r) by assumption.
        now apply undisturbed_transition.
  - rewrite cancelIntent_absent by assumption. apply undisturbed_refl.
Qed.

Lemma leaves_alone_createIntent id intent fresh now :
  intent_key intent fresh <> id -> leaves_alone id (createIntent intent fresh now).
Proof.
  intros Hne w. rewrite createIntent_apply. simpl snd. split.
  - rewrite lookup_add_trace. apply lookup_upd_other. congruence.
  - unfold add_trace. simpl. rewrite state_writes_app. simpl.
    assert (E : String.eqb id (intent_key intent fresh) = false)
      by (apply String.eqb_neq; congruence).
    rewrite E. now rewrite app_nil_r.
  - auto.
Qed.

(** *** Watchers *)

Lemma set_add_Forall (P : Callback -> Prop) cb s :
  P cb -> Forall P s -> Forall P (set_add cb s).
Proof.
  intros Hcb. induction 1 as [|c s Hc Hs IH]; simpl.
  - auto.
  - destruct (cb_eqb cb c); auto.
Qed.

Lemma set_delete_Forall (P : Callback -> Prop) cb s :
  Forall P s -> Forall P (set_delete cb s).
Proof.
  unfold set_delete. induction 1 as [|c s Hc Hs IH]; simpl; [auto|].
  destruct (negb (cb_eqb cb c)); auto.
Qed.

Lemma watchIntent_apply id cb w :
  watchIntent id cb w =
    (Normal tt,
     {| ms := set_watchers (JsMap.set id (set_add cb (watchers_of id w))) (ms w);
        trace := trace w |}).
Proof.
  unfold watchIntent, watchers_of.
  rewrite bind_apply. unfold gets at 1. cbv beta iota.
  unfold JsMap.has.
  destruct (JsMap.get id (intentWatchers (ms w))) as [s|] eqn:G.
  - rewrite bind_apply, ret_apply. cbv beta iota.
    unfold modify, set_watchers. simpl. now rewrite G.
  - rewrite bind_apply. unfold modify, set_watchers. simpl.
    now rewrite get_set_same, set_set.
Qed.

Lemma watchers_watchIntent id id' cb w :
  watchers_of id' (snd (watchIntent id cb w)) =
    if String.eqb id' id then set_add cb (watchers_of id w) else watchers_of id' w.
Proof.
  rewrite watchIntent_apply. unfold watchers_of at 1. simpl.
  destruct (String.eqb id' id) eqn:E.
  - apply String.eqb_eq in E. subst. now rewrite get_set_same.
  - apply String.eqb_neq in E. now rewrite get_set_other.
Qed.

Lemma watchers_unsubscribe id id' cb w :
  watchers_of id' (snd (unsubscribe id cb w)) =
    if String.eqb id' id then set_delete cb (watchers_of id w)
    else watchers_of id' w.
Proof.
  unfold unsubscribe, modify, watchers_of, set_watchers. simpl.
  destruct (JsMap.get id (intentWatchers (ms w))) as [s|] eqn:G.
  - destruct (String.eqb id' id) eqn:E.
    + apply String.eqb_eq in E. subst. now rewrite get_set_same.
    + apply String.eqb_neq in E. now rewrite get_set_other.
  - destruct (String.eqb id' id) eqn:E; [|reflexivity].
    apply String.eqb_eq in E. subst. now rewrite G.
Qed.

Lemma leaves_alone_watchIntent id id' cb :
  id' <> id \/ never_throws cb -> leaves_alone id (watchIntent id' cb).
Proof.
  intros H w. split.
  - now rewrite watchIntent_apply.
  - now rewrite watchIntent_apply.
  - intros Q. rewrite watchers_watchIntent.
    destruct (String.eqb id id') eqn:E; [|assumption].
    apply String.eqb_eq in E. subst id'.
    destruct H as [H|H]; [congruence|]. now apply set_add_Forall.
Qed.

Lemma leaves_alone_unsubscribe id id' cb : leaves_alone id (unsubscribe id' cb).
Proof.
  intros w. split.
  - reflexivity.
  - reflexivity.
  - intros Q. rewrite watchers_unsubscribe.
    destruct (String.eqb id id') eqn:E; [|assumption].
    apply String.eqb_eq in E. subst id'. now apply set_delete_Forall.
Qed.

Lemma sse_callback_never_throws conn : never_throws (sse_callback conn).
Proof. intros ev. reflexivity. Qed.

Lemma leaves_alone_emit_sse id conn msg : leaves_alone id (emit [SseWrite conn msg]).
Proof.
  intros w. split; auto.
  rewrite emit_apply. unfold add_trace. simpl.
  now rewrite state_writes_app, app_nil_r.
Qed.

Lemma leaves_alone_watch_handler id conn id' now :
  leaves_alone id (watch_handler conn id' now).
Proof.
  unfold watch_handler. apply leaves_alone_bind.
  - intros w. apply undisturbed_refl.
  - intros [i|]; [|apply leaves_alone_ret].
    apply leaves_alone_bind; [apply leaves_alone_emit_sse|]. intros _.
    destruct (terminal (state i)).
    + apply leaves_alone_bind; [apply leaves_alone_emit_sse|].
      intros _. apply leaves_alone_ret.
    + apply leaves_alone_bind; [|intros _; apply leaves_alone_ret].
      apply leaves_alone_watchIntent. right. apply sse_callback_never_throws.
Qed.

(** A foreign operation leaves the intent alone. *)
Lemma foreign_step id o w : foreign id o -> undisturbed id w (step o w).
Proof.
  destruct o; simpl; intros H; unfold exec.
  - now apply leaves_alone_createIntent.
  - now apply leaves_alone_resume.
  - now apply leaves_alone_cancelIntent.
  - contradiction.
  - split; auto.
  - split; auto.
  - now apply leaves_alone_watchIntent.
  - apply leaves_alone_unsubscribe.
  - apply leaves_alone_watch_handler.
  - apply leaves_alone_unsubscribe.
Qed.

Lemma foreign_run id ops :
  Forall (foreign id) ops -> forall w, undisturbed id w (run ops w).
Proof.
  induction 1 as [|o ops Ho Hops IH]; intros w; simpl.
  - apply undisturbed_refl.
  - eapply undisturbed_trans; [apply foreign_step; exact Ho | apply IH].
Qed.

(** ** The success path *)




(** ** The paused flag *)












(** ** The kill switch *)

Lemma kill_intents_spec now m acc :
  kill_intents now m acc =
    (map (fun kv => (fst kv, killed_record now (snd kv))) m,
     map (fun kv => StateWrite (fst kv) CANCELLED)
       (filter (fun kv => live (snd kv)) m),
     (acc + List.length (filter live (JsMap.values m)))%nat).
Proof.
  revert acc. induction m as [|[k i] m IH]; intros acc.
  - simpl. now rewrite Nat.add_0_r.
  - unfold JsMap.values in *. cbn [kill_intents filter map fst snd].
    assert (Hl : live i = negb (terminal (state i))) by reflexivity.
    unfold killed_record at 1. rewrite Hl.
    destruct (terminal (state i)); cbn [negb]; rewrite IH.
    + reflexivity.
    + cbn [List.length map]. f_equal. lia.
Qed.

Lemma kill_agents_spec now m acc :
  kill_agents now m acc =
    (map (fun kv => (fst kv, if agent_running (snd kv) then stop_agent now (snd kv)
                             else snd kv)) m,
     (acc + List.length (filter agent_running (JsMap.values m)))%nat).
Proof.
  revert acc. induction m as [|[k a] m IH]; intros acc.
  - simpl. now rewrite Nat.add_0_r.
  - unfold JsMap.values in *. cbn [kill_agents filter map fst snd].
    destruct (agent_running a); rewrite IH.
    + cbn [List.length]. f_equal. lia.
    + reflexivity.
Qed.

Lemma kill_apply now w :
  kill now w =
    (Normal {| executionsKilled :=
                 List.length (filter live (JsMap.values (intents (ms w))));
               agentsStopped :=
                 List.length (filter agent_running (JsMap.values (agents (ms w)))) |},
     {| ms :=
          set_agents
            (map (fun kv => (fst kv, if agent_running (snd kv)
                                     then stop_agent now (snd kv) else snd kv)))
            (set_intents
               (map (fun kv => (fst kv, killed_record now (snd kv)))) (ms w));
        trace :=
          trace w ++
          map (fun kv => StateWrite (fst kv) CANCELLED)
            (filter (fun kv => live (snd kv)) (intents (ms w))) |}).
Proof.
  unfold kill. rewrite bind_apply. unfold gets at 1. cbv beta iota.
  rewrite kill_intents_spec. cbv beta iota.
  rewrite bind_apply. unfold modify at 1. cbv beta iota.
  emit_next.
  rewrite bind_apply. unfold gets at 1. cbv beta iota.
  simpl agents. rewrite kill_agents_spec. cbv beta iota.
  rewrite bind_apply. unfold modify at 1. cbv beta iota.
  reflexivity.
Qed.

Lemma get_map_values {V : Type} (f : V -> V) k (m : JsMap.t V) :
  JsMap.get k (map (fun kv => (fst kv, f (snd kv))) m) =
    option_map f (JsMap.get k m).
Proof.
  induction m as [|[k' v] m IH]; simpl; [reflexivity|].
  destruct (String.eqb k k'); auto.
Qed.

Lemma values_map_values {V : Type} (f : V -> V) (m : JsMap.t V) :
  JsMap.values (map (fun kv => (fst kv, f (snd kv))) m) = map f (JsMap.values m).
Proof.
  unfold JsMap.values. rewrite !map_map. reflexivity.
Qed.

Lemma lookup_kill id now w :
  lookup id (exec (kill now) w) = option_map (killed_record now) (lookup id w).
Proof.
  unfold exec, lookup. rewrite kill_apply. simpl. apply get_map_values.
Qed.

Lemma values_kill now w :
  JsMap.values (intents (ms (exec (kill now) w))) =
    map (killed_record now) (JsMap.values (intents (ms w))).
Proof.
  unfold exec. rewrite kill_apply. simpl. apply values_map_values.
Qed.

Lemma calls_state_writes (m : JsMap.t StoredIntent) :
  calls (map (fun kv => StateWrite (fst kv) CANCELLED) m) = [].
Proof. induction m; simpl; auto. Qed.

Lemma stream_state_writes conn (m : JsMap.t StoredIntent) :
  stream conn (map (fun kv => StateWrite (fst kv) CANCELLED) m) = [].
Proof. induction m; simpl; auto. Qed.

Lemma calls_kill now w : calls (trace (exec (kill now) w)) = calls (trace w).
Proof.
  unfold exec. rewrite kill_apply. simpl.
  now rewrite calls_app, calls_state_writes, app_nil_r.
Qed.

Lemma stream_kill conn now w :
  stream conn (trace (exec (kill now) w)) = stream conn (trace w).
Proof.
  unfold exec. rewrite kill_apply. simpl.
  now rewrite stream_app, stream_state_writes, app_nil_r.
Qed.

Lemma killed_record_terminal now i : terminal (state (killed_record now i)) = true.
Proof.
  unfold killed_record. destruct (terminal (state i)) eqn:T; [exact T|reflexivity].
Qed.

Lemma killed_record_events now i : events (killed_record now i) = events i.
Proof. unfold killed_record. now destruct (terminal (state i)). Qed.

Lemma watch_handler_live conn id now r w :
  lookup id w = Some r ->
  terminal (state r) = false ->
  watch_handler conn id now w =
    (Normal true,
     {| ms := set_watchers
                (JsMap.set id (set_add (sse_callback conn) (watchers_of id w)))
                (ms w);
        trace := trace w ++ [SseWrite conn (Data (notice id r (state r) now))] |}).
Proof.
  intros L T. unfold watch_handler.
  rewrite bind_apply, getIntent_apply. cbv beta iota. rewrite L.
  emit_next. rewrite T.
  rewrite bind_apply, watchIntent_apply. reflexivity.
Qed.

Lemma watch_handler_terminal conn id now r w :
  lookup id w = Some r ->
  terminal (state r) = true ->
  watch_handler conn id now w =
    (Normal true,
     add_trace [SseWrite conn (Data (notice id r (state r) now));
                SseWrite conn Done] w).
Proof.
  intros L T. unfold watch_handler.
  rewrite bind_apply, getIntent_apply. cbv beta iota. rewrite L.
  emit_next. rewrite T. emit_next.
  rewrite ret_apply, add_trace_add_trace. reflexivity.
Qed.

Lemma set_add_has cb s : existsb (cb_eqb cb) (set_add cb s) = true.
Proof.
  induction s as [|c s IH]; simpl.
  - unfold cb_eqb. now rewrite Nat.eqb_refl.
  - destruct (cb_eqb cb c) eqn:Q; simpl; rewrite ?Q; auto.
Qed.

(** ** Notification *)

Lemma reached_all_or_thrower cbs ev :
  snd (deliver cbs ev) = true <->
  exists cb, In cb cbs /\ snd (cb_run cb ev) = true.
Proof.
  induction cbs as [|cb cbs IH]; simpl.
  - split; [discriminate | intros [? [[] _]]].
  - destruct (snd (cb_run cb ev)) eqn:T; simpl.
    + split; [|reflexivity]. intros _. exists cb. auto.
    + rewrite IH. split.
      * intros [c [I Hc]]. exists c. auto.
      * intros [c [[->|I] Hc]]; [congruence|]. exists c. auto.
Qed.

Lemma set_add_new cb s :
  existsb (cb_eqb cb) s = false -> set_add cb s = s ++ [cb].
Proof.
  induction s as [|c s IH]; simpl; [reflexivity|].
  destruct (cb_eqb cb c); simpl; [discriminate|].
  intros H. now rewrite IH.
Qed.

(** ** Listing *)

Lemma insert_desc_length x l :
  List.length (insert_desc x l) = S (List.length l).
Proof.
  induction l as [|y l IH]; simpl; [reflexivity|].
  destruct (createdAt x <? createdAt y); simpl; now rewrite ?IH.
Qed.

Lemma sort_desc_length l : List.length (sort_desc l) = List.length l.
Proof.
  induction l as [|x l IH]; simpl; [reflexivity|].
  now rewrite insert_desc_length, IH.
Qed.

Lemma insert_desc_In x y l : In y (insert_desc x l) <-> y = x \/ In y l.
Proof.
  induction l as [|z l IH]; simpl.
  - intuition.
  - destruct (createdAt x <? createdAt z); simpl; rewrite ?IH; intuition.
Qed.

Lemma sort_desc_In y l : In y (sort_desc l) <-> In y l.
Proof.
  induction l as [|x l IH]; simpl; [tauto|].
  rewrite insert_desc_In, IH. intuition.
Qed.

Lemma insert_desc_sorted x l :
  StronglySorted newer_or_equal l -> StronglySorted newer_or_equal (insert_desc x l).
Proof.
  induction 1 as [|y l Hl IH Hy]; simpl.
  - repeat constructor.
  - destruct (createdAt x <? createdAt y) eqn:E.
    + constructor; [exact IH|].
      apply Forall_forall. intros z Hz. apply insert_desc_In in Hz.
      destruct Hz as [->|Hz].
      * unfold newer_or_equal. apply Z.ltb_lt in E. lia.
      * rewrite Forall_forall in Hy. now apply Hy.
    + constructor; [now constructor|].
      apply Z.ltb_ge in E. constructor; [exact E|].
      eapply Forall_impl; [|exact Hy].
      unfold newer_or_equal. intros z Hz. lia.
Qed.

Lemma sort_desc_sorted l : StronglySorted newer_or_equal (sort_desc l).
Proof.
  induction l as [|x l IH]; simpl; [constructor|].
  now apply insert_desc_sorted.
Qed.

Lemma sorted_skipn {A : Type} (R : A -> A -> Prop) n l :
  StronglySorted R l -> StronglySorted R (skipn n l).
Proof.
  revert l. induction n as [|n IH]; intros l H; simpl; [exact H|].
  destruct l as [|x l]; [constructor|].
  apply IH. now inversion H.
Qed.

Lemma sorted_firstn {A : Type} (R : A -> A -> Prop) n l :
  StronglySorted R l -> StronglySorted R (firstn n l).
Proof.
  revert l. induction n as [|n IH]; intros l H; simpl; [constructor|].
  destruct l as [|x l]; [constructor|].
  inversion H as [|? ? Hl Hx]; subst. constructor; [now apply IH|].
  rewrite Forall_forall in *. intros y Hy. apply Hx.
  revert Hy. clear. revert l. induction n; intros [|z l]; simpl; try tauto.
  intros [->|H]; auto.
Qed.

Lemma js_slice_length {A : Type} (l : list A) (a b : JsNum) :
  Z.of_nat (List.length (js_slice l a b)) =
    Z.max 0
      (clamp_index (Z.of_nat (List.length l)) (to_integer b)
       - clamp_index (Z.of_nat (List.length l)) (to_integer a)).
Proof.
  unfold js_slice. rewrite length_firstn, length_skipn.
  unfold clamp_index.
  destruct (to_integer a <? 0) eqn:Ea; destruct (to_integer b <? 0) eqn:Eb;
    lia.
Qed.

(** From a start that is not negative, a longer list gives a page that is
    not shorter. *)
Lemma js_slice_monotone {A B : Type} (l : list A) (l' : list B) (a b : JsNum) :
  0 <= to_integer a ->
  (List.length l <= List.length l')%nat ->
  (List.length (js_slice l a b) <= List.length (js_slice l' a b))%nat.
Proof.
  intros Ha Hl.
  apply Nat2Z.inj_le. rewrite !js_slice_length. unfold clamp_index.
  destruct (to_integer a <? 0) eqn:Ea; [lia|].
  destruct (to_integer b <? 0) eqn:Eb; lia.
Qed.

Lemma js_slice_same_length {A B : Type} (l : list A) (l' : list B) (a b : JsNum) :
  List.length l = List.length l' ->
  List.length (js_slice l a b) = List.length (js_slice l' a b).
Proof.
  intros Hl. apply Nat2Z.inj. rewrite !js_slice_length. now rewrite Hl.
Qed.

Lemma filter_map_length {A : Type} (p : A -> bool) (f : A -> A) l :
  (forall x, p x = true -> p (f x) = true) ->
  (List.length (filter p l) <= List.length (filter p (map f l)))%nat.
Proof.
  intros H. induction l as [|x l IH]; simpl; [lia|].
  destruct (p x) eqn:P.
  - rewrite (H x P). simpl. lia.
  - destruct (p (f x)); simpl; lia.
Qed.

Lemma killed_record_state now i :
  state (killed_record now i) = state i \/ state (killed_record now i) = CANCELLED.
Proof. unfold killed_record. destruct (terminal (state i)); auto. Qed.

Lemma matching_length_unfiltered filters now w :
  f_states filters = None \/ f_states filters = Some [] ->
  List.length (matching filters (ms (exec (kill now) w))) =
    List.length (matching filters (ms w)).
Proof.
  intros H. unfold matching. rewrite values_kill.
  destruct H as [-> | ->]; now rewrite !sort_desc_length, length_map.
Qed.

Lemma matching_length_cancelled filters now w :
  (forall sts, f_states filters = Some sts -> sts <> [] -> In "CANCELLED" sts) ->
  (List.length (matching filters (ms w)) <=
   List.length (matching filters (ms (exec (kill now) w))))%nat.
Proof.
  intros H. unfold matching. rewrite values_kill, !sort_desc_length.
  destruct (f_states filters) as [[|st sts]|] eqn:F;
    try (rewrite length_map; lia).
  apply filter_map_length. intros i Hi.
  destruct (killed_record_state now i) as [-> | ->]; [exact Hi|].
  apply existsb_exists. exists "CANCELLED". split; [|reflexivity].
  apply (H (st :: sts)); [reflexivity | discriminate].
Qed.

Lemma killed_not_pending now i : state_eqb (state (killed_record now i)) PENDING = false.
Proof.
  pose proof (killed_record_terminal now i) as T.
  destruct (state (killed_record now i)); try reflexivity; discriminate T.
Qed.

Lemma killed_not_executing now i : is_executing (state (killed_record now i)) = false.
Proof.
  pose proof (killed_record_terminal now i) as T.
  destruct (state (killed_record now i)); try reflexivity; discriminate T.
Qed.

Lemma filter_map_none {A : Type} (p : A -> bool) (f : A -> A) l :
  (forall x, p (f x) = false) -> filter p (map f l) = [].
Proof.
  intros H. induction l as [|x l IH]; simpl; [reflexivity|]. now rewrite H.
Qed.

(** ** The page of a list query *)

Lemma firstn_min_length {A : Type} n (l : list A) :
  firstn (Nat.min n (List.length l)) l = firstn n l.
Proof. now rewrite <- firstn_firstn, firstn_all. Qed.

Lemma js_slice_page {A : Type} (l : list A) (start limit : Z) :
  0 <= start -> 0 <= limit ->
  js_slice l (Int start) (Int (start + limit)) =
    firstn (Z.to_nat limit) (skipn (Z.to_nat start) l).
Proof.
  intros Hs Hl. unfold js_slice, clamp_index, to_integer.
  destruct (start <? 0) eqn:E1; [lia|].
  destruct (start + limit <? 0) eqn:E2; [lia|].
  destruct (Z.le_gt_cases (Z.of_nat (List.length l)) start) as [Hlen|Hlen].
  - rewrite !skipn_all2 by lia. now rewrite !firstn_nil.
  - replace (Z.to_nat (Z.min start (Z.of_nat (List.length l))))
      with (Z.to_nat start) by lia.
    rewrite <- (firstn_min_length (Z.to_nat limit)).
    f_equal. rewrite length_skipn. lia.
Qed.

Lemma skipn_nil_iff {A : Type} n (l : list A) :
  skipn n l = [] <-> (List.length l <= n)%nat.
Proof.
  split.
  - intros H. pose proof (length_skipn n l) as E. rewrite H in E. simpl in E. lia.
  - apply skipn_all2.
Qed.

Lemma matching_In filters s i :
  In i (matching filters s) <->
  In i (JsMap.values (intents s)) /\ passes filters i = true.
Proof.
  unfold matching, passes. rewrite sort_desc_In.
  destruct (f_states filters) as [[|st sts]|]; rewrite ?filter_In; tauto.
Qed.

(** ** The event log and the state *)

Lemma last_cons {A : Type} (a d : A) l : last (a :: l) d = last l a.
Proof.
  revert a d. induction l as [|b l IH]; intros a d; [reflexivity|].
  change (last (a :: b :: l) d) with (last (b :: l) d).
  now rewrite !IH.
Qed.

Lemma last_app {A : Type} (l1 l2 : list A) d :
  last (l1 ++ l2) d = last l2 (last l1 d).
Proof.
  revert d. induction l1 as [|a l1 IH]; intros d; [reflexivity|].
  rewrite <- app_comm_cons, !last_cons. apply IH.
Qed.

Lemma logged_refl id w : logged id w w.
Proof.
  intros r L. exists r, [], []. now rewrite !app_nil_r.
Qed.

Lemma logged_trans id w1 w2 w3 :
  logged id w1 w2 -> logged id w2 w3 -> logged id w1 w3.
Proof.
  intros H12 H23 r L.
  destruct (H12 r L) as [r2 [n1 [s1 [L2 [E2 [W2 [M2 S2]]]]]]].
  destruct (H23 r2 L2) as [r3 [n2 [s2 [L3 [E3 [W3 [M3 S3]]]]]]].
  exists r3, (n1 ++ n2), (s1 ++ s2). split; [exact L3|].
  split; [now rewrite E3, E2, app_assoc|].
  split; [now rewrite W3, W2, app_assoc|].
  split; [now rewrite !map_app, M2, M3|].
  now rewrite S3, S2, last_app.
Qed.

Lemma logged_same id w w' :
  lookup id w' = lookup id w ->
  state_writes id (trace w') = state_writes id (trace w) ->
  logged id w w'.
Proof.
  intros L W r Lr. exists r, [], [].
  rewrite L, W, !app_nil_r. auto.
Qed.

Lemma logged_undisturbed id w w' : undisturbed id w w' -> logged id w w'.
Proof. intros [L W _]. now apply logged_same. Qed.

Lemma logged_transition id r r' e s now w :
  lookup id w = Some r ->
  events r' = events r ++ [e] ->
  event_state e = Some s ->
  state r' = s ->
  logged id w (transition id r' s now w).
Proof.
  intros L E Es S r0 L0. rewrite L in L0. injection L0 as <-.
  exists r', [e], [s].
  rewrite lookup_transition_same, writes_transition_same. simpl.
  now rewrite Es.
Qed.

Lemma event_state_change st now :
  event_state
    {| stage := state_name (stage_state st); type := "STATE_CHANGE";
       message := stage_message st; timestamp := now |}
  = Some (stage_state st).
Proof. unfold event_state. simpl. apply state_of_name_name. Qed.

Lemma logged_stage_body id stage rnd now w :
  logged id w (snd (stage_body id stage rnd now w)).
Proof.
  destruct (lookup id w) as [r|] eqn:L.
  - destruct (state_eqb (state r) CANCELLED) eqn:C.
    + apply state_eqb_eq in C.
      rewrite (stage_body_cancelled _ _ _ _ r) by assumption. apply logged_refl.
    + apply state_eqb_neq in C. destruct (injected stage rnd) eqn:I.
      * rewrite (stage_body_fail _ _ _ _ r) by assumption.
        eapply logged_transition; eauto; reflexivity.
      * rewrite (stage_body_advance _ _ _ _ r) by assumption.
        eapply logged_transition; eauto; try reflexivity.
        apply event_state_change.
  - rewrite stage_body_absent by assumption. apply logged_refl.
Qed.

Lemma logged_complete id now w : logged id w (snd (complete id now w)).
Proof.
  destruct (lookup id w) as [r|] eqn:L.
  - destruct (state_eqb (state r) CANCELLED) eqn:C.
    + unfold complete. rewrite bind_apply, getIntent_apply. cbv beta iota.
      rewrite L, C. apply logged_refl.
    + apply state_eqb_neq in C.
      rewrite (complete_live _ _ r) by assumption.
      eapply logged_transition; eauto; reflexivity.
  - unfold complete. rewrite bind_apply, getIntent_apply. cbv beta iota.
    rewrite L. apply logged_refl.
Qed.

Lemma logged_resume id k rnd now w : logged id w (snd (resume id k rnd now w)).
Proof.
  destruct k as [|stage rest]; [apply logged_refl|].
  unfold resume. rewrite bind_apply.
  pose proof (logged_stage_body id stage rnd now w) as H.
  destruct (stage_body id stage rnd now w) as [[[|]|] w1]; simpl in *;
    try exact H.
  destruct rest as [|next rest]; [|exact H].
  rewrite bind_apply.
  pose proof (logged_complete id now w1) as H'.
  destruct (complete id now w1) as [[[]|] w2]; simpl in *;
    eapply logged_trans; eauto.
Qed.

Lemma logged_cancelIntent id now w : logged id w (snd (cancelIntent id now w)).
Proof.
  destruct (lookup id w) as [r|] eqn:L.
  - destruct (state_eqb (state r) COMPLETED) eqn:C.
    + apply state_eqb_eq in C.
      rewrite (cancelIntent_done _ _ r) by auto. apply logged_refl.
    + destruct (state_eqb (state r) FAILED) eqn:F.
      * apply state_eqb_eq in F.
        rewrite (cancelIntent_done _ _ r) by auto. apply logged_refl.
      * apply state_eqb_neq in C, F.
        rewrite (cancelIntent_live _ _ r) by assumption.
        eapply logged_transition; eauto; reflexivity.
  - rewrite cancelIntent_absent by assumption. apply logged_refl.
Qed.

Lemma logged_watch_handler id conn id' now w :
  logged id w (snd (watch_handler conn id' now w)).
Proof. apply logged_undisturbed, leaves_alone_watch_handler. Qed.

(** Every operation but [kill] and a creation under the same id keeps the
    log of a record in step with its state. *)
Lemma step_logged id o w :
  match o with
  | OpKill _ => False
  | OpCreate intent fresh _ => intent_key intent fresh <> id
  | _ => True
  end ->
  logged id w (step o w).
Proof.
  destruct o as [p f n|id' k rnd n|id' n|n| | |id' cb|id' cb|c id' n|c id'];
    simpl; intros H; unfold exec.
  - now apply logged_undisturbed, leaves_alone_createIntent.
  - destruct (String.eqb_spec id' id) as [->|Hne].
    + apply logged_resume.
    + now apply logged_undisturbed, leaves_alone_resume.
  - destruct (String.eqb_spec id' id) as [->|Hne].
    + apply logged_cancelIntent.
    + now apply logged_undisturbed, leaves_alone_cancelIntent.
  - contradiction.
  - now apply logged_same.
  - now apply logged_same.
  - apply logged_same; now rewrite watchIntent_apply.
  - now apply logged_same.
  - apply logged_watch_handler.
  - now apply logged_same.
Qed.

Lemma logged_consistent id w w' r r' :
  logged id w w' ->
  lookup id w = Some r ->
  lookup id w' = Some r' ->
  consistent r = true ->
  consistent r' = true.
Proof.
  intros H L L' C. destruct (H r L) as [r2 [new [ws [L2 [E [_ [M S]]]]]]].
  rewrite L' in L2. injection L2 as <-.
  unfold consistent in *. rewrite E.
  destruct new as [|e new] using rev_ind.
  - destruct ws; [|discriminate]. rewrite app_nil_r. simpl in S.
    now rewrite S.
  - rewrite app_assoc, last_event_push.
    rewrite map_app in M. simpl in M.
    destruct ws as [|s ws] using rev_ind.
    + destruct (map event_state new); discriminate.
    + rewrite map_app in M. simpl in M.
      apply app_inj_tail in M. destruct M as [_ M]. rewrite M.
      rewrite S, last_last. apply state_eqb_refl.
Qed.

Lemma step_keeps_absent id o w :
  match o with
  | OpKill _ => False
  | OpCreate intent fresh _ => intent_key intent fresh <> id
  | _ => True
  end ->
  lookup id w = None -> lookup id (step o w) = None.
Proof.
  destruct o as [p f n|id' k rnd n|id' n|n| | |id' cb|id' cb|c id' n|c id'];
    simpl; intros H L; unfold exec; try exact L.
  - now rewrite (und_lookup _ _ _ (leaves_alone_createIntent id p f n H w)).
  - destruct (String.eqb_spec id' id) as [->|Hne].
    + now rewrite resume_absent.
    + now rewrite (und_lookup _ _ _ (leaves_alone_resume id id' k rnd n Hne w)).
  - destruct (String.eqb_spec id' id) as [->|Hne].
    + now rewrite cancelIntent_absent.
    + now rewrite (und_lookup _ _ _ (leaves_alone_cancelIntent id id' n Hne w)).
  - contradiction.
  - now rewrite watchIntent_apply.
  - now rewrite (und_lookup _ _ _ (leaves_alone_watch_handler id c id' n w)).
Qed.

(** The part of C2 the code keeps: along any operations without a [kill],
    the records stay consistent with their logs. *)
Lemma consistency_without_kill ops :
  Forall (fun o => match o with OpKill _ => False | _ => True end) ops ->
  forall w,
    (forall id r, lookup id w = Some r -> consistent r = true) ->
    forall id r, lookup id (run ops w) = Some r -> consistent r = true.
Proof.
  induction 1 as [|o ops Ho _ IH]; intros w Hw id r L; simpl in L.
  - eauto.
  - apply (IH (step o w)) with (id := id); [|exact L].
    clear L r id. intros id r L.
    assert (Hcase :
      (exists p f n, o = OpCreate p f n /\ intent_key p f = id)
      \/ match o with
         | OpKill _ => False
         | OpCreate intent fresh _ => intent_key intent fresh <> id
         | _ => True
         end).
    { destruct o as [p f n| | | | | | | | | ]; auto.
      destruct (String.eqb_spec (intent_key p f) id); eauto 6. }
    destruct Hcase as [[p [f [n [-> E]]]]|Hc].
    + simpl in L. unfold exec in L. rewrite createIntent_apply in L.
      simpl in L. rewrite lookup_add_trace, E, lookup_upd_same in L.
      injection L as <-. reflexivity.
    + destruct (lookup id w) as [r0|] eqn:L0.
      * eapply (logged_consistent id w); eauto using step_logged.
      * rewrite (step_keeps_absent id o w Hc L0) in L. discriminate.
Qed.

(** The logs only grow: whatever the operation, a creation under the same
    id apart, the log of a record is extended at its end. *)
Lemma log_append_only id o w r :
  match o with
  | OpCreate intent fresh _ => intent_key intent fresh <> id
  | _ => True
  end ->
  lookup id w = Some r ->
  exists r' new, lookup id (step o w) = Some r' /\ events r' = events r ++ new.
Proof.
  intros H L.
  destruct o as [p f n|id' k rnd n|id' n|n| | |id' cb|id' cb|c id' n|c id'];
    try (match goal with
         | |- context [step ?o w] =>
             destruct (step_logged id o w H r L) as [r' [new [_ [L' [E _]]]]]
         end; now exists r', new).
  - exists (killed_record n r), [].
    change (step (OpKill n) w) with (exec (kill n) w).
    now rewrite lookup_kill, L, killed_record_events, app_nil_r.
Qed.

(** ** The watch stream *)

(** Connecting to an intent that is already terminal: one event, the
    marker, and no subscription. *)
Lemma stream_of_terminal_intent conn id now r w :
  lookup id w = Some r ->
  terminal (state r) = true ->
  stream conn (trace (exec (watch_handler conn id now) w)) =
    stream conn (trace w) ++ [Data (notice id r (state r) now); Done]
  /\ ms (exec (watch_handler conn id now) w) = ms w.
Proof.
  intros L T. unfold exec. rewrite (watch_handler_terminal conn id now r) by assumption.
  simpl. rewrite stream_app. simpl. now rewrite Nat.eqb_refl.
Qed.

(** A transition made by the driver or by [cancelIntent], seen by the only
    subscriber of the intent: the event, and the marker when the state is
    terminal. *)
Lemma stream_of_transition conn id r s now w :
  watchers_of id w = [sse_callback conn] ->
  stream conn (trace (transition id r s now w)) =
    stream conn (trace w)
      ++ Data (notice id r s now) :: (if terminal s then [Done] else []).
Proof.
  intros W. unfold transition, add_trace. simpl trace.
  rewrite stream_app, W. f_equal. simpl.
  rewrite Nat.eqb_refl.
  destruct (terminal s); simpl; now rewrite ?Nat.eqb_refl.
Qed.

(** A subscriber connected while the intent was PENDING sees the
    cancellation made by [cancelIntent], followed by the marker. *)
Lemma stream_of_cancelled_intent :
  stream 7
    (trace (run [OpConnect 7 sample_id 1050; OpCancel sample_id 1100] sample_world))
  = [ Data (notice sample_id sample_stored PENDING 1050);
      Data (notice sample_id (cancelled_record 1100 sample_stored) CANCELLED 1100);
      Done ].
Proof. vm_compute. reflexivity. Qed.

(* ================================================================== *)
(** * The claims *)




(** C2 at [kill].  A record that is not terminal and whose state agrees
    with the last entry of its log is, after [kill], CANCELLED with the
    same log: state and log disagree, no event was appended for the
    transition, and no watcher was called. *)
Theorem kill_breaks_consistency (id : UUID) (now : Timestamp)
  (r : StoredIntent) (w : World) :
  lookup id w = Some r ->
  terminal (state r) = false ->
  consistent r = true ->
  exists r',
    lookup id (exec (kill now) w) = Some r'
    /\ state r' = CANCELLED
    /\ events r' = events r
    /\ consistent r' = false
    /\ calls (trace (exec (kill now) w)) = calls (trace w).
Proof.
  intros L T Cn. exists (killed_record now r).
  rewrite lookup_kill, L. split; [reflexivity|].
  unfold killed_record. rewrite T.
  split; [reflexivity|]. split; [reflexivity|]. split; [|apply calls_kill].
  unfold consistent in *. simpl.
  destruct (last_event (events r)) as [e|]; [|discriminate].
  destruct (event_state e) as [s|]; [|discriminate].
  apply state_eqb_eq in Cn. subst s.
  destruct (state r); try reflexivity; discriminate.
Qed.

(** C2 at [kill] on a store with one pending intent. *)
Lemma kill_breaks_consistency_witness :
  lookup sample_id sample_world = Some sample_stored
  /\ terminal (state sample_stored) = false
  /\ consistent sample_stored = true
  /\ exists r',
       lookup sample_id (exec (kill 1100) sample_world) = Some r'
       /\ state r' = CANCELLED
       /\ events r' = events sample_stored
       /\ consistent r' = false
       /\ calls (trace (exec (kill 1100) sample_world)) = calls (trace sample_world).
Proof.
  split; [reflexivity|]. split; [reflexivity|]. split; [reflexivity|].
  apply (kill_breaks_consistency sample_id 1100 sample_stored sample_world);
    reflexivity.
Defined.



(** C4 on the code.  Cancelling an intent that is COMPLETED or FAILED
    changes nothing and returns the record as it is; the handler answers
    with its state as [finalState].  Cancelling one that
    is already CANCELLED is not a no-op: the state stays CANCELLED and the
    outcome is untouched, but a further cancellation event is appended to
    the log and [completedAt] is set again, to the instant of this call. *)
Theorem cancel_of_terminal (id : UUID) (now : Timestamp) (r : StoredIntent)
  (w : World) :
  lookup id w = Some r ->
  (state r = COMPLETED \/ state r = FAILED ->
   cancelIntent id now w = (Normal (Some r), w)
   /\ cancel_handler id now w =
        (Normal (Some {| cancelled := false; finalState := state r |}), w))
  /\ (state r = CANCELLED ->
      exists r',
        lookup id (exec (cancelIntent id now) w) = Some r'
        /\ state r' = CANCELLED
        /\ outcome r' = outcome r
        /\ completedAt r' = Some now
        /\ events r' =
             events r ++
             [ {| stage := "SUBMISSION"; type := "CANCELLED";
                  message := "Intent cancelled by user"; timestamp := now |} ]).
Proof.
  intros L. split.
  - intros H. split; [now apply (cancelIntent_done id now r)|].
    unfold cancel_handler.
    rewrite bind_apply, (cancelIntent_done id now r) by assumption.
    cbv beta iota. destruct H as [-> | ->]; reflexivity.
  - intros C. exists (cancelled_record now r). unfold exec.
    rewrite (cancelIntent_live id now r) by (assumption || congruence).
    simpl snd. rewrite lookup_transition_same. repeat split.
Qed.

(** C4 on an intent cancelled at 1100 and cancelled again at 1200: two
    cancellation events in the log, [completedAt] moved to 1200. *)
Lemma cancel_of_terminal_witness :
  lookup sample_id (exec (cancelIntent sample_id 1100) sample_world)
    = Some (cancelled_record 1100 sample_stored)
  /\ exists r',
       lookup sample_id
         (exec (cancelIntent sample_id 1200)
            (exec (cancelIntent sample_id 1100) sample_world)) = Some r'
       /\ completedAt r' = Some 1200
       /\ map type (events r') = ["STARTED"; "CANCELLED"; "CANCELLED"].
Proof.
  split; [reflexivity|].
  destruct (cancel_of_terminal sample_id 1200
              (cancelled_record 1100 sample_stored)
              (exec (cancelIntent sample_id 1100) sample_world))
    as [_ H]; [reflexivity|].
  destruct H as [r' [L [_ [_ [C E]]]]]; [reflexivity|].
  exists r'. split; [exact L|]. split; [exact C|]. now rewrite E.
Defined.

(** C5, as far as the code goes, and where it stops.  [kill] moves every
    intent that is not terminal to CANCELLED and sets its [completedAt],
    leaves the terminal ones as they are, and counts each intent it moved
    once; but it appends no event to any log and calls no watcher: the
    event logs, the calls made and every stream are as before. *)
Theorem kill_cancels_silently (now : Timestamp) (w : World) :
  (forall id r,
     lookup id w = Some r ->
     exists r',
       lookup id (exec (kill now) w) = Some r'
       /\ (terminal (state r) = false ->
           state r' = CANCELLED /\ completedAt r' = Some now)
       /\ (terminal (state r) = true -> r' = r)
       /\ events r' = events r)
  /\ fst (kill now w) =
       Normal
         {| executionsKilled :=
              List.length (filter live (JsMap.values (intents (ms w))));
            agentsStopped :=
              List.length (filter agent_running (JsMap.values (agents (ms w)))) |}
  /\ calls (trace (exec (kill now) w)) = calls (trace w)
  /\ (forall conn, stream conn (trace (exec (kill now) w)) = stream conn (trace w)).
Proof.
  split; [|split; [|split]].
  - intros id r L. exists (killed_record now r).
    rewrite lookup_kill, L. split; [reflexivity|].
    unfold killed_record.
    destruct (terminal (state r)); repeat split; congruence.
  - now rewrite kill_apply.
  - apply calls_kill.
  - intros conn. apply stream_kill.
Qed.

(** C6. At a stage other than VALIDATING a draw below 0.05 moves a live
    intent to FAILED, with an event whose message names the stage, and the
    driver is not suspended again; a draw that is not below 0.05 lets the
    stage through.  At VALIDATING every draw lets the stage through: the
    intent becomes VALIDATING, never FAILED. *)
Theorem failure_injection (id : UUID) (stage : Stage) (rest : list Stage)
  (rnd : float) (now : Timestamp) (r : StoredIntent) (w : World) :
  lookup id w = Some r ->
  state r <> CANCELLED ->
  (stage_state stage <> VALIDATING ->
   PrimFloat.ltb rnd 0.05%float = true ->
   continuation (fst (resume id (stage :: rest) rnd now w)) = None
   /\ state_writes id (trace (snd (resume id (stage :: rest) rnd now w))) =
        state_writes id (trace w) ++ [FAILED]
   /\ exists r',
        lookup id (snd (resume id (stage :: rest) rnd now w)) = Some r'
        /\ state r' = FAILED
        /\ completedAt r' = Some now
        /\ events r' =
             events r ++
             [ {| stage := state_name (stage_state stage); type := "FAILED";
                  message := String.append "Simulated failure at "
                               (state_name (stage_state stage));
                  timestamp := now |} ])
  /\ (stage_state stage = VALIDATING \/ PrimFloat.ltb rnd 0.05%float = false ->
      state_writes id (trace (snd (stage_body id stage rnd now w))) =
        state_writes id (trace w) ++ [stage_state stage]
      /\ exists r',
           lookup id (snd (stage_body id stage rnd now w)) = Some r'
           /\ state r' = stage_state stage
           /\ events r' =
                events r ++
                [ {| stage := state_name (stage_state stage);
                     type := "STATE_CHANGE";
                     message := stage_message stage; timestamp := now |} ]).
Proof.
  intros L C. split.
  - intros Hv Hd.
    assert (I : injected stage rnd = true).
    { unfold injected, draw_fails. rewrite Hd.
      apply state_eqb_neq in Hv. now rewrite Hv. }
    rewrite (resume_fails id stage rest rnd now r) by assumption.
    simpl snd. split; [|split].
    + simpl fst. now destruct (transition_throws _ _ _ _ _).
    + apply writes_transition_same.
    + exists (failed stage now r). rewrite lookup_transition_same.
      repeat split.
  - intros H.
    assert (I : injected stage rnd = false).
    { unfold injected, draw_fails. destruct H as [-> | ->].
      - apply andb_false_r.
      - reflexivity. }
    rewrite (stage_body_advance id stage rnd now r) by assumption.
    simpl snd. split.
    + apply writes_transition_same.
    + exists (advanced stage now r). rewrite lookup_transition_same.
      repeat split.
Qed.

(** C6 on a pending intent woken up at PLANNING with the draw 0.01. *)
Lemma failure_injection_witness :
  lookup sample_id sample_world = Some sample_stored
  /\ state sample_stored <> CANCELLED
  /\ PrimFloat.ltb 0.01%float 0.05%float = true
  /\ exists r',
       lookup sample_id
         (snd (resume sample_id (skipn 1 stages) 0.01%float 1500 sample_world))
         = Some r'
       /\ state r' = FAILED
       /\ events r' =
            events sample_stored ++
            [ {| stage := "PLANNING"; type := "FAILED";
                 message := "Simulated failure at PLANNING";
                 timestamp := 1500 |} ].
Proof.
  split; [reflexivity|]. split; [discriminate|]. split; [reflexivity|].
  destruct (failure_injection sample_id
              {| stage_state := PLANNING;
                 stage_message := "Building execution plan"; delay := 300 |}
              (skipn 2 stages) 0.01%float 1500 sample_stored sample_world)
    as [[_ [_ [r' [L [S [_ E]]]]]] _].
  - reflexivity.
  - discriminate.
  - discriminate.
  - reflexivity.
  - exists r'. auto.
Defined.

(** C7 at [kill].  A subscriber connects to an intent that is not
    terminal; [kill] then makes the intent CANCELLED, a terminal state,
    and the stream has received the first event and nothing after it,
    neither the transition nor the end-of-stream marker, while the
    subscription is still registered. *)
Theorem kill_leaves_stream_open (conn : nat) (id : UUID) (now now' : Timestamp)
  (r : StoredIntent) (w : World) :
  lookup id w = Some r ->
  terminal (state r) = false ->
  state_of id (exec (kill now') (exec (watch_handler conn id now) w))
    = Some CANCELLED
  /\ stream conn (trace (exec (kill now') (exec (watch_handler conn id now) w)))
     = stream conn (trace w) ++ [Data (notice id r (state r) now)]
  /\ existsb (cb_eqb (sse_callback conn))
       (watchers_of id (exec (kill now') (exec (watch_handler conn id now) w)))
     = true.
Proof.
  intros L T. unfold exec at 2 4 6.
  rewrite (watch_handler_live conn id now r w L T). simpl snd.
  split; [|split].
  - unfold state_of. rewrite lookup_kill.
    change (lookup id _) with (lookup id w). rewrite L. simpl.
    unfold killed_record. now rewrite T.
  - rewrite stream_kill. simpl.
    rewrite stream_app. simpl. now rewrite Nat.eqb_refl.
  - unfold exec. rewrite kill_apply. unfold watchers_of at 1. simpl.
    rewrite get_set_same. apply set_add_has.
Qed.

(** C7 at [kill] on a pending intent watched on connection 7. *)
Lemma kill_leaves_stream_open_witness :
  lookup sample_id sample_world = Some sample_stored
  /\ terminal (state sample_stored) = false
  /\ state_of sample_id
       (exec (kill 1100) (exec (watch_handler 7 sample_id 1050) sample_world))
     = Some CANCELLED
  /\ stream 7
       (trace (exec (kill 1100) (exec (watch_handler 7 sample_id 1050) sample_world)))
     = stream 7 (trace sample_world)
         ++ [Data (notice sample_id sample_stored (state sample_stored) 1050)].
Proof.
  split; [reflexivity|]. split; [reflexivity|].
  destruct (kill_leaves_stream_open 7 sample_id 1050 1100 sample_stored
              sample_world) as [S [W _]]; [reflexivity | reflexivity |].
  split; [exact S | exact W].
Defined.

(** C8 fails on the code.  Two watchers are registered, the first throws:
    the second is never called with the event. *)
Lemma thrower_stops_delivery :
  map cb_key
    (watchers_of sample_id
       (run [OpWatch sample_id (thrower 1); OpWatch sample_id (listener 2)]
          sample_world)) = [1%nat; 2%nat]
  /\ calls
       (trace
          (exec (notifyWatchers sample_id
                   (notice sample_id sample_stored PENDING 1100))
             (run [OpWatch sample_id (thrower 1); OpWatch sample_id (listener 2)]
                sample_world)))
     = [(1%nat, notice sample_id sample_stored PENDING 1100)]
  /\ invocations 2
       (trace
          (exec (notifyWatchers sample_id
                   (notice sample_id sample_stored PENDING 1100))
             (run [OpWatch sample_id (thrower 1); OpWatch sample_id (listener 2)]
                sample_world)))
     = [].
Proof. repeat split; vm_compute; reflexivity. Qed.

(** C8, as the code has it.  [notifyWatchers] calls the callbacks
    registered for the id in the order of their registration, one after
    the other, up to and including the first that throws; the callbacks
    after that one are not called and the throw leaves [notifyWatchers].
    When none throws, every callback is called.  A callback registered
    while not yet in the set comes last. *)
Theorem notify_until_throw (id : UUID) (ev : WatchEvent) (w : World) :
  calls (trace (exec (notifyWatchers id ev) w)) =
    calls (trace w)
      ++ map (fun cb => (cb_key cb, ev)) (reached (watchers_of id w) ev)
  /\ (fst (notifyWatchers id ev w) = Throw <->
      exists cb, In cb (watchers_of id w) /\ snd (cb_run cb ev) = true)
  /\ (Forall never_throws (watchers_of id w) ->
      reached (watchers_of id w) ev = watchers_of id w)
  /\ (forall cb,
        existsb (cb_eqb cb) (watchers_of id w) = false ->
        watchers_of id (exec (watchIntent id cb) w) = watchers_of id w ++ [cb]).
Proof.
  split; [|split; [|split]].
  - unfold exec. rewrite notifyWatchers_deliver. simpl.
    now rewrite calls_app, calls_deliver.
  - rewrite notifyWatchers_deliver. simpl.
    rewrite <- reached_all_or_thrower.
    destruct (snd (deliver (watchers_of id w) ev)); split; congruence.
  - intros Q. now apply deliver_quiet.
  - intros cb H. unfold exec. rewrite watchers_watchIntent, String.eqb_refl.
    now apply set_add_new.
Qed.

(** C9 fails on the code.  One pending intent, listed with
    [states=PENDING]: the total is 1 before the kill and 0 after it. *)
Lemma kill_shrinks_filtered_total :
  totalCount (list_handler None None (Some "PENDING") (ms sample_world)) = 1%nat
  /\ totalCount
       (list_handler None None (Some "PENDING") (ms (exec (kill 1100) sample_world)))
     = 0%nat.
Proof. split; vm_compute; reflexivity. Qed.

(** C9, as the code has it.  After [kill] the queue status counts no
    pending and no executing intent.  A list query without a state filter
    reports the same total after the kill as before it; a query whose
    state filter names CANCELLED and whose cursor is not negative reports
    a total that is not smaller. *)
Theorem kill_drains_queue (now : Timestamp) (w : World) :
  pendingIntents (getQueueStatus (ms (exec (kill now) w))) = 0%nat
  /\ executingIntents (getQueueStatus (ms (exec (kill now) w))) = 0%nat
  /\ (forall q_limit q_cursor,
        totalCount (list_handler q_limit q_cursor None (ms (exec (kill now) w)))
        = totalCount (list_handler q_limit q_cursor None (ms w)))
  /\ (forall q_limit q_cursor p,
        In "CANCELLED" (split_comma p) ->
        0 <= to_integer (list_start q_cursor) ->
        (totalCount (list_handler q_limit q_cursor (Some p) (ms w))
         <= totalCount
              (list_handler q_limit q_cursor (Some p) (ms (exec (kill now) w))))%nat).
Proof.
  split; [|split; [|split]].
  - unfold getQueueStatus, pendingIntents. rewrite values_kill.
    rewrite filter_map_none; [reflexivity|]. intros i. apply killed_not_pending.
  - unfold getQueueStatus, executingIntents. rewrite values_kill.
    rewrite filter_map_none; [reflexivity|]. intros i. apply killed_not_executing.
  - intros q_limit q_cursor. unfold list_handler, totalCount, listIntents, r_intents.
    apply js_slice_same_length. apply matching_length_unfiltered. now left.
  - intros q_limit q_cursor p Hp Hc.
    unfold list_handler, totalCount, listIntents, r_intents.
    apply js_slice_monotone; [exact Hc|].
    apply matching_length_cancelled. simpl. intros sts E _.
    injection E as <-. exact Hp.
Qed.

(** C10 fails on the code.  Two intents listed with limit -1: the page has
    one item. *)
Lemma negative_limit_page :
  list_limit (Some (Int (-1))) = Int (-1)
  /\ List.length
       (r_intents
          (listIntents
             {| f_states := None; f_limit := Some (Int (-1)); f_cursor := None |}
             (ms two_world))) = 1%nat
  /\ totalCount (list_handler (Some "-1") None None (ms two_world)) = 1%nat.
Proof. repeat split; vm_compute; reflexivity. Qed.

(** C10, as the code has it.  When the limit, given or defaulted to 20, is
    an integer that is not negative, and the cursor is absent, empty or
    reads as an integer that is not negative: the page is sorted by
    [createdAt], newest first; it has at most [limit] items; it is the
    [limit] intents that follow the first [start] of the matching intents
    in that order; and [nextCursor] is absent exactly when no matching
    intent is left after the page.  The matching intents are the stored
    ones that pass the state filter. *)
Theorem list_page (filters : ListFilters) (s : MockState) (limit start : Z) :
  list_limit (f_limit filters) = Int limit ->
  0 <= limit ->
  list_start (f_cursor filters) = Int start ->
  0 <= start ->
  StronglySorted newer_or_equal (r_intents (listIntents filters s))
  /\ Z.of_nat (List.length (r_intents (listIntents filters s))) <= limit
  /\ (f_limit filters = None -> limit = 20)
  /\ r_intents (listIntents filters s) =
       firstn (Z.to_nat limit) (skipn (Z.to_nat start) (matching filters s))
  /\ (r_nextCursor (listIntents filters s) = None <->
      skipn (Z.to_nat start + Z.to_nat limit) (matching filters s) = [])
  /\ (forall i,
        In i (matching filters s) <->
        In i (JsMap.values (intents s)) /\ passes filters i = true).
Proof.
  intros Hl Hl0 Hs Hs0.
  assert (P : r_intents (listIntents filters s) =
              firstn (Z.to_nat limit) (skipn (Z.to_nat start) (matching filters s))).
  { unfold listIntents, r_intents. rewrite Hl, Hs. simpl num_add.
    now apply js_slice_page. }
  split; [|split; [|split; [|split; [|split]]]].
  - rewrite P. apply sorted_firstn, sorted_skipn.
    unfold matching. apply sort_desc_sorted.
  - rewrite P. rewrite length_firstn. lia.
  - intros N. rewrite N in Hl. simpl in Hl. congruence.
  - exact P.
  - unfold listIntents, r_nextCursor. rewrite Hl, Hs. simpl num_add.
    unfold num_ltb. rewrite skipn_nil_iff.
    destruct (start + limit <? Z.of_nat (List.length (matching filters s))) eqn:E.
    + apply Z.ltb_lt in E. split; [discriminate | lia].
    + apply Z.ltb_ge in E. split; [lia | reflexivity].
  - intros i. apply matching_In.
Qed.

(** C10 on two pending intents, listed with [states=PENDING], limit 1 and
    cursor 1: the page is the older of the two. *)
Lemma list_page_witness :
  list_limit (f_limit {| f_states := Some ["PENDING"]; f_limit := Some (Int 1);
                         f_cursor := Some "1" |}) = Int 1
  /\ list_start (f_cursor {| f_states := Some ["PENDING"]; f_limit := Some (Int 1);
                            f_cursor := Some "1" |}) = Int 1
  /\ Z.of_nat
       (List.length
          (r_intents
             (listIntents
                {| f_states := Some ["PENDING"]; f_limit := Some (Int 1);
                   f_cursor := Some "1" |} (ms two_world)))) <= 1
  /\ map id
       (r_intents
          (listIntents
             {| f_states := Some ["PENDING"]; f_limit := Some (Int 1);
                f_cursor := Some "1" |} (ms two_world))) = [sample_id].
Proof.
  split; [reflexivity|]. split; [reflexivity|].
  destruct (list_page
              {| f_states := Some ["PENDING"]; f_limit := Some (Int 1);
                 f_cursor := Some "1" |} (ms two_world) 1 1)
    as [_ [L [_ [P _]]]]; try reflexivity; try lia.
  split; [exact L|]. rewrite P. reflexivity.
Defined.


(* ================================================================== *)
(** * Further properties of the engine *)

(** ** Cancellation and the driver *)

Lemma resume_cancelled id k rnd now r w :
  lookup id w = Some r ->
  state r = CANCELLED ->
  resume id k rnd now w = (Normal None, w).
Proof.
  intros H Hc. destruct k as [|stage rest]; [reflexivity|].
  unfold resume.
  now rewrite bind_apply, (stage_body_cancelled _ _ _ _ r) by assumption.
Qed.

Lemma drive_cancelled id k sched w r :
  Forall (untouched id) sched ->
  lookup id w = Some r ->
  state r = CANCELLED ->
  lookup id (drive id k sched w) = Some r
  /\ state_writes id (trace (drive id k sched w)) = state_writes id (trace w).
Proof.
  intros Hs L C. destruct k as [k|]; [|now destruct sched].
  destruct sched as [|[[gap rnd] now] sched]; [auto|].
  inversion Hs as [|? ? Hgap _]; subst. unfold untouched in Hgap. simpl in Hgap.
  destruct (foreign_run id gap Hgap w) as [UL UW _]. rewrite L in UL.
  cbn [drive]. cbv zeta.
  rewrite (resume_cancelled id k rnd now r) by assumption.
  simpl. now destruct sched.
Qed.

(** X1.  An intent that is neither COMPLETED nor FAILED is cancelled; from
    then on, however its driver is woken up (from whatever stage, with
    whatever draws, with operations foreign to the intent between the
    wake-ups), the record stays as the cancellation left it: CANCELLED,
    [completedAt] at the instant of the cancel, the cancellation event last
    in the log, and CANCELLED the last state written. *)
Theorem cancel_stops_driver (id : UUID) (now : Timestamp) (r : StoredIntent)
  (w : World) (k : list Stage) (sched : list (list Op * float * Timestamp)) :
  lookup id w = Some r ->
  state r <> COMPLETED ->
  state r <> FAILED ->
  Forall (untouched id) sched ->
  state_writes id
    (trace (drive id (Some k) sched (exec (cancelIntent id now) w))) =
    state_writes id (trace w) ++ [CANCELLED]
  /\ exists r',
       lookup id (drive id (Some k) sched (exec (cancelIntent id now) w))
         = Some r'
       /\ state r' = CANCELLED
       /\ completedAt r' = Some now
       /\ outcome r' = outcome r
       /\ events r' =
            events r ++
            [ {| stage := "SUBMISSION"; type := "CANCELLED";
                 message := "Intent cancelled by user"; timestamp := now |} ].
Proof.
  intros L C F Hs. unfold exec.
  rewrite (cancelIntent_live id now r) by assumption. simpl snd.
  destruct (drive_cancelled id (Some k) sched
              (transition id (cancelled_record now r) CANCELLED now w)
              (cancelled_record now r) Hs) as [L' W'].
  - apply lookup_transition_same.
  - reflexivity.
  - split.
    + now rewrite W', writes_transition_same.
    + exists (cancelled_record now r). repeat split. exact L'.
Qed.

(** X1 on a pending intent cancelled at 1100, its driver then woken up at
    the first stage. *)
Lemma cancel_stops_driver_witness :
  lookup sample_id sample_world = Some sample_stored
  /\ exists r',
       lookup sample_id
         (drive sample_id (Some stages)
            [([OpPause], 0.5%float, 1200); ([], 0.5%float, 1500)]
            (exec (cancelIntent sample_id 1100) sample_world)) = Some r'
       /\ state r' = CANCELLED
       /\ map type (events r') = ["STARTED"; "CANCELLED"].
Proof.
  split; [reflexivity|].
  destruct (cancel_stops_driver sample_id 1100 sample_stored sample_world stages
              [([OpPause], 0.5%float, 1200); ([], 0.5%float, 1500)])
    as [_ [r' [L [S [_ [_ E]]]]]].
  - reflexivity.
  - discriminate.
  - discriminate.
  - repeat constructor.
  - exists r'. split; [exact L|]. split; [exact S|]. now rewrite E.
Defined.

(** ** Creation *)

Lemma set_keys {V : Type} k (v : V) m :
  map fst (JsMap.set k v m) =
    if JsMap.has k m then map fst m else map fst m ++ [k].
Proof.
  unfold JsMap.has. induction m as [|[k' v'] m IH]; simpl; [reflexivity|].
  destruct (String.eqb k k') eqn:E; simpl.
  - apply String.eqb_eq in E. now subst.
  - rewrite IH. now destruct (JsMap.get k m).
Qed.

(** X2.  [createIntent] never refuses an id.  Under an id that is already
    stored it replaces the record where it stands: the stored ids and their
    order are unchanged and the record is a fresh PENDING one, with a log
    of one event and no outcome.  Under a new id the intent is added last.
    Either way a driver is started from the first stage, and the other
    records are untouched. *)
Theorem create_replaces_or_appends (intent : Intent) (fresh : UUID)
  (now : Timestamp) (w : World) :
  map fst (intents (ms (exec (createIntent intent fresh now) w))) =
    (if JsMap.has (intent_key intent fresh) (intents (ms w))
     then map fst (intents (ms w))
     else map fst (intents (ms w)) ++ [intent_key intent fresh])
  /\ (exists r,
        lookup (intent_key intent fresh) (exec (createIntent intent fresh now) w)
          = Some r
        /\ fst (createIntent intent fresh now w) = Normal (r, Some stages)
        /\ state r = PENDING
        /\ map type (events r) = ["STARTED"]
        /\ createdAt r = now
        /\ completedAt r = None
        /\ outcome r = None)
  /\ (forall id',
        id' <> intent_key intent fresh ->
        lookup id' (exec (createIntent intent fresh now) w) = lookup id' w).
Proof.
  unfold exec. rewrite createIntent_apply. simpl fst. simpl snd.
  split; [|split].
  - unfold add_trace, upd. simpl. apply set_keys.
  - eexists. rewrite lookup_add_trace, lookup_upd_same. repeat split.
  - intros id' H. rewrite lookup_add_trace. now apply lookup_upd_other.
Qed.

(** ** The event log *)

(** X4.  The event logs are append-only: along any operations, a creation
    under the same id apart ([kill] included), the log a record ends with
    is the log it started with, followed by the events appended since. *)
Theorem log_is_append_only (id : UUID) (ops : list Op) (w : World)
  (r : StoredIntent) :
  Forall (not_create id) ops ->
  lookup id w = Some r ->
  exists r' new,
    lookup id (run ops w) = Some r' /\ events r' = events r ++ new.
Proof.
  intros H. revert w r.
  induction H as [|o ops Ho _ IH]; intros w r L; simpl.
  - exists r, []. now rewrite app_nil_r.
  - destruct (log_append_only id o w r Ho L) as [r1 [n1 [L1 E1]]].
    destruct (IH (step o w) r1 L1) as [r2 [n2 [L2 E2]]].
    exists r2, (n1 ++ n2). split; [exact L2|].
    now rewrite E2, E1, app_assoc.
Qed.

(** X4 on a pending intent: a wake-up, a kill and a cancel. *)
Lemma log_is_append_only_witness :
  lookup sample_id sample_world = Some sample_stored
  /\ exists r' new,
       lookup sample_id
         (run [OpResume sample_id stages 0.5%float 1200; OpKill 1300;
               OpCancel sample_id 1400] sample_world) = Some r'
       /\ events r' = events sample_stored ++ new.
Proof.
  split; [reflexivity|].
  apply (log_is_append_only sample_id
           [OpResume sample_id stages 0.5%float 1200; OpKill 1300;
            OpCancel sample_id 1400] sample_world sample_stored).
  - repeat constructor.
  - reflexivity.
Defined.

(** X3.  In every world reached from the empty store by operations none of
    which is a [kill], the state of each stored record is the one its last
    log entry stands for. *)
Theorem consistency_kept (ops : list Op) (id : UUID) (r : StoredIntent) :
  Forall not_kill ops ->
  lookup id (run ops init) = Some r ->
  consistent r = true.
Proof.
  intros H L.
  apply (consistency_without_kill ops H init) with (id := id); [|exact L].
  intros id' r' L'. discriminate L'.
Qed.

(** X3 on an intent created, woken up twice (the second draw injects a
    failure) and then cancelled. *)
Lemma consistency_kept_witness :
  exists r,
    lookup sample_id
      (run [OpCreate sample_intent sample_id 1000;
            OpResume sample_id stages 0.5%float 1200;
            OpResume sample_id (skipn 1 stages) 0.01%float 1500;
            OpCancel sample_id 1600] init) = Some r
    /\ state r = FAILED
    /\ consistent r = true.
Proof.
  eexists. split; [reflexivity|]. split; [reflexivity|].
  apply (consistency_kept
           [OpCreate sample_intent sample_id 1000;
            OpResume sample_id stages 0.5%float 1200;
            OpResume sample_id (skipn 1 stages) 0.01%float 1500;
            OpCancel sample_id 1600] sample_id).
  - repeat constructor.
  - reflexivity.
Defined.

(** ** Every lifecycle ends *)




(** ** The stored ids *)

Lemma keeps_ids_ret {A : Type} (a : A) : keeps_ids (ret a).
Proof. intros w. reflexivity. Qed.

Lemma keeps_ids_bind {A B : Type} (m : Eng A) (k : A -> Eng B) :
  keeps_ids m -> (forall a, keeps_ids (k a)) -> keeps_ids (bind m k).
Proof.
  intros Hm Hk w. unfold bind. specialize (Hm w).
  destruct (m w) as [[a|] w']; simpl in *.
  - now rewrite Hk.
  - exact Hm.
Qed.

Lemma keeps_ids_emit acts : keeps_ids (emit acts).
Proof. intros w. reflexivity. Qed.

Lemma keeps_ids_getIntent id : keeps_ids (getIntent id).
Proof. intros w. reflexivity. Qed.

Lemma keeps_ids_mutate id f : keeps_ids (mutate id f).
Proof.
  intros w. unfold mutate, modify, stored_ids. simpl.
  destruct (JsMap.get id (intents (ms w))) as [i|] eqn:G; [|reflexivity].
  rewrite set_keys. unfold JsMap.has. now rewrite G.
Qed.

Lemma keeps_ids_notify_last id s now : keeps_ids (notify_last id s now).
Proof.
  intros w. unfold notify_last. rewrite bind_apply, getIntent_apply.
  cbv beta iota. now rewrite notifyWatchers_deliver.
Qed.

Ltac keeps_ids_seq :=
  repeat first
    [ apply keeps_ids_ret
    | apply keeps_ids_emit
    | apply keeps_ids_mutate
    | apply keeps_ids_getIntent
    | apply keeps_ids_notify_last
    | apply keeps_ids_bind; [|intros ?] ].

Lemma keeps_ids_stage_body id stage rnd now :
  keeps_ids (stage_body id stage rnd now).
Proof.
  unfold stage_body. apply keeps_ids_bind; [apply keeps_ids_getIntent|].
  intros [cur|]; [|apply keeps_ids_ret].
  destruct (state_eqb (state cur) CANCELLED); [apply keeps_ids_ret|].
  destruct (injected stage rnd); keeps_ids_seq.
Qed.

Lemma keeps_ids_complete id now : keeps_ids (complete id now).
Proof.
  unfold complete. apply keeps_ids_bind; [apply keeps_ids_getIntent|].
  intros [fin|]; [|apply keeps_ids_ret].
  destruct (state_eqb (state fin) CANCELLED); [apply keeps_ids_ret|].
  keeps_ids_seq.
Qed.

Lemma keeps_ids_resume id k rnd now : keeps_ids (resume id k rnd now).
Proof.
  destruct k as [|stage rest]; [apply keeps_ids_ret|].
  unfold resume. apply keeps_ids_bind; [apply keeps_ids_stage_body|].
  intros [|]; [|apply keeps_ids_ret].
  destruct rest; [|apply keeps_ids_ret].
  apply keeps_ids_bind; [apply keeps_ids_complete|].
  intros _. apply keeps_ids_ret.
Qed.

Lemma keeps_ids_cancelIntent id now : keeps_ids (cancelIntent id now).
Proof.
  unfold cancelIntent. apply keeps_ids_bind; [apply keeps_ids_getIntent|].
  intros [i|]; [|apply keeps_ids_ret].
  destruct (state_eqb (state i) COMPLETED || state_eqb (state i) FAILED);
    keeps_ids_seq.
Qed.

Lemma keeps_ids_kill now : keeps_ids (kill now).
Proof.
  intros w. rewrite kill_apply. unfold stored_ids. simpl.
  rewrite map_map. reflexivity.
Qed.

Lemma keeps_ids_watch_handler conn id now : keeps_ids (watch_handler conn id now).
Proof.
  unfold watch_handler. apply keeps_ids_bind; [apply keeps_ids_getIntent|].
  intros [i|]; [|apply keeps_ids_ret].
  apply keeps_ids_bind; [apply keeps_ids_emit|]. intros _.
  destruct (terminal (state i)).
  - keeps_ids_seq.
  - apply keeps_ids_bind; [|intros _; apply keeps_ids_ret].
    intros w. now rewrite watchIntent_apply.
Qed.

Lemma step_keeps_ids o w :
  not_any_create o -> stored_ids (step o w) = stored_ids w.
Proof.
  destruct o; simpl; intros H; unfold exec; try reflexivity.
  - contradiction.
  - apply keeps_ids_resume.
  - apply keeps_ids_cancelIntent.
  - apply keeps_ids_kill.
  - now rewrite watchIntent_apply.
  - apply keeps_ids_watch_handler.
Qed.

(** X10.  Only [createIntent] adds an intent and nothing removes one: along
    any operations without a creation (wake-ups of drivers, cancels, kills,
    pauses, subscriptions), the stored ids and their order stay the same.
    So after [reset] the store stays empty: a driver started before the
    reset finds no record when it wakes up, writes nothing and is not
    suspended again. *)
Theorem only_create_adds (ops : list Op) (w : World) :
  Forall not_any_create ops ->
  stored_ids (run ops w) = stored_ids w
  /\ stored_ids (run ops (exec reset w)) = []
  /\ (forall id k rnd now,
        resume id k rnd now (run ops (exec reset w)) =
          (Normal None, run ops (exec reset w))).
Proof.
  intros H.
  assert (S : forall w0, stored_ids (run ops w0) = stored_ids w0).
  { induction H as [|o ops Ho _ IH]; intros w0; simpl; [reflexivity|].
    now rewrite IH, step_keeps_ids. }
  split; [apply S|]. split; [now rewrite S|].
  intros id k rnd now. apply resume_absent.
  specialize (S (exec reset w)). unfold stored_ids in S.
  unfold lookup. change (intents (ms (exec reset w))) with (@nil (string * StoredIntent)) in S.
  simpl in S. apply map_eq_nil in S. now rewrite S.
Qed.

(** X10 on two stored intents: a wake-up, a cancel and a kill. *)
Lemma only_create_adds_witness :
  stored_ids
    (run [OpResume sample_id stages 0.5%float 1200; OpCancel other_id 1300;
          OpKill 1400] two_world) = [sample_id; other_id]
  /\ stored_ids
       (run [OpResume sample_id stages 0.5%float 1200; OpCancel other_id 1300;
             OpKill 1400] (exec reset two_world)) = [].
Proof.
  destruct (only_create_adds
              [OpResume sample_id stages 0.5%float 1200; OpCancel other_id 1300;
               OpKill 1400] two_world) as [S [R _]].
  - repeat constructor.
  - split; [rewrite S; reflexivity | exact R].
Defined.

(** ** The kill switch, again *)

Lemma filter_length_split {A : Type} (p q r live_p : A -> bool) l :
  (forall x, live_p x = p x || q x || r x) ->
  (forall x, p x && q x = false) ->
  (forall x, p x && r x = false) ->
  (forall x, q x && r x = false) ->
  List.length (filter live_p l) =
    (List.length (filter p l) + List.length (filter q l)
     + List.length (filter r l))%nat.
Proof.
  intros H Hpq Hpr Hqr. induction l as [|x l IH]; simpl; [reflexivity|].
  rewrite H. specialize (Hpq x). specialize (Hpr x). specialize (Hqr x).
  destruct (p x), (q x), (r x); simpl in *; try discriminate; lia.
Qed.

Lemma agents_kill now w :
  agents (ms (exec (kill now) w)) =
    map (fun kv => (fst kv, if agent_running (snd kv)
                            then stop_agent now (snd kv) else snd kv))
      (agents (ms w)).
Proof. unfold exec. now rewrite kill_apply. Qed.

Lemma stopped_not_running now a :
  agent_running (if agent_running a then stop_agent now a else a) = false.
Proof. destruct (agent_running a) eqn:R; [reflexivity | exact R]. Qed.

(** X8.  [kill] agrees with the queue status read just before it: it
    counts as killed the pending and the executing intents (and any in
    RETRYING), and as stopped the running agents.  After it no agent is
    running; an agent that was running is STOPPED with [stoppedAt] at the
    instant of the kill, and every other agent is as it was. *)
Theorem kill_agrees_with_status (now : Timestamp) (w : World) :
  (exists k,
     fst (kill now w) = Normal k
     /\ executionsKilled k =
          (pendingIntents (getQueueStatus (ms w))
           + executingIntents (getQueueStatus (ms w))
           + retrying_count (ms w))%nat
     /\ agentsStopped k = runningAgents (getQueueStatus (ms w)))
  /\ runningAgents (getQueueStatus (ms (exec (kill now) w))) = 0%nat
  /\ (forall key a,
        JsMap.get key (agents (ms w)) = Some a ->
        exists a',
          JsMap.get key (agents (ms (exec (kill now) w))) = Some a'
          /\ (agent_running a = true ->
              status a' = A_STOPPED /\ stoppedAt a' = Some now
              /\ startedAt a' = startedAt a /\ agent_name a' = agent_name a)
          /\ (agent_running a = false -> a' = a)).
Proof.
  split; [|split].
  - eexists. rewrite kill_apply. simpl fst. split; [reflexivity|]. split.
    + simpl. unfold retrying_count.
      apply filter_length_split; intros i; unfold live, terminal, is_executing;
        destruct (state i); reflexivity.
    + reflexivity.
  - unfold getQueueStatus, runningAgents. rewrite agents_kill.
    rewrite (values_map_values
               (fun a => if agent_running a then stop_agent now a else a)).
    rewrite filter_map_none; [reflexivity|].
    intros a. apply stopped_not_running.
  - intros key a G. rewrite agents_kill.
    rewrite (get_map_values
               (fun a => if agent_running a then stop_agent now a else a)), G.
    simpl. eexists. split; [reflexivity|].
    destruct (agent_running a); split; intros; try discriminate; auto.
Qed.

Lemma map_values_id {V : Type} (f : V -> V) (m : JsMap.t V) :
  (forall v, In v (JsMap.values m) -> f v = v) ->
  map (fun kv => (fst kv, f (snd kv))) m = m.
Proof.
  unfold JsMap.values. induction m as [|[k v] m IH]; intros H; simpl; [reflexivity|].
  rewrite H by (now left). rewrite IH; [reflexivity|].
  intros v' Hv'. apply H. now right.
Qed.

Lemma filter_nil_all {A : Type} (p : A -> bool) l :
  (forall x, In x l -> p x = false) -> filter p l = [].
Proof.
  induction l as [|x l IH]; intros H; simpl; [reflexivity|].
  rewrite H by (now left). apply IH. intros y Hy. apply H. now right.
Qed.

(** X9.  [kill] is idempotent: a second kill, at whatever instant, finds
    nothing to cancel and nothing to stop, and leaves the store and the
    history exactly as the first left them. *)
Theorem kill_twice (now now' : Timestamp) (w : World) :
  kill now' (exec (kill now) w) =
    (Normal {| executionsKilled := 0; agentsStopped := 0 |}, exec (kill now) w).
Proof.
  rewrite (kill_apply now'). 
  assert (L : filter live (JsMap.values (intents (ms (exec (kill now) w)))) = []).
  { rewrite values_kill. apply filter_map_none. intros i. unfold live.
    now rewrite killed_record_terminal. }
  assert (R : filter agent_running
                (JsMap.values (agents (ms (exec (kill now) w)))) = []).
  { rewrite agents_kill.
    rewrite (values_map_values
               (fun a => if agent_running a then stop_agent now a else a)).
    apply filter_map_none. intros a. apply stopped_not_running. }
  rewrite L, R. simpl List.length. f_equal.
  assert (Li : filter (fun kv : string * StoredIntent => live (snd kv))
                 (intents (ms (exec (kill now) w))) = []).
  { apply filter_nil_all. intros [k i] Hk. simpl.
    assert (Hi : In i (JsMap.values (intents (ms (exec (kill now) w)))))
      by (unfold JsMap.values; apply in_map_iff; exists (k, i); auto).
    destruct (live i) eqn:E; [|reflexivity].
    assert (Hf : In i (filter live (JsMap.values (intents (ms (exec (kill now) w))))))
      by (apply filter_In; auto).
    rewrite L in Hf. contradiction. }
  rewrite Li. simpl map. rewrite app_nil_r.
  destruct (exec (kill now) w) as [[ints ags ws nf lat p] tr] eqn:W.
  unfold set_agents, set_intents. simpl in *. f_equal. f_equal.
  - apply map_values_id. intros i Hi. unfold killed_record.
    destruct (terminal (state i)) eqn:T; [reflexivity|].
    assert (Hf : In i (filter live (JsMap.values ints)))
      by (apply filter_In; unfold live; rewrite T; auto).
    rewrite L in Hf. contradiction.
  - apply (map_values_id (fun a => if agent_running a then stop_agent now' a else a)).
    intros a Ha. destruct (agent_running a) eqn:E; [|reflexivity].
    assert (Hf : In a (filter agent_running (JsMap.values ags)))
      by (apply filter_In; auto).
    rewrite R in Hf. contradiction.
Qed.

(** ** Subscriptions *)

Lemma set_add_twice cb s : set_add cb (set_add cb s) = set_add cb s.
Proof.
  induction s as [|c s IH]; simpl.
  - unfold cb_eqb. now rewrite Nat.eqb_refl.
  - destruct (cb_eqb cb c) eqn:E; simpl; rewrite E; [reflexivity|].
    now rewrite IH.
Qed.

Lemma set_delete_added cb s :
  existsb (cb_eqb cb) s = false -> set_delete cb (s ++ [cb]) = s.
Proof.
  unfold set_delete. induction s as [|c s IH]; simpl.
  - intros _. unfold cb_eqb. now rewrite Nat.eqb_refl.
  - destruct (cb_eqb cb c); simpl; [discriminate|].
    intros H. now rewrite IH.
Qed.

Lemma invocations_app key tr1 tr2 :
  invocations key (tr1 ++ tr2) = invocations key tr1 ++ invocations key tr2.
Proof.
  induction tr1 as [|a tr1 IH]; simpl; [reflexivity|].
  destruct a; simpl; auto.
  destruct (Nat.eqb key key0); simpl; now rewrite IH.
Qed.

Lemma invocations_sse key (out : list (nat * SseMsg)) :
  invocations key (map (fun o => SseWrite (fst o) (snd o)) out) = [].
Proof. induction out; simpl; auto. Qed.

Lemma invocations_deliver_absent key cbs ev :
  existsb (fun c => Nat.eqb key (cb_key c)) cbs = false ->
  invocations key (fst (deliver cbs ev)) = [].
Proof.
  induction cbs as [|c cbs IH]; simpl; [reflexivity|].
  destruct (Nat.eqb key (cb_key c)) eqn:E; simpl; [discriminate|].
  intros H. destruct (snd (cb_run c ev)); simpl; rewrite ?E.
  - apply invocations_sse.
  - now rewrite invocations_app, invocations_sse, IH.
Qed.

Lemma set_delete_absent cb s :
  existsb (fun c => Nat.eqb (cb_key cb) (cb_key c)) (set_delete cb s) = false.
Proof.
  unfold set_delete. induction s as [|c s IH]; simpl; [reflexivity|].
  unfold cb_eqb at 1. destruct (Nat.eqb (cb_key cb) (cb_key c)) eqn:E; simpl.
  - exact IH.
  - now rewrite E.
Qed.

(** X7.  The watchers of an intent are a set.  Registering a callback a
    second time changes nothing; unsubscribing a callback that was
    registered while not yet in the set gives back the watchers as they
    were; and after a callback is unsubscribed, a notification for the
    intent does not call it. *)
Theorem subscription_is_a_set (id : UUID) (cb : Callback) (w : World) :
  exec (watchIntent id cb) (exec (watchIntent id cb) w) =
    exec (watchIntent id cb) w
  /\ (existsb (cb_eqb cb) (watchers_of id w) = false ->
      watchers_of id (exec (unsubscribe id cb) (exec (watchIntent id cb) w)) =
        watchers_of id w)
  /\ (forall ev,
        invocations (cb_key cb)
          (trace (exec (notifyWatchers id ev) (exec (unsubscribe id cb) w))) =
          invocations (cb_key cb) (trace w)).
Proof.
  split; [|split].
  - unfold exec. rewrite !watchIntent_apply. simpl snd.
    unfold watchers_of at 1. simpl. rewrite get_set_same.
    unfold set_watchers. simpl. now rewrite set_set, set_add_twice.
  - intros H. unfold exec.
    rewrite watchers_unsubscribe, String.eqb_refl.
    rewrite watchers_watchIntent, String.eqb_refl.
    rewrite set_add_new by assumption. now apply set_delete_added.
  - intros ev. unfold exec.
    pose proof (watchers_unsubscribe id id cb w) as Hw.
    rewrite String.eqb_refl in Hw.
    assert (Ht : trace (snd (unsubscribe id cb w)) = trace w) by reflexivity.
    generalize dependent (snd (unsubscribe id cb w)). intros w1 Hw Ht.
    rewrite notifyWatchers_deliver. unfold add_trace. cbn [snd trace].
    rewrite invocations_app, Hw, Ht.
    rewrite invocations_deliver_absent by apply set_delete_absent.
    now rewrite app_nil_r.
Qed.

(** ** What a subscriber is sent *)




(** ** Cursors *)

Lemma parse_digits_acc d p :
  parse_digits 10 (NilEmpty.string_of_uint d) (Some (Z.pos p)) =
    Some (Z.pos (Pos.of_uint_acc d p)).
Proof.
  revert p. induction d; intros p; try reflexivity;
    cbn [NilEmpty.string_of_uint parse_digits Pos.of_uint_acc];
    match goal with
    | |- context [digit_of 10 ?c] =>
        let v := eval vm_compute in (digit_of 10 c) in
        change (digit_of 10 c) with v
    end; cbv beta iota; rewrite <- IHd; f_equal; f_equal; lia.
Qed.

Lemma parse_digits_zero d :
  parse_digits 10 (NilEmpty.string_of_uint d) (Some 0) =
    Some (Z.of_N (Pos.of_uint d)).
Proof.
  induction d; try reflexivity;
    cbn [NilEmpty.string_of_uint parse_digits Pos.of_uint];
    match goal with
    | |- context [digit_of 10 ?c] =>
        let v := eval vm_compute in (digit_of 10 c) in
        change (digit_of 10 c) with v
    end; cbv beta iota;
    first [ exact IHd | apply parse_digits_acc ].
Qed.

(** The tests on a character that is known. *)
Ltac known_chars :=
  repeat match goal with
  | |- context [is_space ?c] =>
      let v := eval vm_compute in (is_space c) in change (is_space c) with v
  | |- context [digit_of 10 ?c] =>
      let v := eval vm_compute in (digit_of 10 c) in
      change (digit_of 10 c) with v
  end; cbv beta iota.

(** A decimal numeral reads as its value. *)
Lemma parseInt_numeral d :
  d <> Decimal.Nil ->
  parseInt (NilEmpty.string_of_uint d) = Int (Z.of_uint d)
  /\ parseInt (String "-" (NilEmpty.string_of_uint d)) = Int (- Z.of_uint d).
Proof.
  intros H. unfold Z.of_uint.
  destruct d as [|d|d|d|d|d|d|d|d|d|d]; [congruence| |
    unfold parseInt; cbn [NilEmpty.string_of_uint skip_space]; known_chars;
    cbn [parse_digits]; known_chars; change (10 * 0 + ?k) with k;
    rewrite parse_digits_acc; split; reflexivity ..].
  (* a leading 0: the next character is a digit or the end, not an x *)
  unfold parseInt.
  destruct d as [|d|d|d|d|d|d|d|d|d|d];
    cbn [NilEmpty.string_of_uint skip_space]; known_chars;
    cbn [parse_digits]; known_chars;
    repeat (change (10 * 0 + ?k) with k);
    rewrite ?parse_digits_zero, ?parse_digits_acc; split; reflexivity.
Qed.

Lemma to_uint_not_nil p : Pos.to_uint p <> Decimal.Nil.
Proof.
  intros E. pose proof (DecimalZ.of_to (Z.pos p)) as H.
  simpl in H. rewrite E in H. discriminate H.
Qed.

(** [String(n)] reads back as [n]. *)
Lemma parseInt_to_string z : parseInt (num_to_string (Int z)) = Int z.
Proof.
  unfold num_to_string. pose proof (DecimalZ.of_to z) as H.
  destruct z as [|p|p]; [reflexivity| |]; simpl Z.to_int in *;
    simpl Z.of_int in H.
  - unfold NilZero.string_of_int, NilZero.string_of_uint.
    pose proof (to_uint_not_nil p) as N.
    destruct (parseInt_numeral _ N) as [P _]. rewrite H in P.
    destruct (Pos.to_uint p); [congruence | exact P ..].
  - unfold NilZero.string_of_int, NilZero.string_of_uint.
    pose proof (to_uint_not_nil p) as N.
    destruct (parseInt_numeral _ N) as [_ P].
    replace (- Z.of_uint (Pos.to_uint p)) with (Z.neg p) in P by lia.
    destruct (Pos.to_uint p); [congruence | exact P ..].
Qed.

Lemma list_start_to_string z : list_start (Some (num_to_string (Int z))) = Int z.
Proof.
  pose proof (parseInt_to_string z) as H. unfold list_start.
  destruct (num_to_string (Int z)); [discriminate H | exact H].
Qed.

Lemma matching_with_cursor filters cursor s :
  matching (with_cursor filters cursor) s = matching filters s.
Proof. reflexivity. Qed.

(** Following the cursors from index [n] gives the rest of the list. *)
Lemma follow_pages_from filters s L :
  list_limit (f_limit filters) = Int L -> 0 < L ->
  forall fuel cursor n,
    list_start cursor = Int n -> 0 <= n ->
    (List.length (matching filters s) - Z.to_nat n < fuel)%nat ->
    follow_pages fuel filters cursor s =
      skipn (Z.to_nat n) (matching filters s).
Proof.
  intros HL Lpos. induction fuel as [|fuel IH]; intros cursor n Hc Hn Hf;
    [lia|].
  cbn [follow_pages]. cbv zeta. unfold listIntents.
  cbn [r_intents r_nextCursor with_cursor f_limit f_cursor].
  rewrite matching_with_cursor, HL, Hc. cbn [num_add num_ltb].
  rewrite js_slice_page by lia.
  set (m := matching filters s) in *.
  destruct (n + L <? Z.of_nat (List.length m)) eqn:E.
  - apply Z.ltb_lt in E.
    rewrite (IH _ (n + L)); [| apply list_start_to_string | lia | lia].
    replace (Z.to_nat (n + L)) with (Z.to_nat L + Z.to_nat n)%nat by lia.
    rewrite <- skipn_skipn. apply firstn_skipn.
  - apply Z.ltb_ge in E. rewrite app_nil_r. apply firstn_all2.
    rewrite length_skipn. lia.
Qed.

(** X11.  A client that lists without a cursor and then follows every
    [nextCursor] it is handed sees, for a positive limit (20 when none is
    given), exactly the intents that match the filter, each once and in the
    sorted order.  The page asked from index [n] is the next [L] matching
    intents from there; it carries a cursor exactly when matching intents
    remain beyond it, that cursor reads as the index after the page, and
    the last page carries no cursor: the pages are consecutive and nothing
    is skipped or repeated between them. *)
Theorem pages_cover_the_list filters s L fuel :
  list_limit (f_limit filters) = Int L -> 0 < L ->
  (List.length (matching filters s) < fuel)%nat ->
  follow_pages fuel filters None s = matching filters s
  /\ (forall n, 0 <= n <= Z.of_nat (List.length (matching filters s)) ->
        r_intents (listIntents
                     (with_cursor filters (Some (num_to_string (Int n)))) s) =
          firstn (Z.to_nat L) (skipn (Z.to_nat n) (matching filters s)))
  /\ (forall cursor n, list_start cursor = Int n -> 0 <= n ->
        listIntents (with_cursor filters cursor) s =
          {| r_intents :=
               firstn (Z.to_nat L) (skipn (Z.to_nat n) (matching filters s));
             r_nextCursor :=
               if n + L <? Z.of_nat (List.length (matching filters s))
               then Some (num_to_string (Int (n + L)))
               else None |})
  /\ (forall cursor n, list_start cursor = Int n -> 0 <= n ->
        Z.of_nat (List.length (matching filters s)) <= n + L ->
        r_nextCursor (listIntents (with_cursor filters cursor) s) = None)
  /\ (forall cursor n c, list_start cursor = Int n -> 0 <= n ->
        r_nextCursor (listIntents (with_cursor filters cursor) s) = Some c ->
        list_start (Some c) = Int (n + L)
        /\ n + L < Z.of_nat (List.length (matching filters s))).
Proof.
  intros HL Lpos Hf.
  assert (P : forall cursor n, list_start cursor = Int n -> 0 <= n ->
            listIntents (with_cursor filters cursor) s =
              {| r_intents :=
                   firstn (Z.to_nat L)
                     (skipn (Z.to_nat n) (matching filters s));
                 r_nextCursor :=
                   if n + L <? Z.of_nat (List.length (matching filters s))
                   then Some (num_to_string (Int (n + L)))
                   else None |}).
  { intros cursor n Hc Hn. unfold listIntents.
    cbn [with_cursor f_limit f_cursor].
    rewrite matching_with_cursor, HL, Hc. cbn [num_add num_ltb].
    now rewrite js_slice_page by lia. }
  split; [|split; [|split; [exact P|split]]].
  - rewrite (follow_pages_from filters s L HL Lpos fuel None 0);
      [reflexivity | reflexivity | lia | lia].
  - intros n [Hn _]. unfold listIntents.
    cbn [r_intents with_cursor f_limit f_cursor].
    rewrite matching_with_cursor, HL, list_start_to_string.
    cbn [num_add]. apply js_slice_page; lia.
  - intros cursor n Hc Hn Hlast. rewrite (P cursor n Hc Hn).
    cbn [r_nextCursor].
    destruct (n + L <? Z.of_nat (List.length (matching filters s))) eqn:E;
      [apply Z.ltb_lt in E; lia | reflexivity].
  - intros cursor n c Hc Hn. rewrite (P cursor n Hc Hn). cbn [r_nextCursor].
    destruct (n + L <? Z.of_nat (List.length (matching filters s))) eqn:E;
      [|discriminate].
    intros H. injection H as <-. apply Z.ltb_lt in E.
    split; [apply list_start_to_string | exact E].
Qed.

Lemma pages_cover_the_list_witness :
  follow_pages 3
    {| f_states := None; f_limit := Some (Int 1); f_cursor := None |}
    None (ms two_world) =
  matching {| f_states := None; f_limit := Some (Int 1); f_cursor := None |}
    (ms two_world).
Proof.
  refine (proj1 (pages_cover_the_list
           {| f_states := None; f_limit := Some (Int 1); f_cursor := None |}
           (ms two_world) 1 3 _ _ _)); [reflexivity | lia | vm_compute; lia].
Defined.

(** X12.  With a limit of 0 and a non-empty result every page is empty and
    carries the cursor it was asked with: a client that follows the cursors
    never reaches the end and never sees an intent. *)
Theorem zero_limit_never_ends filters s fuel :
  list_limit (f_limit filters) = Int 0 ->
  matching filters s <> [] ->
  listIntents (with_cursor filters None) s =
    {| r_intents := []; r_nextCursor := Some "0" |}
  /\ listIntents (with_cursor filters (Some "0")) s =
    {| r_intents := []; r_nextCursor := Some "0" |}
  /\ follow_pages fuel filters None s = [].
Proof.
  intros HL Hm.
  assert (P : forall c, list_start c = Int 0 ->
            listIntents (with_cursor filters c) s =
              {| r_intents := []; r_nextCursor := Some "0" |}).
  { intros c Hc. unfold listIntents.
    cbn [with_cursor f_limit f_cursor].
    rewrite matching_with_cursor, HL, Hc. cbn [num_add num_ltb].
    change (0 + 0) with 0. rewrite (js_slice_page _ 0 0) by lia.
    destruct (matching filters s) as [|i m]; [congruence|].
    reflexivity. }
  split; [apply P; reflexivity|]. split; [apply P; reflexivity|].
  assert (Q : forall c, list_start c = Int 0 ->
            follow_pages fuel filters c s = []).
  { induction fuel as [|fuel IH]; intros c Hc; [reflexivity|].
    cbn [follow_pages]. cbv zeta. rewrite (P c Hc).
    cbn [r_intents r_nextCursor app]. apply IH. reflexivity. }
  apply Q. reflexivity.
Qed.

Lemma zero_limit_never_ends_witness :
  follow_pages 5
    {| f_states := None; f_limit := Some (Int 0); f_cursor := None |}
    None (ms two_world) = [].
Proof.
  refine (proj2 (proj2 (zero_limit_never_ends
           {| f_states := None; f_limit := Some (Int 0); f_cursor := None |}
           (ms two_world) 5 _ _))); [reflexivity | vm_compute; discriminate].
Defined.

(** ** Agents *)

Section AgentMapFacts.
Context {V : Type}.
Implicit Types (m : JsMap.t V) (k : string) (v : V).

Lemma set_keys_present k v m :
  JsMap.has k m = true -> map fst (JsMap.set k v m) = map fst m.
Proof.
  unfold JsMap.has. induction m as [|[k' v'] m IH]; simpl; [discriminate|].
  destruct (String.eqb k k') eqn:E; simpl.
  - apply String.eqb_eq in E. now subst.
  - intros H. now rewrite IH.
Qed.

Lemma set_keys_absent k v m :
  JsMap.has k m = false -> JsMap.set k v m = m ++ [(k, v)].
Proof.
  unfold JsMap.has. induction m as [|[k' v'] m IH]; simpl; [reflexivity|].
  destruct (String.eqb k k') eqn:E; [discriminate|].
  intros H. now rewrite IH.
Qed.

Lemma get_In k v m : JsMap.get k m = Some v -> In (k, v) m.
Proof.
  induction m as [|[k' v'] m IH]; simpl; [discriminate|].
  destruct (String.eqb k k') eqn:E.
  - apply String.eqb_eq in E. intros H. left. congruence.
  - intros H. right. now apply IH.
Qed.

Lemma get_None_keys k m : JsMap.get k m = None <-> ~ In k (map fst m).
Proof.
  induction m as [|[k' v'] m IH]; simpl; [tauto|].
  destruct (String.eqb k k') eqn:E.
  - apply String.eqb_eq in E. subst. split; [discriminate | tauto].
  - apply String.eqb_neq in E. rewrite IH. split; [|tauto].
    intros H [H'|H']; [congruence | tauto].
Qed.

Lemma set_NoDup k v m : NoDup (map fst m) -> NoDup (map fst (JsMap.set k v m)).
Proof.
  intros H. destruct (JsMap.has k m) eqn:E.
  - now rewrite set_keys_present.
  - rewrite set_keys_absent by exact E. rewrite map_app. simpl.
    apply NoDup_app; [exact H | repeat constructor; simpl; tauto |].
    + intros x Hx [<-|[]]. unfold JsMap.has in E.
      destruct (JsMap.get k m) eqn:G; [discriminate|].
      apply get_None_keys in G. contradiction.
Qed.

Lemma set_Forall (P : string * V -> Prop) k v m :
  P (k, v) -> Forall P m -> Forall P (JsMap.set k v m).
Proof.
  intros Hk. induction m as [|[k' v'] m IH]; simpl; intros H.
  - now constructor.
  - inversion_clear H as [|? ? H1 H2].
    destruct (String.eqb k k'); constructor; auto.
Qed.

Lemma delete_incl k m x : In x (map_delete k m) -> In x m.
Proof.
  induction m as [|[k' v'] m IH]; simpl; [tauto|].
  destruct (String.eqb k k'); simpl; tauto.
Qed.

Lemma delete_keys_incl k m x :
  In x (map fst (map_delete k m)) -> In x (map fst m).
Proof.
  induction m as [|[k' v'] m IH]; simpl; [tauto|].
  destruct (String.eqb k k'); simpl; tauto.
Qed.

Lemma delete_NoDup k m : NoDup (map fst m) -> NoDup (map fst (map_delete k m)).
Proof.
  induction m as [|[k' v'] m IH]; simpl; intros H; [constructor|].
  inversion_clear H as [|? ? H1 H2].
  destruct (String.eqb k k'); simpl; [exact H2|].
  constructor; [|auto]. intros H. apply H1. eapply delete_keys_incl, H.
Qed.

Lemma delete_absent k m : JsMap.has k m = false -> map_delete k m = m.
Proof.
  unfold JsMap.has. induction m as [|[k' v'] m IH]; simpl; [reflexivity|].
  destruct (String.eqb k k'); [discriminate|]. intros H. now rewrite IH.
Qed.

Lemma get_delete_same k m :
  NoDup (map fst m) -> JsMap.get k (map_delete k m) = None.
Proof.
  induction m as [|[k' v'] m IH]; simpl; intros H; [reflexivity|].
  inversion_clear H as [|? ? H1 H2].
  destruct (String.eqb k k') eqn:E; simpl.
  - apply String.eqb_eq in E. subst. now apply get_None_keys.
  - rewrite E. auto.
Qed.

Lemma get_delete_other k k' m :
  k' <> k -> JsMap.get k' (map_delete k m) = JsMap.get k' m.
Proof.
  intros Hne. induction m as [|[k0 v0] m IH]; simpl; [reflexivity|].
  destruct (String.eqb k k0) eqn:E; simpl.
  - apply String.eqb_eq in E. subst.
    apply String.eqb_neq in Hne. now rewrite Hne.
  - now rewrite IH.
Qed.

End AgentMapFacts.

Lemma agents_ok_set k a w :
  agent_ok k a -> agents_ok w ->
  agents_ok {| ms := set_agents (JsMap.set k a) (ms w); trace := trace w |}.
Proof.
  intros Ha [N F]. split; simpl.
  - now apply set_NoDup.
  - now apply set_Forall.
Qed.

Lemma agents_ok_get k a w :
  agents_ok w -> JsMap.get k (agents (ms w)) = Some a -> agent_ok k a.
Proof.
  intros [_ F] G. apply get_In in G.
  rewrite Forall_forall in F. exact (F _ G).
Qed.

Lemma agent_step_ok o w : agents_ok w -> agents_ok (agent_step o w).
Proof.
  intros H. destruct o as [name fresh now|id now|id now|id|now];
    unfold agent_step, exec.
  - apply agents_ok_set; [|exact H]. split; [reflexivity|]. simpl. tauto.
  - unfold startAgent, getAgent, bind, gets.
    destruct (JsMap.get id (agents (ms w))) as [a|] eqn:G; [|exact H].
    apply agents_ok_set; [|exact H].
    destruct (agents_ok_get _ _ _ H G) as [I _].
    split; [exact I | simpl; discriminate].
  - unfold stopAgent, getAgent, bind, gets.
    destruct (JsMap.get id (agents (ms w))) as [a|] eqn:G; [|exact H].
    apply agents_ok_set; [|exact H].
    destruct (agents_ok_get _ _ _ H G) as [I _].
    split; [exact I | simpl; discriminate].
  - destruct H as [N F]. split; simpl.
    + now apply delete_NoDup.
    + rewrite Forall_forall in *. intros x Hx. apply F.
      eapply delete_incl, Hx.
  - destruct H as [N F]. fold (exec (kill now) w).
    unfold agents_ok. rewrite agents_kill. split.
    + rewrite map_map. simpl. exact N.
    + rewrite Forall_forall in *. intros x Hx. apply in_map_iff in Hx.
      destruct Hx as [[k a] [<- Hx]]. specialize (F _ Hx). simpl in *.
      destruct (agent_running a) eqn:R; [|exact F].
      destruct F as [I _]. split; [exact I | simpl; discriminate].
Qed.

(** X13.  Whatever is done to the agents (create, start, stop, delete,
    kill, in any order and on any ids), every stored agent stays under its
    own id, is CREATED, RUNNING or STOPPED, has neither instant set while
    CREATED, has [startedAt] when RUNNING and [stoppedAt] when STOPPED. *)
Theorem agents_stay_wellformed ops w :
  agents_ok w -> agents_ok (agent_run ops w).
Proof.
  unfold agent_run. revert w.
  induction ops as [|o ops IH]; intros w H; [exact H|].
  simpl. apply IH. now apply agent_step_ok.
Qed.

Lemma agents_stay_wellformed_witness :
  agents_ok
    (agent_run
       [AgCreate "maker" sample_id 1000; AgStart "agt_3f2b8c1e" 1100;
        AgCreate "taker" other_id 1200; AgKill 1300; AgDelete "agt_9c0d7e55";
        AgStart "agt_3f2b8c1e" 1400]
       init).
Proof.
  apply (agents_stay_wellformed _ init).
  split; simpl; constructor.
Defined.

(** X14.  The id of an agent keeps only the first eight characters of the
    UUID drawn for it: creating an agent with a UUID that shares them with
    the UUID of a stored agent replaces that agent by a new one in state
    CREATED, under the same key and at the same place, and adds no entry. *)
Theorem create_agent_collision name1 name2 f1 f2 t1 t2 w :
  substring 0 8 f1 = substring 0 8 f2 ->
  map fst (agents (ms (exec (createAgent name2 f2 t2)
                         (exec (createAgent name1 f1 t1) w)))) =
    map fst (agents (ms (exec (createAgent name1 f1 t1) w)))
  /\ fst (getAgent (agent_key f1)
            (exec (createAgent name2 f2 t2)
               (exec (createAgent name1 f1 t1) w))) =
       Normal (Some {| agent_id := agent_key f1; agent_name := name2;
                       status := A_CREATED; agent_createdAt := t2;
                       startedAt := None; stoppedAt := None |})
  /\ fst (listAgents (exec (createAgent name2 f2 t2)
                        (exec (createAgent name1 f1 t1) w))) =
       Normal (map snd (agents (ms (exec (createAgent name2 f2 t2)
                                      (exec (createAgent name1 f1 t1) w)))))
  /\ List.length (agents (ms (exec (createAgent name2 f2 t2)
                                (exec (createAgent name1 f1 t1) w)))) =
       List.length (agents (ms (exec (createAgent name1 f1 t1) w))).
Proof.
  intros E.
  assert (K : agent_key f2 = agent_key f1) by (unfold agent_key; now rewrite E).
  unfold createAgent, exec, bind, modify, ret, getAgent, listAgents, gets.
  cbn [fst snd ms agents set_agents]. rewrite K.
  assert (P : map fst
                (JsMap.set (agent_key f1)
                   {| agent_id := agent_key f1; agent_name := name2;
                      status := A_CREATED; agent_createdAt := t2;
                      startedAt := None; stoppedAt := None |}
                   (JsMap.set (agent_key f1)
                      {| agent_id := agent_key f1; agent_name := name1;
                         status := A_CREATED; agent_createdAt := t1;
                         startedAt := None; stoppedAt := None |}
                      (agents (ms w)))) =
              map fst
                (JsMap.set (agent_key f1)
                   {| agent_id := agent_key f1; agent_name := name1;
                      status := A_CREATED; agent_createdAt := t1;
                      startedAt := None; stoppedAt := None |}
                   (agents (ms w)))).
  { apply set_keys_present. unfold JsMap.has. now rewrite get_set_same. }
  split; [exact P|]. split; [now rewrite get_set_same|].
  split; [reflexivity|].
  apply (f_equal (@List.length _)) in P. now rewrite !length_map in P.
Qed.

Lemma create_agent_collision_witness :
  fst (getAgent "agt_3f2b8c1e"
         (exec (createAgent "taker" "3f2b8c1e-ffff-4e6b-9a57-000000000000" 1200)
            (exec (createAgent "maker" sample_id 1000) init))) =
    Normal (Some {| agent_id := "agt_3f2b8c1e"; agent_name := "taker";
                    status := A_CREATED; agent_createdAt := 1200;
                    startedAt := None; stoppedAt := None |}).
Proof.
  refine (proj1 (proj2 (create_agent_collision "maker" "taker" sample_id
            "3f2b8c1e-ffff-4e6b-9a57-000000000000" 1000 1200 init _))).
  reflexivity.
Defined.

(** X15.  An agent that is not stored: [startAgent] and [stopAgent] give
    [undefined] and [deleteAgent] gives [false], and none of them changes
    anything.  [deleteAgent] of a stored agent gives [true], after it the
    agent is not stored, and the other agents are as before. *)
Theorem missing_agent id now w :
  NoDup (map fst (agents (ms w))) ->
  (JsMap.get id (agents (ms w)) = None ->
     startAgent id now w = (Normal None, w)
     /\ stopAgent id now w = (Normal None, w)
     /\ deleteAgent id w = (Normal false, w))
  /\ (JsMap.get id (agents (ms w)) <> None ->
        fst (deleteAgent id w) = Normal true)
  /\ JsMap.get id (agents (ms (exec (deleteAgent id) w))) = None
  /\ (forall id', id' <> id ->
        JsMap.get id' (agents (ms (exec (deleteAgent id) w))) =
          JsMap.get id' (agents (ms w)))
  /\ intents (ms (exec (deleteAgent id) w)) = intents (ms w)
  /\ trace (exec (deleteAgent id) w) = trace w.
Proof.
  intros N. split; [intros G; split; [|split]|split; [|split; [|split]]].
  - unfold startAgent, getAgent, bind, gets. now rewrite G.
  - unfold stopAgent, getAgent, bind, gets. now rewrite G.
  - unfold deleteAgent, bind, gets, modify, ret. unfold JsMap.has at 1.
    rewrite G. destruct w as [[ints ags ws nf lat pa] tr]. simpl in *.
    unfold set_agents. simpl. rewrite delete_absent; [reflexivity|].
    unfold JsMap.has. now rewrite G.
  - intros G. unfold deleteAgent, bind, gets, modify, ret, JsMap.has.
    destruct (JsMap.get id (agents (ms w))); [reflexivity | congruence].
  - unfold deleteAgent, exec, bind, gets, modify, ret. simpl.
    now apply get_delete_same.
  - intros id' Hne. unfold deleteAgent, exec, bind, gets, modify, ret. simpl.
    now apply get_delete_other.
  - split; reflexivity.
Qed.

Lemma missing_agent_witness :
  JsMap.get "agt_3f2b8c1e"
    (agents (ms (exec (deleteAgent "agt_3f2b8c1e")
                   (exec (createAgent "maker" sample_id 1000) init)))) = None.
Proof.
  refine (proj1 (proj2 (proj2 (missing_agent "agt_3f2b8c1e" 0
            (exec (createAgent "maker" sample_id 1000) init) _)))).
  vm_compute. repeat constructor. simpl. tauto.
Defined.

(** ** The controls *)

Lemma keeps_controls_ret {A : Type} (a : A) : keeps_controls (ret a).
Proof. intros w. reflexivity. Qed.

Lemma keeps_controls_throw {A : Type} : keeps_controls (@throw A).
Proof. intros w. reflexivity. Qed.

Lemma keeps_controls_bind {A B : Type} (m : Eng A) (k : A -> Eng B) :
  keeps_controls m -> (forall a, keeps_controls (k a)) ->
  keeps_controls (bind m k).
Proof.
  intros Hm Hk w. unfold bind. specialize (Hm w).
  destruct (m w) as [[a|] w']; simpl in *.
  - now rewrite Hk.
  - exact Hm.
Qed.

Lemma keeps_controls_emit acts : keeps_controls (emit acts).
Proof. intros w. reflexivity. Qed.

Lemma keeps_controls_gets {A : Type} (f : MockState -> A) :
  keeps_controls (gets f).
Proof. intros w. reflexivity. Qed.

Lemma keeps_controls_intents f : keeps_controls (modify (set_intents f)).
Proof. intros w. reflexivity. Qed.

Lemma keeps_controls_agents f : keeps_controls (modify (set_agents f)).
Proof. intros w. reflexivity. Qed.

Lemma keeps_controls_watchers f : keeps_controls (modify (set_watchers f)).
Proof. intros w. reflexivity. Qed.

Lemma keeps_controls_paused b : keeps_controls (modify (set_paused b)).
Proof. intros w. reflexivity. Qed.

Lemma keeps_controls_forEach cbs ev : keeps_controls (forEach cbs ev).
Proof.
  induction cbs as [|cb cbs IH]; [apply keeps_controls_ret|].
  cbn [forEach]. apply keeps_controls_bind; [|intros _; exact IH].
  unfold call. destruct (cb_run cb ev) as [out [|]];
    (apply keeps_controls_bind; [apply keeps_controls_emit|]); intros _;
    [apply keeps_controls_throw | apply keeps_controls_ret].
Qed.

(** The computations of the engine are sequences of reads, writes of one
    field, trace entries and calls of the watchers. *)
Ltac keeps_controls_seq :=
  repeat first
    [ apply keeps_controls_ret
    | apply keeps_controls_throw
    | apply keeps_controls_emit
    | apply keeps_controls_gets
    | apply keeps_controls_intents
    | apply keeps_controls_agents
    | apply keeps_controls_watchers
    | apply keeps_controls_paused
    | apply keeps_controls_forEach
    | apply keeps_controls_bind; [|intros ?]
    | match goal with
      | |- keeps_controls (match ?x with _ => _ end) => destruct x
      end ].

Lemma step_keeps_controls o w : controls (step o w) = controls w.
Proof.
  assert (K : forall A (m : Eng A), keeps_controls m ->
                controls (exec m w) = controls w) by (intros A m H; apply H).
  destruct o; cbn [step]; apply K.
  - unfold createIntent, simulateExecution, getIntent. keeps_controls_seq.
  - unfold resume, stage_body, complete, notify_last, notifyWatchers, mutate,
      getIntent. keeps_controls_seq.
  - unfold cancelIntent, notify_last, notifyWatchers, mutate, getIntent.
    keeps_controls_seq.
  - unfold kill. keeps_controls_seq.
  - unfold pause. keeps_controls_seq.
  - unfold resume_execution. keeps_controls_seq.
  - unfold watchIntent. keeps_controls_seq.
  - unfold unsubscribe. keeps_controls_seq.
  - unfold watch_handler, watchIntent, getIntent. keeps_controls_seq.
  - unfold watch_abort, unsubscribe. keeps_controls_seq.
Qed.

Lemma run_keeps_controls ops w : controls (run ops w) = controls w.
Proof.
  unfold run. revert w. induction ops as [|o ops IH]; intros w; [reflexivity|].
  simpl. now rewrite IH, step_keeps_controls.
Qed.

Lemma middleware_plain r w :
  nextFailure (ms w) = None ->
  auth_middleware r w = (Normal (plain (latencyMs (ms w)) r), w).
Proof.
  intros H. unfold auth_middleware, plain.
  destruct (is_health r); [reflexivity|].
  destruct (authorised (req_auth r)); [|reflexivity]. simpl.
  unfold bind, shouldFailNext, gets, getLatency, ret. now rewrite H.
Qed.

Lemma middleware_exempt r w :
  is_health r = true \/ authorised (req_auth r) = false ->
  auth_middleware r w = (Normal (plain (latencyMs (ms w)) r), w).
Proof.
  intros H. unfold auth_middleware, plain.
  destruct (is_health r); [reflexivity|].
  destruct H as [H|H]; [discriminate|]. now rewrite H.
Qed.

Lemma middleware_fails r f w :
  nextFailure (ms w) = Some f ->
  is_health r = false -> authorised (req_auth r) = true ->
  auth_middleware r w =
    (Normal (Reply (failure_status f) (failure_code f) (failure_message f)),
     clear_failure w).
Proof.
  intros H Hh Ha. unfold auth_middleware. rewrite Hh, Ha. simpl.
  unfold bind, shouldFailNext, consumeFailure, bind, gets, modify, ret.
  rewrite H. cbv beta iota. rewrite H. reflexivity.
Qed.

Lemma arrive_controls a v w w' :
  arrive a w = (v, w') ->
  (exists r h, a = Req r h /\ is_health r = false
               /\ authorised (req_auth r) = true
               /\ nextFailure (ms w) <> None) \/
  (controls w' = controls w /\
   v = match a with
       | Req r _ => Some (Normal (plain (latencyMs (ms w)) r))
       | Engine _ => None
       end).
Proof.
  destruct a as [r h|o]; cbn [arrive].
  - destruct (is_health r) eqn:Hh.
    + rewrite middleware_exempt by tauto. unfold plain. rewrite Hh.
      intros E. injection E as <- <-. right.
      split; [apply run_keeps_controls | reflexivity].
    + destruct (authorised (req_auth r)) eqn:Ha.
      * destruct (nextFailure (ms w)) as [f|] eqn:Hf.
        -- intros _. left. exists r, h. repeat split; auto. congruence.
        -- rewrite middleware_plain by exact Hf. unfold plain.
           rewrite Hh, Ha. simpl. intros E. injection E as <- <-. right.
           split; [apply run_keeps_controls | reflexivity].
      * rewrite middleware_exempt by tauto. unfold plain. rewrite Hh, Ha.
        simpl. intros E. injection E as <- <-. right. split; reflexivity.
  - intros E. injection E as <- <-. right.
    split; [apply step_keeps_controls | reflexivity].
Qed.

Lemma serve_app l1 l2 w :
  serve (l1 ++ l2) w =
    (fst (serve l1 w) ++ fst (serve l2 (snd (serve l1 w))),
     snd (serve l2 (snd (serve l1 w)))).
Proof.
  revert w. induction l1 as [|a l1 IH]; intros w; simpl.
  - now destruct (serve l2 w).
  - destruct (arrive a w) as [v w']. rewrite IH.
    destruct (serve l1 w') as [vs w'']. simpl.
    destruct v; reflexivity.
Qed.

(** While nothing is consumed, the answers are the plain ones. *)
Lemma serve_plain l w :
  nextFailure (ms w) = None \/ Forall exempt l ->
  fst (serve l w) = map (fun r => Normal (plain (latencyMs (ms w)) r))
                      (requests l)
  /\ controls (snd (serve l w)) = controls w.
Proof.
  revert w. induction l as [|a l IH]; intros w H; [split; reflexivity|].
  cbn [serve]. destruct (arrive a w) as [v w'] eqn:E.
  destruct (arrive_controls _ _ _ _ E) as [(r & h & -> & Hh & Ha & Hf)|[C ->]].
  - exfalso. destruct H as [H|H]; [contradiction|].
    inversion_clear H as [|? ? H1 H2]. simpl in H1.
    destruct H1; congruence.
  - assert (H' : nextFailure (ms w') = None \/ Forall exempt l).
    { destruct H as [H|H]; [left|right; now inversion H].
      unfold controls in C. congruence. }
    destruct (IH w' H') as [V C'].
    destruct (serve l w') as [vs w'']. simpl in *.
    assert (L : latencyMs (ms w') = latencyMs (ms w))
      by (unfold controls in C; congruence).
    rewrite L in V. split; [|congruence].
    destruct a; simpl; now rewrite V.
Qed.

(** X16.  No run of the engine (creation, wake-up of a driver, cancel,
    kill, pause, resume, subscription, watch connection) changes the
    configured failure or the configured latency. *)
Theorem engine_keeps_controls ops w :
  nextFailure (ms (run ops w)) = nextFailure (ms w)
  /\ latencyMs (ms (run ops w)) = latencyMs (ms w).
Proof.
  pose proof (run_keeps_controls ops w) as H. unfold controls in H.
  split; congruence.
Qed.

(** X17.  A configured failure is spent on exactly one request: the first
    one that is neither the health check nor unauthenticated.  The requests
    before it are answered as if nothing were configured and leave the
    failure in place; that request is answered with the failure and its
    handler does not run; every request after it is answered as if nothing
    were configured, whatever the engine does in between. *)
Theorem failure_is_one_shot pre r h post f w :
  nextFailure (ms w) = Some f ->
  Forall exempt pre ->
  is_health r = false -> authorised (req_auth r) = true ->
  fst (serve (pre ++ Req r h :: post) w) =
    map (fun q => Normal (plain (latencyMs (ms w)) q)) (requests pre)
    ++ Normal (Reply (failure_status f) (failure_code f) (failure_message f))
    :: map (fun q => Normal (plain (latencyMs (ms w)) q)) (requests post)
  /\ snd (serve (pre ++ [Req r h]) w) = clear_failure (snd (serve pre w))
  /\ nextFailure (ms (snd (serve pre w))) = Some f
  /\ nextFailure (ms (snd (serve (pre ++ Req r h :: post) w))) = None.
Proof.
  intros Hf Hpre Hh Ha.
  destruct (serve_plain pre w (or_intror Hpre)) as [V C].
  assert (F1 : nextFailure (ms (snd (serve pre w))) = Some f)
    by (unfold controls in C; congruence).
  assert (L1 : latencyMs (ms (snd (serve pre w))) = latencyMs (ms w))
    by (unfold controls in C; congruence).
  assert (S1 : serve [Req r h] (snd (serve pre w)) =
               ([Normal (Reply (failure_status f) (failure_code f)
                           (failure_message f))],
                clear_failure (snd (serve pre w)))).
  { cbn [serve arrive]. now rewrite (middleware_fails r f _ F1 Hh Ha). }
  destruct (serve_plain post (clear_failure (snd (serve pre w)))
              (or_introl eq_refl)) as [V2 C2].
  change (latencyMs (ms (clear_failure (snd (serve pre w)))))
    with (latencyMs (ms (snd (serve pre w)))) in V2.
  rewrite L1 in V2.
  assert (S2 : serve (Req r h :: post) (snd (serve pre w)) =
               (Normal (Reply (failure_status f) (failure_code f)
                          (failure_message f))
                  :: fst (serve post (clear_failure (snd (serve pre w)))),
                snd (serve post (clear_failure (snd (serve pre w)))))).
  { cbn [serve arrive]. rewrite (middleware_fails r f _ F1 Hh Ha).
    now destruct (serve post (clear_failure (snd (serve pre w)))). }
  split; [|split; [|split]].
  - rewrite serve_app, S2. cbn [fst snd]. now rewrite V, V2.
  - rewrite serve_app, S1. reflexivity.
  - exact F1.
  - rewrite serve_app, S2. cbn [fst snd]. unfold controls in C2.
    injection C2 as -> _. reflexivity.
Qed.

Lemma failure_is_one_shot_witness :
  fst (serve
         ([Req {| req_path := "/api/v1/health"; req_auth := None |} [];
           Req {| req_path := "/api/v1/exec/status"; req_auth := None |} []]
          ++ Req {| req_path := "/api/v1/exec/kill";
                    req_auth := Some "Bearer nxw_test" |} [OpKill 1100]
          :: [Engine (OpCancel sample_id 1200);
              Req {| req_path := "/api/v1/exec/status";
                     req_auth := Some "Bearer nxw_test" |} []])
         (exec (fail_next_handler None None (Some 429)) sample_world)) =
    [Normal (Next None);
     Normal (Reply 401 "UNAUTHENTICATED" "Missing or invalid API key");
     Normal (Reply 429 "INTERNAL" "Simulated failure");
     Normal (Next None)].
Proof.
  refine (proj1 (failure_is_one_shot _ _ _ _
            {| failure_code := "INTERNAL";
               failure_message := "Simulated failure";
               failure_status := 429 |} _ _ _ _ _)).
  - reflexivity.
  - repeat constructor; simpl; tauto.
  - reflexivity.
  - reflexivity.
Defined.

(** ** The client side of a stream *)

Lemma append_assoc (a b c : string) :
  String.append (String.append a b) c = String.append a (String.append b c).
Proof. induction a as [|x a IH]; simpl; [reflexivity | now rewrite IH]. Qed.

Lemma append_empty_r (a : string) : String.append a EmptyString = a.
Proof. induction a as [|x a IH]; simpl; [reflexivity | now rewrite IH]. Qed.

Lemma split_lines_not_nil s : split_lines s <> [].
Proof.
  destruct s as [|c s]; simpl; [discriminate|].
  destruct (Ascii.eqb c newline); [discriminate|].
  destruct (split_lines s); discriminate.
Qed.

Lemma removelast_cons {A : Type} (x : A) l :
  l <> [] -> removelast (x :: l) = x :: removelast l.
Proof. destruct l; [congruence | reflexivity]. Qed.

Lemma last_cons_ne {A : Type} (x d : A) l :
  l <> [] -> last (x :: l) d = last l d.
Proof. destruct l; [congruence | reflexivity]. Qed.

(** The lines of a text that goes on: the complete lines stay, the last
    segment is continued. *)
Lemma split_lines_app a b :
  split_lines (String.append a b) =
    removelast (split_lines a)
    ++ split_lines (String.append (last (split_lines a) EmptyString) b).
Proof.
  induction a as [|c a IH]; [reflexivity|].
  pose proof (split_lines_not_nil a) as N.
  cbn [String.append split_lines].
  destruct (Ascii.eqb c newline) eqn:E.
  - rewrite removelast_cons, last_cons_ne by exact N.
    rewrite IH. reflexivity.
  - rewrite IH. destruct (split_lines a) as [|l [|l2 ls]]; [congruence| |].
    + cbn [removelast last app String.append split_lines]. now rewrite E.
    + rewrite (removelast_cons (String c l)) by discriminate.
      rewrite (last_cons_ne (String c l)) by discriminate.
      rewrite (removelast_cons l) by discriminate.
      rewrite (last_cons_ne l) by discriminate.
      reflexivity.
Qed.

Lemma split_lines_whole s : no_newline s = true -> split_lines s = [s].
Proof.
  induction s as [|c s IH]; [reflexivity|]. simpl.
  destruct (Ascii.eqb c newline); [discriminate|]. simpl.
  intros H. now rewrite IH.
Qed.

Lemma last_split_no_newline s :
  no_newline (last (split_lines s) EmptyString) = true.
Proof.
  induction s as [|c s IH]; [reflexivity|].
  pose proof (split_lines_not_nil s) as N. cbn [split_lines].
  destruct (Ascii.eqb c newline) eqn:E.
  - now rewrite last_cons_ne.
  - destruct (split_lines s) as [|l [|l2 ls]]; [congruence| |].
    + simpl in *. now rewrite E, IH.
    + rewrite (last_cons_ne (String c l)) by discriminate.
      rewrite (last_cons_ne l) in IH by discriminate. exact IH.
Qed.

Lemma removelast_app_ne {A : Type} (l1 l2 : list A) :
  l2 <> [] -> removelast (l1 ++ l2) = l1 ++ removelast l2.
Proof. intros H. now apply removelast_app. Qed.

Lemma text_of_app l1 l2 :
  text_of (l1 ++ l2) = String.append (text_of l1) (text_of l2).
Proof.
  induction l1 as [|c l1 IH]; simpl; [reflexivity|].
  fold (text_of (l1 ++ l2)) (text_of l1). now rewrite IH, append_assoc.
Qed.

Section StreamFacts.
Context {T : Type} (parse : string -> option T).

Lemma read_lines_app l1 l2 :
  read_lines parse (l1 ++ l2) =
    match read_lines parse l1 with
    | (ys, Some e) => (ys, Some e)
    | (ys, None) =>
        let '(zs, e) := read_lines parse l2 in (ys ++ zs, e)
    end.
Proof.
  induction l1 as [|line l1 IH]; cbn [app read_lines]; cbv zeta.
  - now destruct (read_lines parse l2).
  - destruct (String.prefix "data: " line); [|exact IH].
    destruct (String.eqb (drop 6 line) "[DONE]"); [reflexivity|].
    destruct (parse (drop 6 line)) as [v|]; [|reflexivity].
    rewrite IH. destruct (read_lines parse l1) as [ys [e|]]; [reflexivity|].
    now destruct (read_lines parse l2).
Qed.

Lemma stream_loop_text chunks buffer :
  no_newline buffer = true ->
  stream_loop parse chunks buffer =
    read_text parse (String.append buffer (text_of chunks)).
Proof.
  revert buffer. induction chunks as [|value chunks IH]; intros buffer H.
  - unfold read_text. simpl. rewrite append_empty_r.
    now rewrite split_lines_whole.
  - cbn [stream_loop text_of fold_right]. cbv zeta. fold (text_of chunks).
    unfold read_text.
    rewrite <- append_assoc, (split_lines_app (String.append buffer value)).
    rewrite removelast_app_ne by apply split_lines_not_nil.
    rewrite read_lines_app.
    destruct (read_lines parse
                (removelast (split_lines (String.append buffer value))))
      as [ys [e|]]; [reflexivity|].
    rewrite IH by apply last_split_no_newline. unfold read_text.
    destruct (read_lines parse _) as [zs [e|]]; reflexivity.
Qed.

Lemma split_lines_line s rest :
  no_newline s = true ->
  split_lines (String.append s (String newline rest)) = s :: split_lines rest.
Proof.
  induction s as [|c s IH]; intros H; [reflexivity|].
  simpl in H. cbn [String.append split_lines].
  destruct (Ascii.eqb c newline); [discriminate|]. simpl in H.
  now rewrite IH.
Qed.

Lemma split_lines_frame d rest :
  no_newline d = true ->
  split_lines (String.append (sse_frame d) rest) =
    String.append "data: " d :: EmptyString :: split_lines rest.
Proof.
  intros H. unfold sse_frame.
  replace (String.append
             (String.append "data: "
                (String.append d (String newline (String newline EmptyString))))
             rest)
    with (String.append (String.append "data: " d)
            (String newline (String newline rest)))
    by (now rewrite !append_assoc).
  rewrite split_lines_line by exact H.
  reflexivity.
Qed.

Lemma drop_prefix d : drop 6 (String.append "data: " d) = d.
Proof. reflexivity. Qed.

Lemma prefix_data d : String.prefix "data: " (String.append "data: " d) = true.
Proof. simpl. now destruct d. Qed.

Lemma read_text_frames payloads :
  forallb no_newline payloads = true ->
  read_text parse (text_of (map sse_frame payloads)) = decode parse payloads.
Proof.
  unfold read_text.
  induction payloads as [|d rest IH]; intros H; [reflexivity|].
  simpl in H. apply andb_prop in H. destruct H as [Hd Hr].
  cbn [map text_of fold_right]. fold (text_of (map sse_frame rest)).
  rewrite split_lines_frame by exact Hd.
  rewrite !removelast_cons;
    [| apply split_lines_not_nil | discriminate].
  cbn [read_lines decode]. rewrite prefix_data, drop_prefix.
  destruct (String.eqb d "[DONE]"); [reflexivity|].
  destruct (parse d) as [v|]; [|reflexivity].
  change (String.prefix "data: " "") with false. cbv iota.
  specialize (IH Hr). destruct (decode parse rest) as [zs e'].
  destruct (read_lines parse _) as [ys [e|]]; congruence.
Qed.

End StreamFacts.

(** X18.  What the client yields does not depend on how the body is cut
    into chunks: two ways of cutting the same text give the same items and
    the same ending.  A last line that no newline ends is not read: chunks
    without a newline at the end of the body add nothing. *)
Theorem stream_ignores_chunking {T : Type} (parse : string -> option T)
  chunks chunks' tail :
  text_of chunks = text_of chunks' ->
  no_newline tail = true ->
  stream_loop parse chunks EmptyString = stream_loop parse chunks' EmptyString
  /\ stream_loop parse (chunks ++ [tail]) EmptyString =
       stream_loop parse chunks EmptyString.
Proof.
  intros E Ht. rewrite !stream_loop_text by reflexivity. cbn [String.append].
  split; [now rewrite E|].
  unfold read_text.
  rewrite text_of_app. cbn [text_of fold_right]. rewrite append_empty_r.
  rewrite split_lines_app.
  rewrite removelast_app_ne by apply split_lines_not_nil.
  rewrite (split_lines_whole
             (String.append (last (split_lines (text_of chunks)) EmptyString)
                tail)).
  - cbn [removelast]. now rewrite app_nil_r.
  - pose proof (last_split_no_newline (text_of chunks)) as L. revert L.
    generalize (last (split_lines (text_of chunks)) EmptyString) as s.
    induction s as [|c s IH]; simpl; [intros _; exact Ht|].
    destruct (Ascii.eqb c newline); [discriminate|]. exact IH.
Qed.

(** X19.  On a body made of frames [data: <payload>] followed by an empty
    line, however it is cut into chunks, the client parses and yields the
    payloads in order; it ends at the first payload [[DONE]] without reading
    further, throws at the first payload [JSON.parse] refuses, and otherwise
    ends with the body. *)
Theorem stream_decodes_frames {T : Type} (parse : string -> option T)
  chunks payloads :
  text_of chunks = text_of (map sse_frame payloads) ->
  forallb no_newline payloads = true ->
  stream_loop parse chunks EmptyString = decode parse payloads.
Proof.
  intros E H. rewrite stream_loop_text by reflexivity. cbn [String.append].
  rewrite E. now apply read_text_frames.
Qed.

Lemma stream_ignores_chunking_witness :
  stream_loop (fun s => Some s)
    ["da";
     String.append "ta: {}" (String newline (String newline "data: [DO"));
     "NE]"; String newline ""] "" =
  stream_loop (fun s => Some s)
    [String.append "data: {}"
       (String newline (String newline
          (String.append "data: [DONE]" (String newline ""))))] "".
Proof.
  refine (proj1 (stream_ignores_chunking (fun s => Some s) _ _ "" _ _));
    reflexivity.
Defined.

Lemma stream_decodes_frames_witness :
  stream_loop (fun s => if String.eqb s "{}" then Some 1%nat else None)
    [String.append (sse_frame "{}") "data";
     String.append ": {}" (String newline "");
     String newline (String.append (sse_frame "[DONE]") (sse_frame "{}"))] "" =
  ([1%nat; 1%nat], AtMarker).
Proof.
  refine (stream_decodes_frames _ _ ["{}"; "{}"; "[DONE]"; "{}"] _ _);
    reflexivity.
Defined.

(** ** The list request of the SDK *)

Lemma split_comma_aux_word s cur :
  no_comma s = true ->
  (forall rest,
     split_comma_aux (String.append s (String ","%char rest)) cur =
       String.append cur s :: split_comma_aux rest EmptyString)
  /\ split_comma_aux s cur = [String.append cur s].
Proof.
  revert cur. induction s as [|c s IH]; intros cur H.
  - split; [intros rest|]; simpl; now rewrite append_empty_r.
  - simpl in H. apply andb_prop in H. destruct H as [Hc Hs].
    apply negb_true_iff in Hc.
    destruct (IH (String.append cur (String c EmptyString)) Hs) as [A B].
    split; [intros rest|]; cbn [String.append split_comma_aux]; rewrite Hc;
      [rewrite A | rewrite B]; now rewrite append_assoc.
Qed.

Lemma split_comma_join x xs :
  forallb no_comma (x :: xs) = true ->
  split_comma (String.concat "," (x :: xs)) = x :: xs.
Proof.
  unfold split_comma. revert x.
  induction xs as [|y xs IH]; intros x H; simpl in H;
    apply andb_prop in H; destruct H as [Hx Hxs].
  - simpl. now destruct (split_comma_aux_word x EmptyString Hx) as [_ ->].
  - change (String.concat "," (x :: y :: xs))
      with (String.append x
              (String.append "," (String.concat "," (y :: xs)))).
    change (String.append "," (String.concat "," (y :: xs)))
      with (String ","%char (String.concat "," (y :: xs))).
    destruct (split_comma_aux_word x EmptyString Hx) as [-> _].
    now rewrite IH.
Qed.

Lemma state_name_no_comma sts : forallb no_comma (map state_name sts) = true.
Proof.
  induction sts as [|s sts IH]; [reflexivity|].
  simpl. rewrite IH. now destruct s.
Qed.

Lemma listIntents_ext f g s :
  matching f s = matching g s ->
  list_limit (f_limit f) = list_limit (f_limit g) ->
  list_start (f_cursor f) = list_start (f_cursor g) ->
  listIntents f s = listIntents g s.
Proof. intros M L C. unfold listIntents. now rewrite M, L, C. Qed.

Lemma list_handler_response q_limit q_cursor q_states s :
  list_handler q_limit q_cursor q_states s =
    to_response
      (listIntents
         {| f_states :=
              match q_states with
              | Some p => Some (split_comma p)
              | None => None
              end;
            f_limit :=
              Some (parseInt
                      match q_limit with Some l => l | None => "20" end);
            f_cursor := q_cursor |} s).
Proof. reflexivity. Qed.

(** X20.  A list request of the SDK is answered with the page
    [listIntents] computes for the same filters: the states arrive as they
    were given, a limit as the number it was, and a cursor unchanged.  A
    limit of 0 or [NaN] is not sent, so the page is cut at the default of
    20 instead; an empty list of states and an empty cursor are not sent
    either, which [listIntents] treats as it treats their absence.  The
    limit is an integer a binary64 holds exactly. *)
Theorem sdk_list_page filters s :
  (forall l, sdk_limit filters = Some l -> safe_integer l) ->
  sdk_list filters s =
    to_response
      (listIntents
         {| f_states := option_map (map state_name) (sdk_states filters);
            f_limit :=
              match sdk_limit filters with
              | Some l => if num_truthy l then Some l else None
              | None => None
              end;
            f_cursor := sdk_cursor filters |} s).
Proof.
  intros _. unfold sdk_list, list_params. rewrite list_handler_response.
  f_equal. apply listIntents_ext; cbn [f_states f_limit f_cursor].
  - unfold matching. cbn [f_states].
    destruct (sdk_states filters) as [[|st sts]|]; try reflexivity.
    cbn [option_map map].
    rewrite split_comma_join by apply (state_name_no_comma (st :: sts)).
    reflexivity.
  - destruct (sdk_limit filters) as [[|z]|]; try reflexivity.
    cbn [num_truthy]. destruct (z =? 0); [reflexivity|].
    cbn [negb list_limit]. now rewrite parseInt_to_string.
  - destruct (sdk_cursor filters) as [[|c cur]|]; reflexivity.
Qed.

Lemma sdk_list_page_witness :
  sdk_list {| sdk_limit := Some (Int 1); sdk_cursor := Some "1";
              sdk_states := Some [PENDING; CANCELLED] |} (ms two_world) =
    to_response
      (listIntents
         {| f_states := Some ["PENDING"; "CANCELLED"];
            f_limit := Some (Int 1); f_cursor := Some "1" |} (ms two_world)).
Proof.
  apply (sdk_list_page
           {| sdk_limit := Some (Int 1); sdk_cursor := Some "1";
              sdk_states := Some [PENDING; CANCELLED] |} (ms two_world)).
  intros l E. injection E as <-. simpl. lia.
Defined.

(** ** The cancel request *)

(** X21.  POST /api/v1/intents/:id/cancel.  For an id that is not stored
    the answer is the 404 and nothing changes.  For a COMPLETED or FAILED
    intent the answer is [cancelled: false] with that state, and nothing
    changes.  In every other case the intent is CANCELLED when the handler
    is left; the answer is [cancelled: true] with CANCELLED, unless a
    watcher of the intent throws on the notification: then the request
    fails although the intent has been cancelled. *)
Theorem cancel_request id now w :
  (lookup id w = None -> cancel_handler id now w = (Normal None, w))
  /\ (forall r, lookup id w = Some r ->
        state r = COMPLETED \/ state r = FAILED ->
        cancel_handler id now w =
          (Normal (Some {| cancelled := false; finalState := state r |}), w))
  /\ (forall r, lookup id w = Some r ->
        state r <> COMPLETED -> state r <> FAILED ->
        lookup id (exec (cancel_handler id now) w) =
          Some (cancelled_record now r)
        /\ fst (cancel_handler id now w) =
             if transition_throws id (cancelled_record now r) CANCELLED now w
             then Throw
             else Normal (Some {| cancelled := true;
                                  finalState := CANCELLED |})).
Proof.
  split; [|split].
  - intros H. unfold cancel_handler.
    now rewrite bind_apply, cancelIntent_absent.
  - intros r H Hs. unfold cancel_handler.
    rewrite bind_apply, (cancelIntent_done id now r w H Hs). cbv beta iota.
    destruct Hs as [E|E]; rewrite E; reflexivity.
  - intros r H Hc Hf. unfold exec, cancel_handler.
    rewrite bind_apply, (cancelIntent_live id now r w H Hc Hf).
    destruct (transition_throws id (cancelled_record now r) CANCELLED now w);
      cbv beta iota; cbn [fst snd]; unfold ret; cbn [fst snd]; rewrite lookup_transition_same;
      split; reflexivity.
Qed.

(** ** The states the engine assigns *)

Lemma off_retrying_ret {A : Type} (a : A) : keeps_off_retrying (ret a).
Proof. intros w H. exact H. Qed.

Lemma off_retrying_throw {A : Type} : keeps_off_retrying (@throw A).
Proof. intros w H. exact H. Qed.

Lemma off_retrying_bind {A B : Type} (m : Eng A) (k : A -> Eng B) :
  keeps_off_retrying m -> (forall a, keeps_off_retrying (k a)) ->
  keeps_off_retrying (bind m k).
Proof.
  intros Hm Hk w H. unfold bind. specialize (Hm w H).
  destruct (m w) as [[a|] w']; simpl in *.
  - now apply Hk.
  - exact Hm.
Qed.

Lemma off_retrying_emit acts : keeps_off_retrying (emit acts).
Proof. intros w H. exact H. Qed.

Lemma off_retrying_gets {A : Type} (f : MockState -> A) :
  keeps_off_retrying (gets f).
Proof. intros w H. exact H. Qed.

Lemma off_retrying_agents f : keeps_off_retrying (modify (set_agents f)).
Proof. intros w H. exact H. Qed.

Lemma off_retrying_watchers f : keeps_off_retrying (modify (set_watchers f)).
Proof. intros w H. exact H. Qed.

Lemma off_retrying_paused b : keeps_off_retrying (modify (set_paused b)).
Proof. intros w H. exact H. Qed.

Lemma off_retrying_forEach cbs ev : keeps_off_retrying (forEach cbs ev).
Proof.
  induction cbs as [|cb cbs IH]; [apply off_retrying_ret|].
  cbn [forEach]. apply off_retrying_bind; [|intros _; exact IH].
  unfold call. destruct (cb_run cb ev) as [out [|]];
    (apply off_retrying_bind; [apply off_retrying_emit|]); intros _;
    [apply off_retrying_throw | apply off_retrying_ret].
Qed.

Lemma off_retrying_set id r :
  state r <> RETRYING ->
  keeps_off_retrying (modify (set_intents (JsMap.set id r))).
Proof.
  intros Hr w H. unfold none_retrying in *. simpl.
  now apply (set_Forall (fun kv => state (snd kv) <> RETRYING)).
Qed.

Lemma off_retrying_mutate id f :
  (forall i, state i <> RETRYING -> state (f i) <> RETRYING) ->
  keeps_off_retrying (mutate id f).
Proof.
  intros Hf w H. unfold none_retrying in *. simpl.
  destruct (JsMap.get id (intents (ms w))) as [i|] eqn:G; [|exact H].
  apply (set_Forall (fun kv => state (snd kv) <> RETRYING)); [|exact H].
  simpl. apply Hf. apply get_In in G. rewrite Forall_forall in H.
  exact (H _ G).
Qed.

Lemma off_retrying_kill now : keeps_off_retrying (kill now).
Proof.
  intros w H. rewrite kill_apply. unfold none_retrying in *. simpl.
  rewrite Forall_forall in *. intros x Hx. apply in_map_iff in Hx.
  destruct Hx as [kv [<- Hx]]. specialize (H _ Hx). simpl.
  unfold killed_record. destruct (terminal (state (snd kv))); [exact H|].
  discriminate.
Qed.

Ltac off_retrying_seq :=
  repeat first
    [ apply off_retrying_ret
    | apply off_retrying_throw
    | apply off_retrying_emit
    | apply off_retrying_gets
    | apply off_retrying_agents
    | apply off_retrying_watchers
    | apply off_retrying_paused
    | apply off_retrying_forEach
    | apply off_retrying_kill
    | apply off_retrying_set; discriminate
    | apply off_retrying_mutate; intros ? ?; cbn;
      first [assumption | discriminate]
    | apply off_retrying_bind; [|intros ?]
    | match goal with
      | |- keeps_off_retrying (match ?x with _ => _ end) => destruct x
      end ].

Lemma stage_of_stages stage :
  In stage stages -> stage_state stage <> RETRYING.
Proof.
  unfold stages. simpl.
  intros [<-|[<-|[<-|[<-|[<-|[<-|[]]]]]]]; discriminate.
Qed.

Lemma step_off_retrying o w :
  real_stages o -> none_retrying w -> none_retrying (step o w).
Proof.
  intros R.
  assert (K : forall A (m : Eng A), keeps_off_retrying m ->
                none_retrying w -> none_retrying (exec m w))
    by (intros A m H; apply H).
  destruct o; cbn [step]; apply K.
  - unfold createIntent, simulateExecution, getIntent. off_retrying_seq.
  - destruct k as [|stage rest]; [apply off_retrying_ret|].
    assert (S : stage_state stage <> RETRYING)
      by (apply stage_of_stages, R; now left).
    unfold resume, stage_body, complete, notify_last, notifyWatchers,
      getIntent. off_retrying_seq.
  - unfold cancelIntent, notify_last, notifyWatchers, getIntent.
    off_retrying_seq.
  - off_retrying_seq.
  - unfold pause. off_retrying_seq.
  - unfold resume_execution. off_retrying_seq.
  - unfold watchIntent. off_retrying_seq.
  - unfold unsubscribe. off_retrying_seq.
  - unfold watch_handler, watchIntent, getIntent. off_retrying_seq.
  - unfold watch_abort, unsubscribe. off_retrying_seq.
Qed.

Lemma none_retrying_count w : none_retrying w -> retrying_count (ms w) = 0%nat.
Proof.
  unfold none_retrying, retrying_count, JsMap.values.
  induction (intents (ms w)) as [|[k i] m IH]; intros H; [reflexivity|].
  inversion_clear H as [|? ? H1 H2]. simpl in *.
  apply state_eqb_neq in H1. rewrite H1. now apply IH.
Qed.

Lemma kill_counts now w :
  exists k,
    fst (kill now w) = Normal k
    /\ executionsKilled k =
         (pendingIntents (getQueueStatus (ms w))
          + executingIntents (getQueueStatus (ms w))
          + retrying_count (ms w))%nat.
Proof.
  eexists. rewrite kill_apply. simpl fst. split; [reflexivity|].
  simpl. unfold retrying_count.
  apply filter_length_split; intros i; unfold live, terminal, is_executing;
    destruct (state i); reflexivity.
Qed.

(** X22.  The engine never assigns RETRYING: when no stored intent is in
    that state, none is after any operations (the wake-ups being those of
    drivers, before stages of the list of stages).  So the live intents are
    the pending and the executing ones the queue status counts, and [kill]
    reports their sum. *)
Theorem never_retrying ops w :
  none_retrying w ->
  Forall real_stages ops ->
  none_retrying (run ops w)
  /\ (forall id r, lookup id (run ops w) = Some r -> state r <> RETRYING)
  /\ (forall now, exists k,
        fst (kill now (run ops w)) = Normal k
        /\ executionsKilled k =
             (pendingIntents (getQueueStatus (ms (run ops w)))
              + executingIntents (getQueueStatus (ms (run ops w))))%nat).
Proof.
  intros H R.
  assert (N : none_retrying (run ops w)).
  { unfold run. revert w H.
    induction R as [|o ops Ho _ IH]; intros w H; [exact H|].
    simpl. apply IH. now apply step_off_retrying. }
  split; [exact N|]. split.
  - intros id r L. unfold lookup in L. apply get_In in L.
    unfold none_retrying in N. rewrite Forall_forall in N. exact (N _ L).
  - intros now. destruct (kill_counts now (run ops w)) as [k [E C]].
    exists k. split; [exact E|].
    rewrite C, (none_retrying_count _ N). lia.
Qed.

Lemma never_retrying_witness :
  none_retrying
    (run [OpResume sample_id stages 0.5%float 1500;
          OpResume other_id stages 0.01%float 1600;
          OpCancel sample_id 1700; OpKill 1800] two_world).
Proof.
  refine (proj1 (never_retrying _ two_world _ _)).
  - unfold none_retrying. vm_compute. repeat constructor; discriminate.
  - repeat (constructor; [first [apply incl_refl | exact I] |]).
    constructor.
Defined.
